(** * project-indexer: the chunk writer, the parsers, the parser registry
      and the metadata manager, embedded from the Python sources.

    Python values are modelled as follows.
    - [str] is [string]; a character is an [ascii] code.  The character
      classes of [re] and of [str.strip] are the ones CPython uses on the
      ASCII range; codes above 127 are neither white space nor word
      characters here.
    - [int] is [Z]; [len] returns a [Z].
    - [list] is [list]; a [dict] keyed by strings is a [gmap string _]
      (the iteration order of the keys is not modelled); a [set] given as
      an argument is a [gset].
    - [None]-able values are [option]s. *)

From Stdlib Require Import ZArith QArith Qcanon Strings.String Strings.Ascii
  List Bool Lia.
From stdpp Require Import base option numbers list gmap strings pretty sorting.

Local Open Scope string_scope.
Local Open Scope Z_scope.
Local Open Scope list_scope.

(** ** Python string primitives *)

Module Py.

(** [len(s)] *)
Definition len (s : string) : Z := Z.of_nat (String.length s).

(** The newline character. *)
Definition nl : ascii := "010"%char.

(** [s.split(sep)] for a separator of one character: never the empty list. *)
Fixpoint split (sep : ascii) (s : string) : list string :=
  match s with
  | EmptyString => [EmptyString]
  | String c s' =>
      if Ascii.eqb c sep then EmptyString :: split sep s'
      else match split sep s' with
           | h :: t => String c h :: t
           | [] => [String c EmptyString]
           end
  end.

(** [sep.join(parts)] *)
Definition join (sep : string) (parts : list string) : string :=
  String.concat sep parts.

(** [str.isspace] on one character (CPython's ASCII white-space table);
    this is also the class [\s] of [re] on the ASCII range. *)
Definition is_space (c : ascii) : bool :=
  let n := nat_of_ascii c in
  ((9 <=? n)%nat && (n <=? 13)%nat) || ((28 <=? n)%nat && (n <=? 32)%nat).

Definition is_digit (c : ascii) : bool :=
  let n := nat_of_ascii c in (48 <=? n)%nat && (n <=? 57)%nat.

Definition is_upper (c : ascii) : bool :=
  let n := nat_of_ascii c in (65 <=? n)%nat && (n <=? 90)%nat.

Definition is_lower (c : ascii) : bool :=
  let n := nat_of_ascii c in (97 <=? n)%nat && (n <=? 122)%nat.

(** The class [\w] of [re] on the ASCII range: letters, digits and [_]. *)
Definition is_word (c : ascii) : bool :=
  is_lower c || is_upper c || is_digit c || Ascii.eqb c "_"%char.

(** [s.lstrip()] *)
Fixpoint lstrip (s : string) : string :=
  match s with
  | EmptyString => EmptyString
  | String c s' => if is_space c then lstrip s' else s
  end.

(** [s.rstrip()] *)
Fixpoint rstrip (s : string) : string :=
  match s with
  | EmptyString => EmptyString
  | String c s' =>
      match rstrip s' with
      | EmptyString => if is_space c then EmptyString else String c EmptyString
      | r => String c r
      end
  end.

(** [s.strip()] *)
Definition strip (s : string) : string := rstrip (lstrip s).

(** [s.startswith(p)] *)
Definition startswith (s p : string) : bool := String.prefix p s.

(** [c in s] for a character [c]. *)
Fixpoint contains_char (c : ascii) (s : string) : bool :=
  match s with
  | EmptyString => false
  | String a s' => Ascii.eqb a c || contains_char c s'
  end.

(** [s.lower()] on the ASCII range. *)
Definition lower_char (c : ascii) : ascii :=
  if is_upper c then ascii_of_nat (nat_of_ascii c + 32) else c.

Fixpoint lower (s : string) : string :=
  match s with
  | EmptyString => EmptyString
  | String c s' => String (lower_char c) (lower s')
  end.

(** Truthiness of a string and of a list: empty is false. *)
Definition truthy (s : string) : bool :=
  match s with EmptyString => false | _ => true end.

Definition nonempty {A} (l : list A) : bool :=
  match l with [] => false | _ => true end.

(** [sorted(set(l))]: the distinct elements of [l] in increasing order. *)
Definition sorted_set (l : list string) : list string :=
  merge_sort String.le (remove_dups l).

(** [str(i)] for an integer. *)
Definition str_of_int (i : Z) : string := pretty i.

(** [x or empty] for a [None]-able string: the empty string for [None]. *)
Definition or_empty (x : option string) : string :=
  match x with
  | Some s => s
  | None => EmptyString
  end.

(** [s] without the prefix [p], when [s] starts with [p]. *)
Fixpoint strip_prefix (p s : string) : option string :=
  match p with
  | EmptyString => Some s
  | String a p' =>
      match s with
      | String b s' => if Ascii.eqb a b then strip_prefix p' s' else None
      | EmptyString => None
      end
  end.

(** [s.removeprefix(p)] *)
Definition removeprefix (s p : string) : string :=
  match strip_prefix p s with
  | Some r => r
  | None => s
  end.

(** [c * n] for a character: used to build test inputs. *)
Fixpoint replicate_char (n : nat) (c : ascii) : string :=
  match n with
  | O => EmptyString
  | S n' => String c (replicate_char n' c)
  end.

End Py.

(** ** index_project.py: the chunk writer *)

Definition MAX_CHARS_PER_FILE : Z := 32000.

(** The variables of the splitting loop of [write_chunked_index]. *)
Record split_state := mk_split_state {
  chunks : list string;
  current_chunk : list string;
  current_size : Z
}.

Definition split_init : split_state := mk_split_state [] [] 0.

(** One iteration of the loop over the lines of [content]. *)
Definition split_step (st : split_state) (line : string) : split_state :=
  let line_size := Py.len line + 1 in
  let st1 :=
    if (current_size st + line_size >? MAX_CHARS_PER_FILE)
       && Py.nonempty (current_chunk st)
    then mk_split_state
           (chunks st ++ [Py.join (String Py.nl "") (current_chunk st)]) [] 0
    else st in
  mk_split_state (chunks st1) (current_chunk st1 ++ [line])
                 (current_size st1 + line_size).

(** The list [chunks] after the loop and the final flush. *)
Definition split_chunks (content : string) : list string :=
  let st := fold_left split_step (Py.split Py.nl content) split_init in
  if Py.nonempty (current_chunk st)
  then chunks st ++ [Py.join (String Py.nl "") (current_chunk st)]
  else chunks st.

(** The part marker put in front of chunk [i] for [i > 1]:
    a line made of a hash sign, [base_name] and the part number between
    parentheses, followed by an empty line. *)
Definition part_marker (base_name : string) (i : Z) : string :=
  "# " +:+ base_name +:+ " (Part " +:+ Py.str_of_int i +:+ ")"
       +:+ String Py.nl (String Py.nl "").

(** A file written by [write_text]: its name inside [output_dir] and its
    text. *)
Record written := mk_written {
  w_name : string;
  w_text : string
}.

(** [for i, chunk in enumerate(chunks, 1)]: the files written. *)
Fixpoint write_parts (base_name : string) (i : Z) (cs : list string)
  : list written :=
  match cs with
  | [] => []
  | chunk :: rest =>
      let name := base_name +:+ "_part" +:+ Py.str_of_int i +:+ ".md" in
      let chunk' := if i >? 1 then part_marker base_name i +:+ chunk
                    else chunk in
      mk_written name chunk' :: write_parts base_name (i + 1) rest
  end.

(** [write_chunked_index]: the files written into [output_dir], in the
    order they are written.  The returned list [written_files] is the list
    of their names relative to the parent of [output_dir]. *)
Definition write_chunked_index (content : string) (base_name : string)
  : list written :=
  if Py.len content <=? MAX_CHARS_PER_FILE
  then [mk_written (base_name +:+ ".md") content]
  else write_parts base_name 1 (split_chunks content).

Definition written_files (output_dir_name : string) (ws : list written)
  : list string :=
  map (fun w => output_dir_name +:+ "/" +:+ w_name w) ws.

(** Reading the output back: the part marker of file [i] (for [i > 1]) is
    removed from the front of its text. *)
Fixpoint strip_markers (base_name : string) (i : Z) (ws : list written)
  : list string :=
  match ws with
  | [] => []
  | w :: rest =>
      (if i >? 1 then Py.removeprefix (w_text w) (part_marker base_name i)
       else w_text w) :: strip_markers base_name (i + 1) rest
  end.

(** The separator line that [generate_directory_index] puts after the block
    of each file. *)
Definition SECTION_SEPARATOR : string := "---".

(** ** The part of Python's [re] the parsers use

    A pattern is a syntax tree; [rmatch] is a backtracking matcher that
    tries the alternatives in the order [re] does (greedy repetition tries
    one more iteration first, lazy repetition tries to stop first), so the
    first success is the match [re] reports. *)

Module Re.

Inductive regex : Type :=
| Eps                                   (* the empty pattern *)
| Chr (p : ascii -> bool)               (* one character of a class *)
| Lit (s : string)                      (* a literal string *)
| Bos                                   (* [^] without re.MULTILINE *)
| Bol                                   (* [^] with re.MULTILINE *)
| Seq (r1 r2 : regex)
| Alt (r1 r2 : regex)                   (* [r1|r2] *)
| Star (greedy : bool) (r : regex)      (* [r*] and [r*?] *)
| Group (n : nat) (r : regex).          (* the capturing group number n *)

(** [r+], [r?] *)
Definition Plus (r : regex) : regex := Seq r (Star true r).
Definition Opt (r : regex) : regex := Alt r Eps.

(** Character classes. *)
Definition space : regex := Chr Py.is_space.                  (* \s *)
Definition word : regex := Chr Py.is_word.                    (* \w *)
Definition any : regex := Chr (fun c => negb (Ascii.eqb c Py.nl)). (* . *)
Definition none_of (cs : string) : regex :=                   (* [^...] *)
  Chr (fun c => negb (Py.contains_char c cs)).
Definition one_of (cs : string) : regex :=                    (* [...] *)
  Chr (fun c => Py.contains_char c cs).

(** The state of a match attempt: the character before the current
    position (if any), the text from the current position on, and the
    groups captured so far. *)
Record mstate := mk_mstate {
  prev : option ascii;
  rest : string;
  caps : nat -> option string
}.

Definition set_cap (n : nat) (s : string) (c : nat -> option string)
  : nat -> option string :=
  fun m => if Nat.eqb m n then Some s else c m.

(** The text between two positions of one attempt. *)
Definition consumed (st st' : mstate) : string :=
  substring 0 (String.length (rest st) - String.length (rest st')) (rest st).

Fixpoint last_char (d : option ascii) (s : string) : option ascii :=
  match s with
  | EmptyString => d
  | String c s' => last_char (Some c) s'
  end.

(** Repetition of a pattern whose matcher is [body]: with [greedy] one more
    iteration is tried before the continuation [k], without it the
    continuation is tried first.  An iteration has to consume a character
    (every repeated pattern of the parsers does), so [fuel], one more than
    the length of the text left, is never used up. *)
Definition star_loop (body : (mstate -> option mstate) -> mstate -> option mstate)
  (greedy : bool) (k : mstate -> option mstate)
  : nat -> mstate -> option mstate :=
  fix loop (fuel : nat) (st : mstate) {struct fuel} : option mstate :=
    match fuel with
    | O => k st
    | S fuel' =>
        let again (st' : mstate) :=
          if (String.length (rest st') <? String.length (rest st))%nat
          then loop fuel' st' else None in
        if greedy
        then match body again st with
             | Some res => Some res
             | None => k st
             end
        else match k st with
             | Some res => Some res
             | None => body again st
             end
    end.

Fixpoint rmatch (r : regex) (k : mstate -> option mstate) (st : mstate)
  {struct r} : option mstate :=
  match r with
  | Eps => k st
  | Chr p =>
      match rest st with
      | String c s' =>
          if p c then k (mk_mstate (Some c) s' (caps st)) else None
      | EmptyString => None
      end
  | Lit s =>
      match Py.strip_prefix s (rest st) with
      | Some s' => k (mk_mstate (last_char (prev st) s) s' (caps st))
      | None => None
      end
  | Bos =>
      match prev st with
      | None => k st
      | Some _ => None
      end
  | Bol =>
      match prev st with
      | None => k st
      | Some c => if Ascii.eqb c Py.nl then k st else None
      end
  | Seq r1 r2 => rmatch r1 (rmatch r2 k) st
  | Alt r1 r2 =>
      match rmatch r1 k st with
      | Some res => Some res
      | None => rmatch r2 k st
      end
  | Star greedy r1 =>
      star_loop (rmatch r1) greedy k (S (String.length (rest st))) st
  | Group n r1 =>
      rmatch r1 (fun st' =>
                   k (mk_mstate (prev st') (rest st')
                                (set_cap n (consumed st st') (caps st')))) st
  end.

(** A match object: where the match starts and ends (as offsets into the
    searched text) and its groups. *)
Record match_obj := mk_match {
  m_start : nat;
  m_end : nat;
  m_groups : nat -> option string
}.

(** [m.group(n)]: [None] when the group took no part in the match. *)
Definition group (m : match_obj) (n : nat) : option string := m_groups m n.

(** One attempt at the position described by [p] and [s], which is offset
    [pos] of the searched text. *)
Definition match_at (r : regex) (pos : nat) (p : option ascii) (s : string)
  : option match_obj :=
  match rmatch r Some (mk_mstate p s (fun _ => None)) with
  | Some st' =>
      Some (mk_match pos (pos + (String.length s - String.length (rest st')))
                     (caps st'))
  | None => None
  end.

(** [re.match(r, s)]: an attempt at offset 0 only. *)
Definition re_match (r : regex) (s : string) : option match_obj :=
  match_at r 0 None s.

(** [re.finditer(r, s)]: the attempts go from left to right; after a match
    the scan resumes where the match ended.  [skip] counts the characters
    of the last match still to be passed over.  (After an empty match the
    scan moves on by one character; no pattern of the parsers matches the
    empty string.) *)
Fixpoint scan (r : regex) (skip : nat) (pos : nat) (p : option ascii)
  (s : string) {struct s} : list match_obj :=
  match skip with
  | S skip' =>
      match s with
      | String c s' => scan r skip' (S pos) (Some c) s'
      | EmptyString => []
      end
  | O =>
      match match_at r pos p s with
      | Some m =>
          m :: match s with
               | String c s' => scan r (m_end m - pos - 1) (S pos) (Some c) s'
               | EmptyString => []
               end
      | None =>
          match s with
          | String c s' => scan r 0 (S pos) (Some c) s'
          | EmptyString => []
          end
      end
  end.

Definition finditer (r : regex) (s : string) : list match_obj :=
  scan r 0 0%nat None s.

(** [re.search(r, s)]: the first match of the scan. *)
Definition search (r : regex) (s : string) : option match_obj :=
  head (finditer r s).

(** What a pattern can match, without the order of the attempts:
    [matches r st st'] when [r] can take the attempt from [st] to [st']. *)
Inductive matches : regex -> mstate -> mstate -> Prop :=
| matches_Eps st : matches Eps st st
| matches_Chr p c s' st :
    rest st = String c s' -> p c = true ->
    matches (Chr p) st (mk_mstate (Some c) s' (caps st))
| matches_Lit s s' st :
    Py.strip_prefix s (rest st) = Some s' ->
    matches (Lit s) st (mk_mstate (last_char (prev st) s) s' (caps st))
| matches_Bos st : prev st = None -> matches Bos st st
| matches_Bol st :
    prev st = None \/ prev st = Some Py.nl -> matches Bol st st
| matches_Seq r1 r2 st st1 st2 :
    matches r1 st st1 -> matches r2 st1 st2 -> matches (Seq r1 r2) st st2
| matches_Alt_l r1 r2 st st' : matches r1 st st' -> matches (Alt r1 r2) st st'
| matches_Alt_r r1 r2 st st' : matches r2 st st' -> matches (Alt r1 r2) st st'
| matches_Star_stop g r st : matches (Star g r) st st
| matches_Star_more g r st st1 st2 :
    matches r st st1 -> matches (Star g r) st1 st2 ->
    matches (Star g r) st st2
| matches_Group n r st st' :
    matches r st st' ->
    matches (Group n r) st
            (mk_mstate (prev st') (rest st')
                       (set_cap n (consumed st st') (caps st'))).

(** Group [n] takes part in every match of the pattern. *)
Fixpoint mandatory (n : nat) (r : regex) : bool :=
  match r with
  | Seq r1 r2 => mandatory n r1 || mandatory n r2
  | Alt r1 r2 => mandatory n r1 && mandatory n r2
  | Group m r1 => Nat.eqb m n || mandatory n r1
  | _ => false
  end.

(** The pattern has no group [n]. *)
Fixpoint no_group (n : nat) (r : regex) : bool :=
  match r with
  | Seq r1 r2 | Alt r1 r2 => no_group n r1 && no_group n r2
  | Star _ r1 => no_group n r1
  | Group m r1 => negb (Nat.eqb m n) && no_group n r1
  | _ => true
  end.

(** Every character of a string is in a class. *)
Fixpoint all_chars (p : ascii -> bool) (s : string) : bool :=
  match s with
  | EmptyString => true
  | String c s' => p c && all_chars p s'
  end.

End Re.

Notation "r1 -- r2" := (Re.Seq r1 r2) (at level 60, right associativity).

(** ** parsers/base.py *)

(** [FileSignature]: [description] is an [Optional[str]] that defaults to
    [None]. *)
Record FileSignature := mk_FileSignature {
  exports : list string;
  imports : list string;
  description : option string
}.

(** [m.group(n)] where the code uses the result as a [str] without a test:
    the group is outside every optional part of its pattern. *)
Definition group_str (m : Re.match_obj) (n : nat) : string :=
  Py.or_empty (Re.group m n).

(** The single and the double quote: the characters of the class that the
    import patterns write with both quotes between brackets. *)
Definition quotes : string := String "'"%char (String "034"%char "").

(** ** parsers/python_parser.py *)

Module PythonParser.

Definition extensions : list string := [".py"; ".pyi"].

Definition language_name : string := "Python".

(** Patterns are quoted with spaces between their parts.

    ^ import \s+ ( \w+ ) *)
Definition import_pattern : Re.regex :=
  Re.Bol -- Re.Lit "import" -- Re.Plus Re.space -- Re.Group 1 (Re.Plus Re.word).

(** ^ from \s+ ( \w+ ) (?: \. \w+ )* \s+ import *)
Definition from_pattern : Re.regex :=
  Re.Bol -- Re.Lit "from" -- Re.Plus Re.space -- Re.Group 1 (Re.Plus Re.word)
    -- Re.Star true (Re.Lit "." -- Re.Plus Re.word)
    -- Re.Plus Re.space -- Re.Lit "import".

(** ^ ( \s* ) class \s+ ( \w+ ) (?: \( ( [^)]* ) \) )? : *)
Definition class_pattern : Re.regex :=
  Re.Bos -- Re.Group 1 (Re.Star true Re.space) -- Re.Lit "class"
    -- Re.Plus Re.space -- Re.Group 2 (Re.Plus Re.word)
    -- Re.Opt (Re.Lit "(" -- Re.Group 3 (Re.Star true (Re.none_of ")"))
                 -- Re.Lit ")")
    -- Re.Lit ":".

(** ^ ( \s* ) ( async \s+ )? def \s+ ( \w+ ) \s* \( ( [^)]* ) \)
    (?: \s* -> \s* ( [^\n:]+ ) )? : *)
Definition func_pattern : Re.regex :=
  Re.Bos -- Re.Group 1 (Re.Star true Re.space)
    -- Re.Opt (Re.Group 2 (Re.Lit "async" -- Re.Plus Re.space))
    -- Re.Lit "def" -- Re.Plus Re.space -- Re.Group 3 (Re.Plus Re.word)
    -- Re.Star true Re.space
    -- Re.Lit "(" -- Re.Group 4 (Re.Star true (Re.none_of ")")) -- Re.Lit ")"
    -- Re.Opt (Re.Star true Re.space -- Re.Lit "->" -- Re.Star true Re.space
                 -- Re.Group 5 (Re.Plus (Re.none_of (String Py.nl ":"))))
    -- Re.Lit ":".

(** ( \w+ ) *)
Definition word_pattern : Re.regex := Re.Group 1 (Re.Plus Re.word).

Definition _extract_imports (content : string) : list string :=
  let imports1 :=
    map (fun m => group_str m 1) (Re.finditer import_pattern content) in
  let imports2 :=
    filter (fun module => module ≠ ".")
           (map (fun m => group_str m 1) (Re.finditer from_pattern content)) in
  Py.sorted_set (imports1 ++ imports2).

Definition _extract_param_name (param : string) : string :=
  let param := Py.strip param in
  if negb (Py.truthy param) then ""
  else if Py.startswith param "*"
  then Py.strip (hd "" (Py.split ":"%char param))
  else match Re.re_match word_pattern param with
       | Some m => group_str m 1
       | None => ""
       end.

(** The variables of the loop of [_simplify_params]. *)
Record params_state := mk_params_state {
  simplified : list string;
  current : string;
  depth : Z
}.

Definition params_step (st : params_state) (char : ascii) : params_state :=
  if Py.contains_char char "([{"
  then mk_params_state (simplified st) (current st +:+ String char "")
                       (depth st + 1)
  else if Py.contains_char char ")]}"
  then mk_params_state (simplified st) (current st +:+ String char "")
                       (depth st - 1)
  else if Ascii.eqb char ","%char && (depth st =? 0)
  then let name := _extract_param_name (current st) in
       mk_params_state
         (if Py.truthy name then simplified st ++ [name] else simplified st)
         "" (depth st)
  else mk_params_state (simplified st) (current st +:+ String char "")
                       (depth st).

Definition _simplify_params (params : string) : string :=
  if negb (Py.truthy (Py.strip params)) then ""
  else
    let st := fold_left params_step (list_ascii_of_string params)
                        (mk_params_state [] "" 0) in
    let names :=
      if Py.truthy (Py.strip (current st))
      then let name := _extract_param_name (current st) in
           if Py.truthy name then (simplified st ++ [name])%list
           else simplified st
      else simplified st in
    Py.join ", " names.

Definition _simplify_bases (bases : string) : string :=
  let parts :=
    flat_map (fun base =>
                match Re.re_match word_pattern (Py.strip base) with
                | Some m => [group_str m 1]
                | None => []
                end)
             (Py.split ","%char bases) in
  Py.join ", " parts.

(** The variables of the loop of [_extract_definitions]. *)
Record defs_state := mk_defs_state {
  d_exports : list string;
  current_class : option string;
  class_indent : Z
}.

(** Truthiness of [current_class]: a non-empty name. *)
Definition in_class (current_class : option string) : bool :=
  match current_class with
  | Some name => Py.truthy name
  | None => false
  end.

(** A name the loop skips: it starts with one underscore and not with
    two. *)
Definition is_private (name : string) : bool :=
  Py.startswith name "_" && negb (Py.startswith name "__").

(** The signature text of a matched [def]. *)
Definition format_def (m : Re.match_obj) : string :=
  let is_async := Py.or_empty (Re.group m 2) in
  let name := group_str m 3 in
  let params := _simplify_params (group_str m 4) in
  let async_prefix := if Py.truthy (Py.strip is_async) then "async " else "" in
  match Re.group m 5 with
  | Some return_type =>
      if Py.truthy return_type
      then async_prefix +:+ "def " +:+ name +:+ "(" +:+ params +:+ ") -> "
             +:+ Py.strip return_type
      else async_prefix +:+ "def " +:+ name +:+ "(" +:+ params +:+ ")"
  | None => async_prefix +:+ "def " +:+ name +:+ "(" +:+ params +:+ ")"
  end.

(** One iteration of [for i, line in enumerate(lines)]. *)
Definition defs_step (st : defs_state) (line : string) : defs_state :=
  let stripped := Py.lstrip line in
  if negb (Py.truthy stripped) || Py.startswith stripped "#" then st
  else
    let indent := Py.len line - Py.len stripped in
    let st :=
      if in_class (current_class st) && (indent <=? class_indent st)
      then mk_defs_state (d_exports st) None 0
      else st in
    match Re.re_match class_pattern line with
    | Some class_match =>
        let indent_str := group_str class_match 1 in
        let name := group_str class_match 2 in
        if Py.len indent_str =? 0
        then
          let entry :=
            match Re.group class_match 3 with
            | Some bases =>
                if Py.truthy bases
                then "class " +:+ name +:+ "(" +:+ _simplify_bases bases
                       +:+ ")"
                else "class " +:+ name
            | None => "class " +:+ name
            end in
          mk_defs_state (d_exports st ++ [entry]) (Some name)
                        (Py.len indent_str)
        else st
    | None =>
        match Re.re_match func_pattern line with
        | Some func_match =>
            let indent_str := group_str func_match 1 in
            let name := group_str func_match 3 in
            if is_private name then st
            else
              let sig := format_def func_match in
              if in_class (current_class st)
                 && (Py.len indent_str >? class_indent st)
              then mk_defs_state (d_exports st ++ ["  " +:+ sig])
                                 (current_class st) (class_indent st)
              else if Py.len indent_str =? 0
              then mk_defs_state (d_exports st ++ [sig])
                                 (current_class st) (class_indent st)
              else st
        | None => st
        end
    end.

Definition defs_init : defs_state := mk_defs_state [] None 0.

Definition _extract_definitions (content : string) : list string :=
  d_exports (fold_left defs_step (Py.split Py.nl content) defs_init).

Definition parse (content : string) : FileSignature :=
  let imports := _extract_imports content in
  let exports := _extract_definitions content in
  mk_FileSignature exports imports None.

End PythonParser.

(** ** parsers/typescript.py *)

Module TypeScriptParser.

Definition extensions : list string :=
  [".ts"; ".tsx"; ".js"; ".jsx"; ".mjs"; ".cjs"].

Definition language_name : string := "TypeScript/JavaScript".

Definition quote : Re.regex := Re.one_of quotes.
Definition not_quote : Re.regex := Re.none_of quotes.

(** import \s+ .*? \s+ from \s+ Q ( NQ+ ) Q, where Q is the class of the
    two quotes and NQ its complement *)
Definition import_pattern : Re.regex :=
  Re.Lit "import" -- Re.Plus Re.space -- Re.Star false Re.any
    -- Re.Plus Re.space -- Re.Lit "from" -- Re.Plus Re.space
    -- quote -- Re.Group 1 (Re.Plus not_quote) -- quote.

(** require \s* \( \s* Q ( NQ+ ) Q \s* \) *)
Definition require_pattern : Re.regex :=
  Re.Lit "require" -- Re.Star true Re.space -- Re.Lit "("
    -- Re.Star true Re.space -- quote -- Re.Group 1 (Re.Plus not_quote)
    -- quote -- Re.Star true Re.space -- Re.Lit ")".

(** export \s+ ( async \s+ )? function \s+ ( \w+ ) \s* ( < [^>]* > )? \s*
    \( ( [^)]* ) \) (?: \s* : \s* ( [^\n{]+ ) )? *)
Definition func_pattern : Re.regex :=
  Re.Lit "export" -- Re.Plus Re.space
    -- Re.Opt (Re.Group 1 (Re.Lit "async" -- Re.Plus Re.space))
    -- Re.Lit "function" -- Re.Plus Re.space -- Re.Group 2 (Re.Plus Re.word)
    -- Re.Star true Re.space
    -- Re.Opt (Re.Group 3 (Re.Lit "<" -- Re.Star true (Re.none_of ">")
                             -- Re.Lit ">"))
    -- Re.Star true Re.space
    -- Re.Lit "(" -- Re.Group 4 (Re.Star true (Re.none_of ")")) -- Re.Lit ")"
    -- Re.Opt (Re.Star true Re.space -- Re.Lit ":" -- Re.Star true Re.space
                 -- Re.Group 5 (Re.Plus (Re.none_of (String Py.nl "{")))).

(** export \s+ (?: abstract \s+ )? class \s+ ( \w+ ) (?: < [^>]* > )?
    (?: \s+ extends \s+ ( \w+ ) )? (?: \s+ implements \s+ ( [^\n{]+ ) )? *)
Definition class_pattern : Re.regex :=
  Re.Lit "export" -- Re.Plus Re.space
    -- Re.Opt (Re.Lit "abstract" -- Re.Plus Re.space)
    -- Re.Lit "class" -- Re.Plus Re.space -- Re.Group 1 (Re.Plus Re.word)
    -- Re.Opt (Re.Lit "<" -- Re.Star true (Re.none_of ">") -- Re.Lit ">")
    -- Re.Opt (Re.Plus Re.space -- Re.Lit "extends" -- Re.Plus Re.space
                 -- Re.Group 2 (Re.Plus Re.word))
    -- Re.Opt (Re.Plus Re.space -- Re.Lit "implements" -- Re.Plus Re.space
                 -- Re.Group 3 (Re.Plus (Re.none_of (String Py.nl "{")))).

(** export \s+ interface \s+ ( \w+ ) (?: < [^>]* > )? *)
Definition interface_pattern : Re.regex :=
  Re.Lit "export" -- Re.Plus Re.space -- Re.Lit "interface"
    -- Re.Plus Re.space -- Re.Group 1 (Re.Plus Re.word)
    -- Re.Opt (Re.Lit "<" -- Re.Star true (Re.none_of ">") -- Re.Lit ">").

(** export \s+ type \s+ ( \w+ ) (?: < [^>]* > )? \s* = *)
Definition type_pattern : Re.regex :=
  Re.Lit "export" -- Re.Plus Re.space -- Re.Lit "type" -- Re.Plus Re.space
    -- Re.Group 1 (Re.Plus Re.word)
    -- Re.Opt (Re.Lit "<" -- Re.Star true (Re.none_of ">") -- Re.Lit ">")
    -- Re.Star true Re.space -- Re.Lit "=".

(** export \s+ ( const | let | var ) \s+ ( \w+ ) (?: \s* : \s* ( [^=\n]+ ) )?
    \s* = *)
Definition var_pattern : Re.regex :=
  Re.Lit "export" -- Re.Plus Re.space
    -- Re.Group 1 (Re.Alt (Re.Lit "const") (Re.Alt (Re.Lit "let")
                                                   (Re.Lit "var")))
    -- Re.Plus Re.space -- Re.Group 2 (Re.Plus Re.word)
    -- Re.Opt (Re.Star true Re.space -- Re.Lit ":" -- Re.Star true Re.space
                 -- Re.Group 3 (Re.Plus (Re.none_of (String "="%char
                                                       (String Py.nl "")))))
    -- Re.Star true Re.space -- Re.Lit "=".

(** export \s+ enum \s+ ( \w+ ) *)
Definition enum_pattern : Re.regex :=
  Re.Lit "export" -- Re.Plus Re.space -- Re.Lit "enum" -- Re.Plus Re.space
    -- Re.Group 1 (Re.Plus Re.word).

(** export \s+ default \s+ *)
Definition default_pattern : Re.regex :=
  Re.Lit "export" -- Re.Plus Re.space -- Re.Lit "default" -- Re.Plus Re.space.

(** export \s+ default \s+ class \s+ ( \w+ ) *)
Definition default_class_pattern : Re.regex :=
  Re.Lit "export" -- Re.Plus Re.space -- Re.Lit "default" -- Re.Plus Re.space
    -- Re.Lit "class" -- Re.Plus Re.space -- Re.Group 1 (Re.Plus Re.word).

(** export \s+ default \s+ (?: async \s+ )? function \s+ ( \w+ ) *)
Definition default_func_pattern : Re.regex :=
  Re.Lit "export" -- Re.Plus Re.space -- Re.Lit "default" -- Re.Plus Re.space
    -- Re.Opt (Re.Lit "async" -- Re.Plus Re.space)
    -- Re.Lit "function" -- Re.Plus Re.space -- Re.Group 1 (Re.Plus Re.word).

(** ( \w+ ) \?? *)
Definition param_pattern : Re.regex :=
  Re.Group 1 (Re.Plus Re.word) -- Re.Opt (Re.Lit "?").

Definition _extract_imports (content : string) : list string :=
  let imports1 :=
    filter (fun module => negb (Py.startswith module ".") = true)
           (map (fun m => group_str m 1) (Re.finditer import_pattern content)) in
  let imports2 :=
    filter (fun module => negb (Py.startswith module ".") = true)
           (map (fun m => group_str m 1) (Re.finditer require_pattern content)) in
  Py.sorted_set (imports1 ++ imports2).

Definition _extract_param_name (param : string) : string :=
  let param := Py.strip param in
  if negb (Py.truthy param) then ""
  else if Py.startswith param "{" || Py.startswith param "["
  then if Py.contains_char ":"%char param
       then Py.strip (hd "" (Py.split ":"%char param))
       else param
  else match Re.re_match param_pattern param with
       | Some m => group_str m 1
       | None => param
       end.

(** The variables of the loop of [_simplify_params]. *)
Record params_state := mk_params_state {
  simplified : list string;
  current : string;
  depth : Z
}.

Definition params_step (st : params_state) (char : ascii) : params_state :=
  if Py.contains_char char "(<{"
  then mk_params_state (simplified st) (current st +:+ String char "")
                       (depth st + 1)
  else if Py.contains_char char ")>}"
  then mk_params_state (simplified st) (current st +:+ String char "")
                       (depth st - 1)
  else if Ascii.eqb char ","%char && (depth st =? 0)
  then mk_params_state (simplified st ++ [_extract_param_name (current st)])
                       "" (depth st)
  else mk_params_state (simplified st) (current st +:+ String char "")
                       (depth st).

Definition _simplify_params (params : string) : string :=
  if negb (Py.truthy (Py.strip params)) then ""
  else
    let st := fold_left params_step (list_ascii_of_string params)
                        (mk_params_state [] "" 0) in
    let names :=
      if Py.truthy (Py.strip (current st))
      then (simplified st ++ [_extract_param_name (current st)])%list
      else simplified st in
    Py.join ", " names.

(** The entry of one match of each pattern. *)
Definition format_func (m : Re.match_obj) : string :=
  let is_async := Py.or_empty (Re.group m 1) in
  let name := group_str m 2 in
  let generics := Py.or_empty (Re.group m 3) in
  let params := _simplify_params (Py.or_empty (Re.group m 4)) in
  let return_type := Py.or_empty (Re.group m 5) in
  if Py.truthy return_type
  then Py.strip (Py.strip is_async +:+ "function " +:+ name +:+ generics
                   +:+ "(" +:+ params +:+ "): " +:+ Py.strip return_type)
  else Py.strip (Py.strip is_async +:+ "function " +:+ name +:+ generics
                   +:+ "(" +:+ params +:+ ")").

Definition format_class (m : Re.match_obj) : string :=
  let name := group_str m 1 in
  match Re.group m 2 with
  | Some extends =>
      if Py.truthy extends then "class " +:+ name +:+ " extends " +:+ extends
      else "class " +:+ name
  | None => "class " +:+ name
  end.

Definition format_interface (m : Re.match_obj) : string :=
  "interface " +:+ group_str m 1.

Definition format_type (m : Re.match_obj) : string :=
  "type " +:+ group_str m 1.

Definition format_var (m : Re.match_obj) : string :=
  let kind := group_str m 1 in
  let name := group_str m 2 in
  match Re.group m 3 with
  | Some type_hint =>
      if Py.truthy type_hint
      then kind +:+ " " +:+ name +:+ ": " +:+ Py.strip type_hint
      else kind +:+ " " +:+ name
  | None => kind +:+ " " +:+ name
  end.

Definition format_enum (m : Re.match_obj) : string :=
  "enum " +:+ group_str m 1.

(** The entry for [export default], when the text has one. *)
Definition default_export (content : string) : list string :=
  match Re.search default_pattern content with
  | Some _ =>
      match Re.search default_class_pattern content with
      | Some default_class => ["default class " +:+ group_str default_class 1]
      | None =>
          match Re.search default_func_pattern content with
          | Some default_func =>
              ["default function " +:+ group_str default_func 1]
          | None => ["default export"]
          end
      end
  | None => []
  end.

(** The seven passes of [_extract_exports], each appending to [exports]. *)
Definition _extract_exports (content : string) : list string :=
  let exports := [] in
  let exports := exports ++ map format_func (Re.finditer func_pattern content) in
  let exports := exports ++ map format_class (Re.finditer class_pattern content) in
  let exports :=
    exports ++ map format_interface (Re.finditer interface_pattern content) in
  let exports := exports ++ map format_type (Re.finditer type_pattern content) in
  let exports := exports ++ map format_var (Re.finditer var_pattern content) in
  let exports := exports ++ map format_enum (Re.finditer enum_pattern content) in
  exports ++ default_export content.

Definition parse (content : string) : FileSignature :=
  let imports := _extract_imports content in
  let exports := _extract_exports content in
  mk_FileSignature exports imports None.

End TypeScriptParser.

(** ** pathlib: [Path(p).suffix] *)

Module Pathlib.

(** The final component of a path, for the paths of files that the
    directory walk yields (they do not end with a slash). *)
Fixpoint name (p : string) : string :=
  match p with
  | EmptyString => EmptyString
  | String c p' =>
      if Py.contains_char "/"%char p' then name p'
      else if Ascii.eqb c "/"%char then p' else p
  end.

(** [s.rfind(c)]: the offset of the last [c] in [s]. *)
Fixpoint rfind (c : ascii) (s : string) : option nat :=
  match s with
  | EmptyString => None
  | String a s' =>
      match rfind c s' with
      | Some i => Some (S i)
      | None => if Ascii.eqb a c then Some O else None
      end
  end.

(** The suffix of the final component: from its last dot on, when that dot
    is neither its first nor its last character. *)
Definition suffix (p : string) : string :=
  let n := name p in
  match rfind "."%char n with
  | Some i =>
      if (0 <? i)%nat && (i <? String.length n - 1)%nat
      then substring i (String.length n - i) n
      else EmptyString
  | None => EmptyString
  end.

End Pathlib.

(** ** parsers/base.py: [BaseParser] and [ParserRegistry] *)

(** A parser: what the abstract base class asks of a subclass. *)
Record BaseParser := mk_BaseParser {
  extensions : list string;
  language_name : string;
  parse : string -> FileSignature
}.

Definition can_parse (self : BaseParser) (file_path : string) : bool :=
  let ext := Py.lower (Pathlib.suffix file_path) in
  bool_decide (ext ∈ extensions self).

Definition TypeScriptParser_instance : BaseParser :=
  mk_BaseParser TypeScriptParser.extensions TypeScriptParser.language_name
                TypeScriptParser.parse.

Definition PythonParser_instance : BaseParser :=
  mk_BaseParser PythonParser.extensions PythonParser.language_name
                PythonParser.parse.

Module ParserRegistry.

(** [register]: the class attribute [_parsers] after the call. *)
Definition register (_parsers : list BaseParser) (parser : BaseParser)
  : list BaseParser :=
  _parsers ++ [parser].

(** [get_parser]: the loop over [_parsers]. *)
Fixpoint get_parser (_parsers : list BaseParser) (file_path : string)
  : option BaseParser :=
  match _parsers with
  | [] => None
  | parser :: others =>
      if can_parse parser file_path then Some parser
      else get_parser others file_path
  end.

(** [clear] *)
Definition clear : list BaseParser := [].

(** The registry index_project.py builds when it is imported. *)
Definition registered : list BaseParser :=
  register (register clear TypeScriptParser_instance) PythonParser_instance.

End ParserRegistry.

(** The file loop of [collect_files] for one directory: the files of
    [filenames] that are not ignored and have a parser. *)
Definition collect_directory (_parsers : list BaseParser)
  (should_ignore : string -> bool) (filenames : list string) : list string :=
  filter (fun file_path =>
            negb (should_ignore file_path) = true
            ∧ is_Some (ParserRegistry.get_parser _parsers file_path))
         filenames.

(** ** utils/meta.py *)

(** The values a record of the metadata holds: [None], a number (the
    rational a finite [float] or an [int] denotes; [==] on numbers compares
    these), or a string. *)
Inductive value : Type :=
| VNone
| VNum (q : Qc)
| VStr (s : string).

#[global] Instance value_eq_dec : EqDecision value.
Proof. solve_decision. Defined.

Definition VInt (n : Z) : value := VNum (Q2Qc (inject_Z n)).

Definition value_of_option (x : option string) : value :=
  match x with
  | Some s => VStr s
  | None => VNone
  end.

(** The result of [os.stat]: the two fields the manager reads. *)
Record stat_result := mk_stat {
  st_mtime : Qc;
  st_size : Z
}.

(** The files on disk: [Path(p).exists()] is [is_Some (fs !! p)]. *)
Abbreviation filesystem := (gmap string stat_result).

(** [IndexMetadata] *)
Record IndexMetadata := mk_IndexMetadata {
  version : string;
  project_type : option string;
  created_at : option string;
  updated_at : option string;
  files : gmap string (gmap string value)
}.

Module MetaManager.

(** [record.get(key)]: [None] when the key is absent. *)
Definition record_get (record : gmap string value) (key : string) : value :=
  default VNone (record !! key).

Definition set_files (data : IndexMetadata)
  (fs' : gmap string (gmap string value)) : IndexMetadata :=
  mk_IndexMetadata (version data) (project_type data) (created_at data)
                   (updated_at data) fs'.

Definition should_reindex (fs : filesystem) (data : IndexMetadata)
  (file_path : string) : bool :=
  match fs !! file_path with
  | None => false
  | Some stat =>
      match files data !! file_path with
      | None => true
      | Some record =>
          if bool_decide (record = ∅) then true
          else if bool_decide (record_get record "mtime" ≠ VNum (st_mtime stat))
                  || bool_decide (record_get record "size" ≠ VInt (st_size stat))
          then true
          else false
      end
  end.

Definition update_file_record (fs : filesystem) (data : IndexMetadata)
  (file_path : string) (index_file_path : string) (checksum : option string)
  : IndexMetadata :=
  match fs !! file_path with
  | None => data
  | Some stat =>
      set_files data
        (<[file_path :=
             <["mtime" := VNum (st_mtime stat)]>
               (<["size" := VInt (st_size stat)]>
                  (<["indexed_in" := VStr index_file_path]>
                     (<["checksum" := value_of_option checksum]> ∅)))]>
           (files data))
  end.

Definition remove_record (data : IndexMetadata) (file_path : string)
  : IndexMetadata :=
  if bool_decide (file_path ∈ dom (files data))
  then set_files data (delete file_path (files data))
  else data.

(** The keys of [files] that are not in [current_files]. *)
Definition get_deleted_files (data : IndexMetadata)
  (current_files : gset string) : list string :=
  filter (fun f => f ∉ current_files) (map fst (map_to_list (files data))).

Definition cleanup_deleted (data : IndexMetadata)
  (deleted_files : list string) : IndexMetadata :=
  fold_left remove_record deleted_files data.

End MetaManager.

(** The fingerprint of a stored record and of a file on disk, as
    [should_reindex] compares them. *)
Definition stored_fingerprint (record : gmap string value) : value * value :=
  (MetaManager.record_get record "mtime", MetaManager.record_get record "size").

Definition current_fingerprint (stat : stat_result) : value * value :=
  (VNum (st_mtime stat), VInt (st_size stat)).

(** A small disk and an empty store, used to run the manager. *)
Definition example_stat : stat_result := mk_stat (Q2Qc 5) 120.

Definition example_fs : filesystem := {[ "src/a.py" := example_stat ]}.

Definition example_data : IndexMetadata :=
  mk_IndexMetadata "1.0" None None None ∅.

(** A store with the records of two files, of which only [src/a.py] is
    still on disk. *)
Definition example_record : gmap string value :=
  <["mtime" := VNum (Q2Qc 5)]>
    (<["size" := VInt 120]>
       (<["indexed_in" := VStr "directories/src.md"]>
          (<["checksum" := VNone]> ∅))).

Definition example_store : IndexMetadata :=
  mk_IndexMetadata "1.0" None None None
    (<["src/a.py" := example_record]> (<["src/old.py" := example_record]> ∅)).

Definition example_current : gset string := {[ "src/a.py" ]}.


(** The lookup the specification words describe: the first registered
    parser whose extension list contains the suffix of the path as it is
    written. *)
Fixpoint resolve_by_suffix (_parsers : list BaseParser) (file_path : string)
  : option BaseParser :=
  match _parsers with
  | [] => None
  | parser :: others =>
      if bool_decide (Pathlib.suffix file_path ∈ extensions parser)
      then Some parser
      else resolve_by_suffix others file_path
  end.

(** The sections of a report, as the specification words describe them:
    the runs of lines between two separator lines. *)
Fixpoint sections_go (cur : list string) (lines : list string)
  : list (list string) :=
  match lines with
  | [] => [cur]
  | line :: rest =>
      if String.eqb line SECTION_SEPARATOR then cur :: sections_go [] rest
      else sections_go (cur ++ [line]) rest
  end.

Definition sections (content : string) : list (list string) :=
  sections_go [] (Py.split Py.nl content).

(** [is_infix a b]: the lines [a] occur in [b], one after the other. *)
Fixpoint is_prefix_of (a b : list string) : bool :=
  match a, b with
  | [], _ => true
  | x :: a', y :: b' => String.eqb x y && is_prefix_of a' b'
  | _ :: _, [] => false
  end.

Fixpoint is_infix (a b : list string) : bool :=
  is_prefix_of a b
  || match b with
     | [] => false
     | _ :: b' => is_infix a b'
     end.

(** No section is split: the lines of every section lie in one chunk. *)
Definition no_section_split (content : string) (chunk_texts : list string)
  : bool :=
  forallb (fun section =>
             existsb (fun chunk => is_infix section (Py.split Py.nl chunk))
                     chunk_texts)
          (sections content).

(** A report of two sections: one line of 20000 characters, the separator,
    and two lines of 10000 characters each. *)
Definition two_section_report : string :=
  Py.replicate_char (Z.to_nat 20000) "a"%char +:+ String Py.nl ""
    +:+ SECTION_SEPARATOR +:+ String Py.nl ""
    +:+ Py.replicate_char (Z.to_nat 10000) "b"%char +:+ String Py.nl ""
    +:+ Py.replicate_char (Z.to_nat 10000) "c"%char.

(** A report whose first line has 33000 characters. *)
Definition oversized_line_report : string :=
  Py.replicate_char (Z.to_nat 33000) "x"%char +:+ String Py.nl "" +:+ "tail".

(** What the splitting loop counts in [current_size]: every line and the
    line break after it. *)
Fixpoint lines_size (lines : list string) : Z :=
  match lines with
  | [] => 0
  | line :: rest => (Py.len line + 1) + lines_size rest
  end.

(** A group of lines makes a chunk within the limit, or is one line that
    is itself longer than the limit. *)
Definition group_ok (g : list string) : Prop :=
  Py.len (Py.join (String Py.nl "") g) <= MAX_CHARS_PER_FILE
  ∨ ∃ line, g = [line] ∧ MAX_CHARS_PER_FILE < Py.len line.

(** The invariant of the splitting loop after the lines [processed]: the
    chunks closed so far are the groups [groups], joined. *)
Record split_inv (processed : list string) (st : split_state)
  (groups : list (list string)) : Prop := mk_split_inv {
  inv_chunks : chunks st = map (Py.join (String Py.nl "")) groups;
  inv_nonempty : Forall (λ g, g ≠ []) groups;
  inv_concat : concat groups ++ current_chunk st = processed;
  inv_size : current_size st = lines_size (current_chunk st);
  inv_ok : Forall group_ok groups;
  inv_current : lines_size (current_chunk st) <= MAX_CHARS_PER_FILE
                ∨ (length (current_chunk st) <= 1)%nat
}.

(** Group [n] of the pattern is a repeated class [p] that every match goes
    through and that nothing after it captures again. *)
Fixpoint class_group (n : nat) (p : ascii -> bool) (r : Re.regex) : Prop :=
  match r with
  | Re.Seq r1 r2 =>
      (class_group n p r1 ∧ Re.no_group n r2 = true) ∨ class_group n p r2
  | Re.Group m r1 => m = n ∧ r1 = Re.Plus (Re.Chr p)
  | _ => False
  end.

(** The groups each parser reads as strings without a test for [None],
    pattern by pattern. *)
Definition python_str_groups : list (Re.regex * list nat) :=
  [ (PythonParser.import_pattern, [1%nat]);
    (PythonParser.from_pattern, [1%nat]);
    (PythonParser.class_pattern, [1%nat; 2%nat]);
    (PythonParser.func_pattern, [1%nat; 3%nat; 4%nat]);
    (PythonParser.word_pattern, [1%nat]) ].

Definition typescript_str_groups : list (Re.regex * list nat) :=
  [ (TypeScriptParser.import_pattern, [1%nat]);
    (TypeScriptParser.require_pattern, [1%nat]);
    (TypeScriptParser.func_pattern, [2%nat; 4%nat]);
    (TypeScriptParser.class_pattern, [1%nat]);
    (TypeScriptParser.interface_pattern, [1%nat]);
    (TypeScriptParser.type_pattern, [1%nat]);
    (TypeScriptParser.var_pattern, [1%nat; 2%nat]);
    (TypeScriptParser.enum_pattern, [1%nat]);
    (TypeScriptParser.default_class_pattern, [1%nat]);
    (TypeScriptParser.default_func_pattern, [1%nat]);
    (TypeScriptParser.param_pattern, [1%nat]) ].

(** Where an entry of the Python exports comes from: a class line, or a
    [def] line whose name the loop does not skip. *)
Definition python_entry_origin (e : string) : Prop :=
  (∃ tail, e = "class " +:+ tail)
  ∨ (∃ line m,
       Re.re_match PythonParser.func_pattern line = Some m
       ∧ PythonParser.is_private (group_str m 3) = false
       ∧ (e = PythonParser.format_def m
          ∨ e = "  " +:+ PythonParser.format_def m)).

(** Sample sources. *)
Definition private_class_source : string :=
  "class _Hidden:" +:+ String Py.nl ""
  +:+ "    def __getitem__(self, key):" +:+ String Py.nl ""
  +:+ "        return key" +:+ String Py.nl "".

Definition private_def_line : string := "    def _helper(self, x):".

Definition private_def_match : Re.match_obj :=
  default (Re.mk_match 0 0 (fun _ => None))
          (Re.re_match PythonParser.func_pattern private_def_line).

Definition private_def_source : string :=
  "class Service:" +:+ String Py.nl ""
  +:+ "    def run(self):" +:+ String Py.nl ""
  +:+ private_def_line +:+ String Py.nl "".

(** Not Python: the parenthesis opened on the second line is never
    closed. *)
Definition unbalanced_python_source : string :=
  "def ok(a, b):" +:+ String Py.nl ""
  +:+ "    return (a +" +:+ String Py.nl "".

(** Not TypeScript: the body of the function is never closed and the
    second line is no statement. *)
Definition unbalanced_typescript_source : string :=
  "export function ok(a) {" +:+ String Py.nl ""
  +:+ "  return ((a +" +:+ String Py.nl "".

(** A class declared before a function. *)
Definition class_then_function_source : string :=
  "export class A {}" +:+ String Py.nl ""
  +:+ "export function f() {}" +:+ String Py.nl "".

(** ** Further definitions: the chunk writer *)

(** The name of part [i] of a chunked index. *)
Definition part_name (base_name : string) (i : Z) : string :=
  base_name +:+ "_part" +:+ Py.str_of_int i +:+ ".md".

(** Between two consecutive groups of lines the loop had to close the
    chunk: the first line of the second group, counted with its line
    break, did not fit after the lines of the first. *)
Fixpoint boundaries_forced (groups : list (list string)) : Prop :=
  match groups with
  | g1 :: rest =>
      match rest with
      | (line :: _) :: _ =>
          MAX_CHARS_PER_FILE < lines_size g1 + (Py.len line + 1)
      | _ => True
      end
      ∧ boundaries_forced rest
  | [] => True
  end.

(** The invariant of the splitting loop, with the closed chunks and the
    current one seen together. *)
Definition split_inv_forced (processed : list string) (st : split_state)
  (groups : list (list string)) : Prop :=
  split_inv processed st groups
  ∧ boundaries_forced (groups ++ [current_chunk st])
  ∧ (current_chunk st = [] → groups = []).

(** ** Further definitions: utils/meta.py and the metadata loops of [main] *)

#[global] Instance value_countable : Countable value.
Proof.
  refine (inj_countable'
            (λ v, match v with
                  | VNone => inl ()
                  | VNum q => inr (inl q)
                  | VStr s => inr (inr s)
                  end)
            (λ x, match x with
                  | inl _ => VNone
                  | inr (inl q) => VNum q
                  | inr (inr s) => VStr s
                  end) _).
  by intros [].
Defined.

(** [os.sep] on the systems modelled here. *)
Definition os_sep : string := "/".

(** [s.endswith(c)] for a one-character string [c]. *)
Fixpoint endswith_char (s : string) (c : ascii) : bool :=
  match s with
  | EmptyString => false
  | String a EmptyString => Ascii.eqb a c
  | String _ s' => endswith_char s' c
  end.

(** Truthiness of a stored value: [None], [0] and the empty string are
    false. *)
Definition value_truthy (v : value) : bool :=
  match v with
  | VNone => false
  | VNum q => negb (bool_decide (q = Q2Qc 0))
  | VStr s => Py.truthy s
  end.

Module MetaQueries.

(** [directory] with the separator added when it does not end with it. *)
Definition with_sep (directory : string) : string :=
  if endswith_char directory "/"%char then directory
  else directory +:+ os_sep.

(** [get_files_in_directory]: the keys of [files] that start with the
    directory and the separator. *)
Definition get_files_in_directory (data : IndexMetadata) (directory : string)
  : list string :=
  let directory := with_sep directory in
  filter (fun f => Py.startswith f directory = true)
         (map fst (map_to_list (files data))).

(** One iteration of the loop of [get_affected_index_files]. *)
Definition affected_step (data : IndexMetadata) (affected : gset value)
  (file_path : string) : gset value :=
  match files data !! file_path with
  | Some record =>
      if negb (bool_decide (record = ∅))
         && value_truthy (MetaManager.record_get record "indexed_in")
      then affected ∪ {[ MetaManager.record_get record "indexed_in" ]}
      else affected
  | None => affected
  end.

Definition get_affected_index_files (data : IndexMetadata)
  (file_paths : list string) : gset value :=
  fold_left (affected_step data) file_paths ∅.

(** [set_project_type] *)
Definition set_project_type (data : IndexMetadata) (project_type : string)
  : IndexMetadata :=
  mk_IndexMetadata (version data) (Some project_type) (created_at data)
                   (updated_at data) (files data).

End MetaQueries.

(** The test of [main] on a directory in an incremental run: some file of
    the directory needs to be indexed again. *)
Definition needs_update (fs : filesystem) (data : IndexMetadata)
  (files_of_dir : list string) : bool :=
  existsb (MetaManager.should_reindex fs data) files_of_dir.

(** [main] skips a directory when it runs with [--update], without
    [--force], and no file of the directory needs an update. *)
Definition directory_skipped (update force : bool) (fs : filesystem)
  (data : IndexMetadata) (files_of_dir : list string) : bool :=
  update && negb force && negb (needs_update fs data files_of_dir).

(** The two nested loops of [main] that record a directory: every file is
    recorded with every written file in turn. *)
Definition record_directory (fs : filesystem) (data : IndexMetadata)
  (files_of_dir : list string) (written : list string) : IndexMetadata :=
  fold_left
    (fun data file_path =>
       fold_left
         (fun data written_file =>
            MetaManager.update_file_record fs data file_path written_file None)
         written data)
    files_of_dir data.

(** The record that [update_file_record] stores for a file. *)
Definition new_record (stat : stat_result) (index_file_path : string)
  (checksum : option string) : gmap string value :=
  <["mtime" := VNum (st_mtime stat)]>
    (<["size" := VInt (st_size stat)]>
       (<["indexed_in" := VStr index_file_path]>
          (<["checksum" := value_of_option checksum]> ∅))).

(** ** Further definitions: parsers/base.py *)

(** [ParserRegistry.supported_extensions]: the extensions of all the
    registered parsers, each once (the order of [list(set(...))] is not
    modelled). *)
Definition supported_extensions (_parsers : list BaseParser) : list string :=
  remove_dups (flat_map extensions _parsers).

(** ** Further definitions: the parsers *)

(** An item of a simplified Python parameter list: a name, or a starred
    parameter without its annotation. *)
Definition param_name_ok (name : string) : Prop :=
  name ≠ ""
  ∧ (Re.all_chars Py.is_word name = true
     ∨ (Py.startswith name "*" = true
        ∧ Py.contains_char ":"%char name = false)).

(** A text of one line: it holds no line break. *)
Definition one_line (s : string) : Prop := Py.contains_char Py.nl s = false.

(** The layout of the Python exports: an indented entry (a method) only
    comes after the entry of a class, with no top-level function entry in
    between.  [inside] tells whether a class entry is open. *)
Fixpoint grouped (inside : bool) (entries : list string) : bool :=
  match entries with
  | [] => true
  | e :: rest =>
      if Py.startswith e "class " then grouped true rest
      else if Py.startswith e "  " then inside && grouped true rest
      else grouped false rest
  end.

(** Whether a class entry is open after the entries. *)
Fixpoint inside_after (inside : bool) (entries : list string) : bool :=
  match entries with
  | [] => inside
  | e :: rest =>
      if Py.startswith e "class " then inside_after true rest
      else if Py.startswith e "  " then inside_after true rest
      else inside_after false rest
  end.

(** ** Further definitions: pathlib paths and utils/ignore.py *)

(** A pure POSIX path: whether it starts at the root, and its parts. *)
Record pure_path := mk_path {
  absolute : bool;
  parts : list string
}.

Module PurePath.

(** [p.name]: the last part, or the empty string. *)
Definition name (p : pure_path) : string := default "" (last (parts p)).

(** [p / parts]: the path extended with some parts. *)
Definition joinpath (p : pure_path) (more : list string) : pure_path :=
  mk_path (absolute p) (parts p ++ more).

Fixpoint strip_parts (prefix l : list string) : option (list string) :=
  match prefix with
  | [] => Some l
  | x :: prefix' =>
      match l with
      | y :: l' => if String.eqb x y then strip_parts prefix' l' else None
      | [] => None
      end
  end.

(** [p.relative_to(other)]: [None] stands for the [ValueError]. *)
Definition relative_to (p other : pure_path) : option pure_path :=
  if Bool.eqb (absolute p) (absolute other)
  then match strip_parts (parts other) (parts p) with
       | Some rest => Some (mk_path false rest)
       | None => None
       end
  else None.

(** [str(p)] *)
Definition str (p : pure_path) : string :=
  match absolute p, parts p with
  | false, [] => "."
  | false, ps => Py.join "/" ps
  | true, ps => "/" +:+ Py.join "/" ps
  end.

(** The names of [p.parents], from the nearest parent to the farthest:
    the path without its last part, without its last two parts, and so on
    down to the path without any part, whose name is empty. *)
Fixpoint parent_names_rev (rev_parts : list string) : list string :=
  match rev_parts with
  | [] => []
  | _ :: rest => default "" (head rest) :: parent_names_rev rest
  end.

Definition parent_names (p : pure_path) : list string :=
  parent_names_rev (rev (parts p)).

End PurePath.

Module IgnorePatterns.

Definition DEFAULT_PATTERNS : list string :=
  [ ".git"; ".git/**"; "node_modules"; "node_modules/**"; "__pycache__";
    "__pycache__/**"; "*.pyc"; ".pytest_cache"; ".pytest_cache/**"; "dist";
    "dist/**"; "build"; "build/**"; "coverage"; "coverage/**"; ".next";
    ".next/**"; ".nuxt"; ".nuxt/**"; "venv"; "venv/**"; ".venv"; ".venv/**";
    "env"; "env/**"; ".env"; "*.log"; ".DS_Store"; "Thumbs.db"; "*.swp";
    "*.swo"; "*~"; ".idea"; ".idea/**"; ".vscode"; ".vscode/**";
    "project-index"; "project-index/**" ].

(** [pattern.rstrip("/")] *)
Fixpoint rstrip_slash (s : string) : string :=
  match s with
  | EmptyString => EmptyString
  | String c s' =>
      match rstrip_slash s' with
      | EmptyString =>
          if Ascii.eqb c "/"%char then EmptyString else String c EmptyString
      | r => String c r
      end
  end.

(** [pattern[1:]] *)
Definition tail (s : string) : string :=
  match s with
  | EmptyString => EmptyString
  | String _ s' => s'
  end.

(** [_load_gitignore]: the patterns after the lines of the file have been
    read.  [text] is the text the file object gives, line after line. *)
Definition _load_gitignore (patterns : list string) (text : string)
  : list string :=
  patterns
  ++ flat_map (fun line =>
                 let line := Py.strip line in
                 if Py.truthy line && negb (Py.startswith line "#")
                 then if Py.startswith line "!" then [] else [line]
                 else [])
              (Py.split Py.nl text).

(** [__init__]: the patterns of a new instance.  [gitignore] and
    [indexignore] are the texts of the two files, [None] when the file
    does not exist or cannot be opened. *)
Definition init_patterns (gitignore indexignore : option string)
  (custom_patterns : option (list string)) : list string :=
  let patterns := DEFAULT_PATTERNS in
  let patterns :=
    match gitignore with
    | Some text => _load_gitignore patterns text
    | None => patterns
    end in
  let patterns :=
    match indexignore with
    | Some text => _load_gitignore patterns text
    | None => patterns
    end in
  match custom_patterns with
  | Some custom => if Py.nonempty custom then patterns ++ custom else patterns
  | None => patterns
  end.

Section ShouldIgnore.

(** [fnmatch.fnmatch(name, pattern)], of the standard library. *)
Variable fnmatch : string -> string -> bool.

(** The body of the loop of [should_ignore] for one pattern: whether it
    returns [True]. *)
Definition pattern_matches (rel_path : pure_path) (rel_str name : string)
  (pattern : string) : bool :=
  let pattern := rstrip_slash pattern in
  (if Py.contains_char "/"%char pattern
   then fnmatch rel_str pattern
        || (Py.startswith pattern "/" && fnmatch rel_str (tail pattern))
   else fnmatch name pattern)
  || existsb (fun parent_name => fnmatch parent_name pattern)
             (PurePath.parent_names rel_path).

(** The loop over the patterns. *)
Fixpoint matches_any (rel_path : pure_path) (rel_str name : string)
  (patterns : list string) : bool :=
  match patterns with
  | [] => false
  | pattern :: rest =>
      if pattern_matches rel_path rel_str name pattern then true
      else matches_any rel_path rel_str name rest
  end.

Definition should_ignore (patterns : list string) (root_dir : pure_path)
  (path : pure_path) : bool :=
  let rel_path :=
    match PurePath.relative_to path root_dir with
    | Some rel => rel
    | None => path
    end in
  let rel_str := PurePath.str rel_path in
  let name := PurePath.name path in
  matches_any rel_path rel_str name patterns.

Definition filter_paths (patterns : list string) (root_dir : pure_path)
  (paths : list pure_path) : list pure_path :=
  filter (fun p => should_ignore patterns root_dir p = false) paths.

End ShouldIgnore.

End IgnorePatterns.

(** A matcher for the examples: a pattern matches a name when they are the
    same text, or when the pattern is a star followed by the end of the
    name. *)
Definition example_fnmatch (name pattern : string) : bool :=
  String.eqb name pattern
  || match pattern with
     | String "*" suffix =>
         (String.length suffix <=? String.length name)%nat
         && String.eqb
              (substring (String.length name - String.length suffix)
                         (String.length suffix) name) suffix
     | _ => false
     end.

Definition example_root : pure_path := mk_path true ["home"; "project"].


(** ** Further definitions: the index file of a directory and the project
    type (index_project.py) *)

(** [s.replace(old, new)] for one-character strings [old] and [new]. *)
Fixpoint replace_char (old new : ascii) (s : string) : string :=
  match s with
  | EmptyString => EmptyString
  | String c s' =>
      String (if Ascii.eqb c old then new else c) (replace_char old new s')
  end.

(** [main]: the base name of the index file of the directory [rel_dir];
    the first replacement is the one of [os.sep]. *)
Definition safe_name (rel_dir : string) : string :=
  if Py.truthy rel_dir
  then replace_char "/" "_" (replace_char "/" "_" rel_dir)
  else "root".

Module ProjectType.

(** The configuration files that show a project type, in the order of the
    dictionary, each with its type and its technologies. *)
Definition indicators : list (string * (string * list string)) :=
  [ ("package.json", ("node", ["Node.js"]));
    ("tsconfig.json", ("typescript", ["TypeScript"]));
    ("pyproject.toml", ("python", ["Python"]));
    ("setup.py", ("python", ["Python"]));
    ("requirements.txt", ("python", ["Python"]));
    ("Cargo.toml", ("rust", ["Rust"]));
    ("go.mod", ("go", ["Go"]));
    ("pom.xml", ("java", ["Java"; "Maven"]));
    ("build.gradle", ("java", ["Java"; "Gradle"]));
    ("composer.json", ("php", ["PHP"]));
    ("Gemfile", ("ruby", ["Ruby"])) ].

(** A value that [json.load] gives: an object with its members (a key
    occurs once), or a value of another kind. *)
#[warnings="-register-all"] Inductive json :=
| JObject (members : list (string * json))
| JOther.

Fixpoint member (key : string) (members : list (string * json))
  : option json :=
  match members with
  | [] => None
  | (k, v) :: rest => if String.eqb k key then Some v else member key rest
  end.

(** [pkg.get(key, {})]; [None] stands for the [AttributeError] of a value
    that is not an object. *)
Definition get_or_empty (pkg : json) (key : string) : option json :=
  match pkg with
  | JObject members => Some (default (JObject []) (member key members))
  | JOther => None
  end.

(** The keys that [**value] unpacks; [None] stands for the [TypeError] of a
    value that is not a mapping. *)
Definition keys (value : json) : option (gset string) :=
  match value with
  | JObject members => Some (list_to_set (map fst members))
  | JOther => None
  end.

(** The keys of [deps]. *)
Definition dependencies (pkg : json) : option (gset string) :=
  match get_or_empty pkg "dependencies", get_or_empty pkg "devDependencies" with
  | Some d, Some dev =>
      match keys d, keys dev with
      | Some kd, Some kdev => Some (kd ∪ kdev)
      | _, _ => None
      end
  | _, _ => None
  end.

(** The frameworks appended to [tech_stack], in the order of the tests. *)
Definition frameworks (deps : gset string) : list string :=
  (if bool_decide ("react" ∈ deps) then ["React"] else [])
  ++ (if bool_decide ("vue" ∈ deps) then ["Vue"] else [])
  ++ (if bool_decide ("angular" ∈ deps) || bool_decide ("@angular/core" ∈ deps)
      then ["Angular"] else [])
  ++ (if bool_decide ("next" ∈ deps) then ["Next.js"] else [])
  ++ (if bool_decide ("express" ∈ deps) then ["Express"] else [])
  ++ (if bool_decide ("fastify" ∈ deps) then ["Fastify"] else []).

(** One round of the loop over the indicators: the state is
    [(detected_type, tech_stack)]. *)
Definition indicator_step (file_exists : string -> bool)
  (st : string * list string) (indicator : string * (string * list string))
  : string * list string :=
  let '(filename, (proj_type, stack)) := indicator in
  if file_exists filename then (proj_type, snd st ++ stack) else st.

(** [detect_project_type]: [file_exists] tells which files the root
    directory has, [package_json] is what [json.load] gives for
    [package.json], [None] when the file cannot be read or decoded (the
    errors that are caught).  The technologies come back as
    [list(set(tech_stack))], in no order that the code fixes: a set.  The
    result is [None] when an exception leaves the function. *)
Definition detect_project_type (file_exists : string -> bool)
  (package_json : option json) : option (string * gset string) :=
  let '(detected_type, tech_stack) :=
    fold_left (indicator_step file_exists) indicators ("unknown", []) in
  if file_exists "package.json"
  then match package_json with
       | Some pkg =>
           match dependencies pkg with
           | Some deps =>
               Some (detected_type,
                     list_to_set (tech_stack ++ frameworks deps))
           | None => None
           end
       | None => Some (detected_type, list_to_set tech_stack)
       end
  else Some (detected_type, list_to_set tech_stack).

End ProjectType.

(** The indicators whose file exists. *)
Definition present (file_exists : string -> bool)
  (inds : list (string * (string * list string)))
  : list (string * (string * list string)) :=
  List.filter (fun indicator => file_exists (fst indicator)) inds.

(** A Python project with a front end: [package.json] and
    [requirements.txt]. *)
Definition example_exists (filename : string) : bool :=
  String.eqb filename "package.json" || String.eqb filename "requirements.txt".

Definition example_package : ProjectType.json :=
  ProjectType.JObject
    [("name", ProjectType.JOther);
     ("dependencies",
      ProjectType.JObject [("react", ProjectType.JOther);
                           ("express", ProjectType.JOther)])].


(** ** Further definitions: the entries of the TypeScript exports *)

(** Whatever group [n] of the pattern captures has the property [P]. *)
Fixpoint group_inv (n : nat) (P : string -> Prop) (r : Re.regex) : Prop :=
  match r with
  | Re.Seq r1 r2 | Re.Alt r1 r2 => group_inv n P r1 ∧ group_inv n P r2
  | Re.Star _ r1 => group_inv n P r1
  | Re.Group k r1 =>
      (k = n -> forall st st', Re.matches r1 st st' -> P (Re.consumed st st'))
      ∧ group_inv n P r1
  | _ => True
  end.

(** The words an entry of the TypeScript exports starts with. *)
Definition export_keywords : list string :=
  [ "function "; "asyncfunction "; "class "; "interface "; "type "; "const ";
    "let "; "var "; "enum "; "default " ].

Definition keyword_led (entry : string) : bool :=
  existsb (Py.startswith entry) export_keywords.

Definition sample_async_ts : string :=
  "export async function load(id: string): Promise<Item> {" +:+ String Py.nl
  "  return fetchItem(id);" +:+ String Py.nl "}".

(** * Properties *)

(** ** The metadata manager *)

Section Meta.

Implicit Types (fs : filesystem) (data : IndexMetadata) (path : string).

Lemma VInt_inj (a b : Z) : VInt a = VInt b → a = b.
Proof.
  unfold VInt. intros H. injection H as H.
  apply Qred_eq_iff in H. unfold Qeq in H. simpl in H. lia.
Qed.

Lemma current_fingerprint_inj (s1 s2 : stat_result) :
  current_fingerprint s1 = current_fingerprint s2 ↔
  st_mtime s1 = st_mtime s2 ∧ st_size s1 = st_size s2.
Proof.
  unfold current_fingerprint. split.
  - intros H. pose proof (f_equal fst H) as Hm.
    pose proof (f_equal snd H) as Hs. simpl in Hm, Hs.
    split; [congruence | by apply VInt_inj].
  - intros [-> ->]. done.
Qed.

Lemma fingerprint_differs_iff (record : gmap string value) (stat : stat_result) :
  stored_fingerprint record ≠ current_fingerprint stat ↔
  MetaManager.record_get record "mtime" ≠ VNum (st_mtime stat)
  ∨ MetaManager.record_get record "size" ≠ VInt (st_size stat).
Proof.
  unfold stored_fingerprint, current_fingerprint. split.
  - intros H.
    destruct (decide (MetaManager.record_get record "mtime" = VNum (st_mtime stat)))
      as [Hm|Hm]; [|by left].
    right. intros Hs. apply H. by rewrite Hm, Hs.
  - intros [H|H] Heq; [apply H; exact (f_equal fst Heq)
                       | apply H; exact (f_equal snd Heq)].
Qed.

Lemma empty_record_differs (stat : stat_result) :
  stored_fingerprint ∅ ≠ current_fingerprint stat.
Proof. unfold stored_fingerprint, current_fingerprint. discriminate. Qed.

Lemma files_remove_record data path :
  files (MetaManager.remove_record data path) = delete path (files data).
Proof.
  unfold MetaManager.remove_record. case_bool_decide as Hin; [done|].
  symmetry. apply delete_id. by apply not_elem_of_dom.
Qed.

Lemma files_cleanup_deleted (l : list string) data path :
  files (MetaManager.cleanup_deleted data l) !! path =
  if bool_decide (path ∈ l) then None else files data !! path.
Proof.
  unfold MetaManager.cleanup_deleted. revert data.
  induction l as [|p l IH]; intros data; simpl; [done|].
  rewrite IH, files_remove_record.
  destruct (decide (path = p)) as [->|Hne].
  - rewrite lookup_delete_eq. rewrite (bool_decide_eq_true_2 (p ∈ p :: l));
      [by case_bool_decide | set_solver].
  - rewrite lookup_delete_ne by done.
    destruct (decide (path ∈ l)) as [Hl|Hl].
    + rewrite !bool_decide_eq_true_2; [done | by right | done].
    + rewrite !bool_decide_eq_false_2; [done | | done].
      intros [?|?]%elem_of_cons; done.
Qed.

Lemma cleanup_deleted_other_fields (l : list string) data :
  version (MetaManager.cleanup_deleted data l) = version data
  ∧ project_type (MetaManager.cleanup_deleted data l) = project_type data
  ∧ created_at (MetaManager.cleanup_deleted data l) = created_at data
  ∧ updated_at (MetaManager.cleanup_deleted data l) = updated_at data.
Proof.
  unfold MetaManager.cleanup_deleted. revert data.
  induction l as [|p l IH]; intros data; simpl; [done|].
  destruct (IH (MetaManager.remove_record data p)) as (-> & -> & -> & ->).
  unfold MetaManager.remove_record. by case_bool_decide.
Qed.

Lemma elem_of_get_deleted_files data (current : gset string) path :
  path ∈ MetaManager.get_deleted_files data current ↔
  is_Some (files data !! path) ∧ path ∉ current.
Proof.
  unfold MetaManager.get_deleted_files.
  rewrite list_elem_of_filter, list_elem_of_fmap.
  split.
  - intros [Hn [[k v] [-> Hin]]]. apply elem_of_map_to_list in Hin.
    simpl in *. eauto.
  - intros [[v Hv] Hn]. split; [done|]. exists (path, v). split; [done|].
    by apply elem_of_map_to_list.
Qed.

Lemma should_reindex_true fs data path :
  MetaManager.should_reindex fs data path = true ↔
  ∃ stat, fs !! path = Some stat ∧
    (files data !! path = None
     ∨ ∃ record, files data !! path = Some record
                 ∧ stored_fingerprint record ≠ current_fingerprint stat).
Proof.
  unfold MetaManager.should_reindex.
  destruct (fs !! path) as [stat|] eqn:Hfs.
  - destruct (files data !! path) as [record|] eqn:Hrec.
    + case_bool_decide as Hempty.
      { subst record. split; [|done]. intros _. exists stat. split; [done|].
        right. exists ∅. split; [done | apply empty_record_differs]. }
      split.
      * intros H. exists stat. split; [done|]. right. exists record.
        split; [done|]. apply fingerprint_differs_iff.
        destruct (bool_decide (MetaManager.record_get record "mtime"
                               ≠ VNum (st_mtime stat))) eqn:Hm.
        -- left. by apply bool_decide_eq_true in Hm.
        -- simpl in H.
           destruct (bool_decide (MetaManager.record_get record "size"
                                  ≠ VInt (st_size stat))) eqn:Hs;
             [|discriminate].
           right. by apply bool_decide_eq_true in Hs.
      * intros (stat' & Hst & [Hnone | (record' & Hsome & Hdiff)]);
          [discriminate|].
        injection Hst as <-. injection Hsome as <-.
        apply fingerprint_differs_iff in Hdiff as [Hd|Hd].
        -- by rewrite (bool_decide_eq_true_2 _ Hd).
        -- rewrite (bool_decide_eq_true_2 _ Hd). by rewrite orb_true_r.
    + split; [|done]. intros _. exists stat. split; [done | by left].
  - split; [discriminate|]. intros (stat & Hst & _). discriminate.
Qed.

(** C3: [should_reindex] is true exactly when the file exists on disk and
    either no record is stored for the path or the stored fingerprint
    (mtime, size) differs from the current one; it is false when the file
    does not exist, whatever is stored. *)
Theorem should_reindex_iff fs data path :
  (MetaManager.should_reindex fs data path = true ↔
   ∃ stat, fs !! path = Some stat ∧
     (files data !! path = None
      ∨ ∃ record, files data !! path = Some record
                  ∧ stored_fingerprint record ≠ current_fingerprint stat))
  ∧ (fs !! path = None → MetaManager.should_reindex fs data path = false).
Proof.
  split; [apply should_reindex_true|].
  intros Hgone. unfold MetaManager.should_reindex. by rewrite Hgone.
Qed.

(** C4: after [update_file_record] on an existing file, [should_reindex]
    is false for as long as the fingerprint of the file on disk is the one
    recorded, and true again once the modification time or the size of the
    file is another one. *)
Theorem update_then_should_reindex fs data path (artifact : string)
  (checksum : option string) (stat : stat_result) :
  fs !! path = Some stat →
  let data' := MetaManager.update_file_record fs data path artifact checksum in
  (∀ fs' stat', fs' !! path = Some stat' →
     st_mtime stat' = st_mtime stat → st_size stat' = st_size stat →
     MetaManager.should_reindex fs' data' path = false)
  ∧ (∀ fs' stat', fs' !! path = Some stat' →
       st_mtime stat' ≠ st_mtime stat ∨ st_size stat' ≠ st_size stat →
       MetaManager.should_reindex fs' data' path = true).
Proof.
  intros Hfs data'. subst data'.
  unfold MetaManager.update_file_record. rewrite Hfs.
  split; intros fs' stat' Hfs'.
  - intros Hm Hs. unfold MetaManager.should_reindex. rewrite Hfs'. simpl.
    rewrite lookup_insert_eq.
    rewrite bool_decide_eq_false_2
      by (intros Hempty; apply (f_equal (λ m, m !! "mtime")) in Hempty;
          by rewrite lookup_insert_eq in Hempty).
    unfold MetaManager.record_get.
    rewrite lookup_insert_eq, lookup_insert_ne by done.
    rewrite lookup_insert_eq. simpl. rewrite Hm, Hs.
    rewrite !bool_decide_eq_false_2 by (intros H; by apply H). done.
  - intros Hdiff. apply should_reindex_true. exists stat'. split; [done|].
    right. eexists. simpl. rewrite lookup_insert_eq. split; [done|].
    apply fingerprint_differs_iff. unfold MetaManager.record_get.
    rewrite lookup_insert_eq, lookup_insert_ne by done.
    rewrite lookup_insert_eq. simpl.
    destruct Hdiff as [Hd|Hd]; [left | right]; intros Heq; apply Hd.
    + congruence.
    + symmetry. by apply VInt_inj.
Qed.

(** A file of 120 bytes last modified at time 5 is recorded; it is then
    seen unchanged, and seen again with 121 bytes. *)
Lemma update_then_should_reindex_witness :
  MetaManager.should_reindex example_fs
    (MetaManager.update_file_record example_fs example_data "src/a.py"
       "directories/src.md" None) "src/a.py" = false
  ∧ MetaManager.should_reindex {[ "src/a.py" := mk_stat (Q2Qc 5) 121 ]}
      (MetaManager.update_file_record example_fs example_data "src/a.py"
         "directories/src.md" None) "src/a.py" = true.
Proof.
  destruct (update_then_should_reindex example_fs example_data "src/a.py"
              "directories/src.md" None example_stat eq_refl)
    as [Hsame Hchanged].
  split.
  - apply (Hsame example_fs example_stat); reflexivity.
  - apply (Hchanged _ (mk_stat (Q2Qc 5) 121)); [reflexivity|].
    right. simpl. lia.
Defined.

(** C8: [get_deleted_files] returns exactly the recorded paths that are not
    in the current set, each once; after [cleanup_deleted] on that list no
    record is left for any of them, the records of the other paths are the
    ones stored before, and the rest of the metadata is unchanged.  (The
    records of [files] are all that this manager stores for a path.) *)
Theorem deleted_files_cleanup data (current : gset string) :
  let deleted := MetaManager.get_deleted_files data current in
  let data' := MetaManager.cleanup_deleted data deleted in
  (∀ path, path ∈ deleted ↔ is_Some (files data !! path) ∧ path ∉ current)
  ∧ NoDup deleted
  ∧ (∀ path, path ∈ deleted → files data' !! path = None)
  ∧ (∀ path, path ∉ deleted → files data' !! path = files data !! path)
  ∧ (∀ path, is_Some (files data' !! path) → path ∈ current)
  ∧ MetaManager.get_deleted_files data' current = []
  ∧ version data' = version data ∧ project_type data' = project_type data
  ∧ created_at data' = created_at data ∧ updated_at data' = updated_at data.
Proof.
  intros deleted data'.
  assert (Hin : ∀ path, path ∈ deleted
                        ↔ is_Some (files data !! path) ∧ path ∉ current)
    by (intros path; apply elem_of_get_deleted_files).
  assert (Hlookup : ∀ path, files data' !! path =
                            if bool_decide (path ∈ deleted) then None
                            else files data !! path)
    by (intros path; apply files_cleanup_deleted).
  assert (Hleft : ∀ path, is_Some (files data' !! path) → path ∈ current).
  { intros path. rewrite Hlookup. case_bool_decide as Hd.
    - by intros [? ?].
    - intros Hsome. destruct (decide (path ∈ current)) as [|Hn]; [done|].
      exfalso. apply Hd, Hin. done. }
  split; [done|]. split.
  { unfold deleted, MetaManager.get_deleted_files.
    apply NoDup_filter, NoDup_fst_map_to_list. }
  split; [intros path Hd; by rewrite Hlookup, bool_decide_eq_true_2|].
  split; [intros path Hd; by rewrite Hlookup, bool_decide_eq_false_2|].
  split; [done|]. split.
  { destruct (MetaManager.get_deleted_files data' current) as [|p l] eqn:Hl;
      [done|].
    assert (Hp : p ∈ MetaManager.get_deleted_files data' current)
      by (rewrite Hl; left).
    apply elem_of_get_deleted_files in Hp as [Hsome Hn].
    exfalso. by apply Hn, Hleft. }
  apply cleanup_deleted_other_fields.
Qed.

End Meta.

(** ** The parser registry *)

Section Registry.

Implicit Types (parsers : list BaseParser) (path : string).

Lemma can_parse_iff (p : BaseParser) path :
  can_parse p path = true ↔ Py.lower (Pathlib.suffix path) ∈ extensions p.
Proof. unfold can_parse. apply bool_decide_eq_true. Qed.

Lemma get_parser_Some parsers path (p : BaseParser) :
  ParserRegistry.get_parser parsers path = Some p ↔
  ∃ before after, parsers = before ++ p :: after
    ∧ can_parse p path = true
    ∧ ∀ q, q ∈ before → can_parse q path = false.
Proof.
  induction parsers as [|q parsers IH]; simpl.
  - split; [discriminate|]. intros (before & after & H & _).
    by destruct before.
  - destruct (can_parse q path) eqn:Hq.
    + split.
      * intros [= <-]. exists [], parsers. split; [done|]. split; [done|].
        intros q' Hq'. by apply elem_of_nil in Hq'.
      * intros (before & after & Heq & Hp & Hbefore).
        destruct before as [|q' before]; simpl in Heq.
        -- by injection Heq as ->.
        -- injection Heq as -> _. rewrite Hbefore in Hq by left. discriminate.
    + rewrite IH. split.
      * intros (before & after & -> & Hp & Hbefore).
        exists (q :: before), after. split; [done|]. split; [done|].
        intros q' [->|Hin]%elem_of_cons; [done | by apply Hbefore].
      * intros (before & after & Heq & Hp & Hbefore).
        destruct before as [|q' before]; simpl in Heq.
        -- injection Heq as -> _. congruence.
        -- injection Heq as -> ->. exists before, after. split; [done|].
           split; [done|]. intros r Hin. apply Hbefore. by right.
Qed.

Lemma get_parser_None parsers path :
  ParserRegistry.get_parser parsers path = None ↔
  ∀ q, q ∈ parsers → can_parse q path = false.
Proof.
  induction parsers as [|q parsers IH]; simpl.
  - split; [|done]. intros _ q Hq. by apply elem_of_nil in Hq.
  - destruct (can_parse q path) eqn:Hq.
    + split; [discriminate|]. intros H. rewrite H in Hq by left. discriminate.
    + rewrite IH. split.
      * intros H q' [->|Hin]%elem_of_cons; [done | by apply H].
      * intros H q' Hin. apply H. by right.
Qed.

(** C9, as the code has it: [get_parser] returns the first registered
    parser whose extension list contains the lower-cased suffix of the
    path, and [None] when no registered parser lists it; a file for which
    it returns [None] is never collected for indexing. *)
Theorem get_parser_first_registered parsers path :
  (∀ p, ParserRegistry.get_parser parsers path = Some p ↔
        ∃ before after, parsers = before ++ p :: after
          ∧ Py.lower (Pathlib.suffix path) ∈ extensions p
          ∧ ∀ q, q ∈ before → Py.lower (Pathlib.suffix path) ∉ extensions q)
  ∧ (ParserRegistry.get_parser parsers path = None ↔
     ∀ q, q ∈ parsers → Py.lower (Pathlib.suffix path) ∉ extensions q)
  ∧ (ParserRegistry.get_parser parsers path = None →
     ∀ should_ignore filenames,
       path ∉ collect_directory parsers should_ignore filenames).
Proof.
  assert (Hfalse : ∀ q, can_parse q path = false
                        ↔ Py.lower (Pathlib.suffix path) ∉ extensions q).
  { intros q. rewrite <- can_parse_iff. by destruct (can_parse q path). }
  split; [|split].
  - intros p. rewrite get_parser_Some. setoid_rewrite can_parse_iff.
    split; intros (before & after & Heq & Hp & Hbefore);
      exists before, after; (split; [done|]); (split; [done|]);
      intros q Hq; apply Hfalse; by apply Hbefore.
  - rewrite get_parser_None. split; intros H q Hq; apply Hfalse; by apply H.
  - intros Hnone should_ignore filenames Hin.
    unfold collect_directory in Hin. apply list_elem_of_filter in Hin.
    destruct Hin as [[_ [p Hp]] _]. congruence.
Qed.

(** C9 as stated fails: the suffix of [src/Main.PY] is [.PY], which no
    registered parser lists, so the lookup by the suffix as written finds
    no parser; [get_parser] lower-cases the suffix and returns the Python
    parser. *)
Lemma get_parser_suffix_case_counterexample :
  Pathlib.suffix "src/Main.PY" = ".PY"
  ∧ resolve_by_suffix ParserRegistry.registered "src/Main.PY" = None
  ∧ language_name <$> ParserRegistry.get_parser ParserRegistry.registered
                        "src/Main.PY" = Some "Python".
Proof. split; [|split]; reflexivity. Qed.

End Registry.

(** ** Strings *)

Section Strings.

Implicit Types (s t u sep : string) (l : list string) (c : ascii).

Lemma append_cons c s t : String c s +:+ t = String c (s +:+ t).
Proof. reflexivity. Qed.

Lemma append_nil_l s : "" +:+ s = s.
Proof. reflexivity. Qed.

Lemma append_nil_r s : s +:+ "" = s.
Proof.
  induction s as [|c s IH]; [done|]. by rewrite append_cons, IH.
Qed.

Lemma append_assoc s t u : (s +:+ t) +:+ u = s +:+ (t +:+ u).
Proof.
  induction s as [|c s IH]; [done|]. by rewrite !append_cons, IH.
Qed.

Lemma length_append s t :
  String.length (s +:+ t) = (String.length s + String.length t)%nat.
Proof.
  induction s as [|c s IH]; [done|]. rewrite append_cons. simpl.
  by rewrite IH.
Qed.

Lemma len_append s t : Py.len (s +:+ t) = Py.len s + Py.len t.
Proof. unfold Py.len. rewrite length_append. lia. Qed.

Lemma len_nonneg s : 0 <= Py.len s.
Proof. unfold Py.len. lia. Qed.

Lemma strip_prefix_append s t : Py.strip_prefix s (s +:+ t) = Some t.
Proof.
  induction s as [|c s IH]; [done|]. rewrite append_cons. simpl.
  by rewrite Ascii.eqb_refl.
Qed.

Lemma strip_prefix_Some s t u : Py.strip_prefix s t = Some u → t = s +:+ u.
Proof.
  revert t. induction s as [|c s IH]; intros t; simpl.
  - by intros [= ->].
  - destruct t as [|b t]; [discriminate|].
    destruct (Ascii.eqb c b) eqn:Hcb; [|discriminate].
    apply Ascii.eqb_eq in Hcb as ->. intros H.
    by rewrite append_cons, <- (IH _ H).
Qed.

Lemma removeprefix_append s t : Py.removeprefix (s +:+ t) s = t.
Proof. unfold Py.removeprefix. by rewrite strip_prefix_append. Qed.

Lemma split_not_nil c s : Py.split c s ≠ [].
Proof.
  destruct s as [|a s]; simpl; [done|].
  destruct (Ascii.eqb a c); [done|]. by destruct (Py.split c s).
Qed.

Lemma join_cons sep s t l :
  Py.join sep (t :: s :: l) = t +:+ sep +:+ Py.join sep (s :: l).
Proof. reflexivity. Qed.

(** Joining the pieces of a split with the separator gives the text back. *)
Lemma join_split c s : Py.join (String c "") (Py.split c s) = s.
Proof.
  induction s as [|a s IH]; simpl; [done|].
  destruct (Ascii.eqb a c) eqn:Hac.
  - apply Ascii.eqb_eq in Hac as ->.
    destruct (Py.split c s) as [|h t] eqn:Hs; [by apply split_not_nil in Hs|].
    by rewrite join_cons, IH.
  - destruct (Py.split c s) as [|h t] eqn:Hs; [by apply split_not_nil in Hs|].
    destruct t as [|h' t].
    + simpl in *. by rewrite IH.
    + rewrite join_cons in *. by rewrite append_cons, IH.
Qed.

(** No piece of a split holds the separator. *)
Lemma split_no_sep c s :
  Forall (λ piece, Py.contains_char c piece = false) (Py.split c s).
Proof.
  induction s as [|a s IH]; simpl; [by repeat constructor|].
  destruct (Ascii.eqb a c) eqn:Hac.
  - by constructor.
  - destruct (Py.split c s) as [|h t].
    { constructor; [simpl; by rewrite Hac | constructor]. }
    inversion IH as [|? ? Hh Ht]; subst. constructor; [|done].
    simpl. by rewrite Hac.
Qed.

Lemma join_app_nonempty sep l1 l2 :
  l1 ≠ [] → l2 ≠ [] →
  Py.join sep (l1 ++ l2) = Py.join sep l1 +:+ sep +:+ Py.join sep l2.
Proof.
  intros H1 H2. induction l1 as [|x l1 IH]; [done|].
  destruct l1 as [|y l1].
  - destruct l2 as [|z l2]; [done|]. reflexivity.
  - change ((x :: y :: l1) ++ l2) with (x :: y :: (l1 ++ l2)).
    rewrite !join_cons. change (y :: l1 ++ l2) with ((y :: l1) ++ l2).
    rewrite IH by done. by rewrite !append_assoc.
Qed.

(** Joining joined groups is joining their concatenation, when no group is
    empty. *)
Lemma join_concat sep (groups : list (list string)) :
  Forall (λ g, g ≠ []) groups →
  Py.join sep (map (Py.join sep) groups) = Py.join sep (concat groups).
Proof.
  induction groups as [|g groups IH]; intros Hne; [done|].
  inversion Hne as [|? ? Hg Hgs]; subst.
  destruct groups as [|g' groups].
  - simpl. by rewrite app_nil_r.
  - change (map (Py.join sep) (g :: g' :: groups))
      with (Py.join sep g :: Py.join sep g' :: map (Py.join sep) groups).
    rewrite join_cons.
    change (Py.join sep g' :: map (Py.join sep) groups)
      with (map (Py.join sep) (g' :: groups)).
    rewrite IH by done.
    change (concat (g :: g' :: groups)) with (g ++ concat (g' :: groups)).
    rewrite join_app_nonempty; [done | done |].
    inversion Hgs; subst. simpl. by destruct g'.
Qed.

End Strings.

(** ** The chunk writer *)

Section ChunkWriter.

Implicit Types (st : split_state) (line content base_name : string)
  (lines processed : list string) (groups : list (list string)).

Lemma lines_size_app lines1 lines2 :
  lines_size (lines1 ++ lines2) = lines_size lines1 + lines_size lines2.
Proof. induction lines1 as [|x l IH]; simpl; lia. Qed.

Lemma lines_size_nonneg lines : 0 <= lines_size lines.
Proof.
  induction lines as [|x l IH]; simpl; [lia|]. pose proof (len_nonneg x). lia.
Qed.

Lemma len_join_lines lines :
  lines ≠ [] → Py.len (Py.join (String Py.nl "") lines) = lines_size lines - 1.
Proof.
  induction lines as [|x l IH]; intros Hne; [done|].
  destruct l as [|y l].
  - simpl. lia.
  - rewrite join_cons, !len_append, IH by done.
    change (Py.len (String Py.nl "")) with 1.
    change (lines_size (x :: y :: l))
      with ((Py.len x + 1) + lines_size (y :: l)). lia.
Qed.

(** A non-empty current chunk that satisfies the invariant closes into a
    good group. *)
Lemma current_group_ok lines :
  lines ≠ [] →
  lines_size lines <= MAX_CHARS_PER_FILE ∨ (length lines <= 1)%nat →
  group_ok lines.
Proof.
  intros Hne [Hsize|Hone].
  - left. rewrite len_join_lines by done. lia.
  - destruct lines as [|x [|y l]]; [done| |simpl in Hone; lia].
    destruct (decide (Py.len x <= MAX_CHARS_PER_FILE)) as [Hle|Hgt].
    + by left.
    + right. exists x. split; [done | lia].
Qed.

Lemma split_init_inv : split_inv [] split_init [].
Proof.
  split; simpl; [done | constructor | done | done | constructor | right; lia].
Qed.

Lemma split_step_inv processed st groups line :
  split_inv processed st groups →
  ∃ groups', split_inv (processed ++ [line]) (split_step st line) groups'.
Proof.
  intros [Hch Hne Hcat Hsz Hok Hcur]. unfold split_step.
  destruct ((current_size st + (Py.len line + 1) >? MAX_CHARS_PER_FILE)
            && Py.nonempty (current_chunk st)) eqn:Hflush.
  - apply andb_true_iff in Hflush as [Hbig Hcurne].
    assert (Hcne : current_chunk st ≠ [])
      by (intros Heq; by rewrite Heq in Hcurne).
    exists (groups ++ [current_chunk st]). split; simpl.
    + by rewrite Hch, map_app.
    + apply Forall_app. split; [done | by constructor].
    + rewrite concat_app. simpl. rewrite app_nil_r. by rewrite Hcat.
    + lia.
    + apply Forall_app. split; [done|]. constructor; [|done].
      by apply current_group_ok.
    + right. lia.
  - exists groups. split; simpl; try done.
    + by rewrite app_assoc, Hcat.
    + rewrite lines_size_app. simpl. lia.
    + apply andb_false_iff in Hflush as [Hsmall|Hempty].
      * left. rewrite lines_size_app. simpl. lia.
      * right. destruct (current_chunk st); [simpl; lia | discriminate].
Qed.

Lemma split_loop_inv lines processed st groups :
  split_inv processed st groups →
  ∃ groups', split_inv (processed ++ lines) (fold_left split_step lines st)
                       groups'.
Proof.
  revert processed st groups.
  induction lines as [|line lines IH]; intros processed st groups Hinv; simpl.
  - exists groups. by rewrite app_nil_r.
  - destruct (split_step_inv _ _ _ line Hinv) as [groups1 Hinv1].
    destruct (IH _ _ _ Hinv1) as [groups2 Hinv2].
    exists groups2. by rewrite <- app_assoc in Hinv2.
Qed.

(** The chunks are the joined groups of a partition of the lines into
    non-empty runs, each run a good group. *)
Lemma split_chunks_groups content :
  ∃ groups,
    split_chunks content = map (Py.join (String Py.nl "")) groups
    ∧ Forall (λ g, g ≠ []) groups
    ∧ concat groups = Py.split Py.nl content
    ∧ Forall group_ok groups.
Proof.
  unfold split_chunks.
  destruct (split_loop_inv (Py.split Py.nl content) [] split_init []
              split_init_inv) as [groups [Hch Hne Hcat Hsz Hok Hcur]].
  simpl in Hcat.
  destruct (current_chunk _) as [|x cur] eqn:Hc; simpl.
  - exists groups. rewrite app_nil_r in Hcat. done.
  - exists (groups ++ [x :: cur]). split; [|split; [|split]].
    + by rewrite Hch, map_app.
    + apply Forall_app. split; [done | by constructor].
    + rewrite concat_app. simpl. by rewrite app_nil_r.
    + apply Forall_app. split; [done|]. constructor; [|done].
      by apply current_group_ok.
Qed.

Lemma strip_markers_write_parts base_name (i : Z) (cs : list string) :
  strip_markers base_name i (write_parts base_name i cs) = cs.
Proof.
  revert i. induction cs as [|chunk cs IH]; intros i; simpl; [done|].
  rewrite IH. destruct (i >? 1); [|done]. by rewrite removeprefix_append.
Qed.

(** The texts read back: the whole content in the single-file case, the
    chunks of the loop otherwise. *)
Lemma strip_markers_write_chunked_index content base_name :
  strip_markers base_name 1 (write_chunked_index content base_name) =
  if Py.len content <=? MAX_CHARS_PER_FILE then [content]
  else split_chunks content.
Proof.
  unfold write_chunked_index. destruct (Py.len content <=? _); [done|].
  apply strip_markers_write_parts.
Qed.

(** C1, as the code has it: the texts of the files written, with the part
    marker removed from every file after the first and joined with a line
    break between consecutive files, are the content; every chunk is a run
    of whole lines of the content (the loop closes a chunk only between two
    lines, wherever the section separators are). *)
Theorem write_chunked_index_round_trip content base_name :
  let texts :=
    strip_markers base_name 1 (write_chunked_index content base_name) in
  Py.join (String Py.nl "") texts = content
  ∧ ∃ groups,
      texts = map (Py.join (String Py.nl "")) groups
      ∧ Forall (λ g, g ≠ []) groups
      ∧ concat groups = Py.split Py.nl content.
Proof.
  intros texts.
  assert (Hgroups : ∃ groups,
             texts = map (Py.join (String Py.nl "")) groups
             ∧ Forall (λ g, g ≠ []) groups
             ∧ concat groups = Py.split Py.nl content).
  { subst texts. rewrite strip_markers_write_chunked_index.
    destruct (Py.len content <=? MAX_CHARS_PER_FILE).
    - exists [Py.split Py.nl content]. simpl. rewrite join_split, app_nil_r.
      split; [done|]. split; [|done].
      constructor; [apply split_not_nil | constructor].
    - destruct (split_chunks_groups content) as (groups & H1 & H2 & H3 & _).
      by exists groups. }
  split; [|done].
  destruct Hgroups as (groups & -> & Hne & Hcat).
  by rewrite join_concat, Hcat, join_split.
Qed.

(** C1 as stated fails: in this report the second section is the two
    lines of 10000 characters after the separator; the first of them ends
    the first file and the second is alone in the second file. *)
Lemma write_chunked_index_splits_section :
  strip_markers "src" 1 (write_chunked_index two_section_report "src") =
    [ Py.replicate_char (Z.to_nat 20000) "a"%char +:+ String Py.nl ""
        +:+ SECTION_SEPARATOR +:+ String Py.nl ""
        +:+ Py.replicate_char (Z.to_nat 10000) "b"%char;
      Py.replicate_char (Z.to_nat 10000) "c"%char ]
  ∧ sections two_section_report =
      [ [Py.replicate_char (Z.to_nat 20000) "a"%char];
        [Py.replicate_char (Z.to_nat 10000) "b"%char;
         Py.replicate_char (Z.to_nat 10000) "c"%char] ]
  ∧ no_section_split two_section_report
      (strip_markers "src" 1 (write_chunked_index two_section_report "src"))
    = false.
Proof.
  split; [|split].
  - apply (bool_decide_unpack _). vm_compute. exact I.
  - apply (bool_decide_unpack _). vm_compute. exact I.
  - vm_compute. reflexivity.
Qed.

(** C10: when the content is longer than the limit, the chunks of the
    splitting loop are the texts written without their part markers, and
    each of them is at most as long as the limit or is one line of the
    content that is itself longer than the limit. *)
Theorem split_chunks_within_limit content base_name :
  MAX_CHARS_PER_FILE < Py.len content →
  strip_markers base_name 1 (write_chunked_index content base_name)
    = split_chunks content
  ∧ ∀ chunk, chunk ∈ split_chunks content →
      Py.len chunk <= MAX_CHARS_PER_FILE
      ∨ (MAX_CHARS_PER_FILE < Py.len chunk
         ∧ chunk ∈ Py.split Py.nl content
         ∧ Py.contains_char Py.nl chunk = false).
Proof.
  intros Hlong. split.
  - rewrite strip_markers_write_chunked_index.
    destruct (Py.len content <=? MAX_CHARS_PER_FILE) eqn:Hle; [lia | done].
  - intros chunk Hin.
    destruct (split_chunks_groups content) as (groups & Hch & _ & Hcat & Hok).
    rewrite Hch in Hin. apply list_elem_of_fmap in Hin as (g & -> & Hg).
    rewrite Forall_forall in Hok. destruct (Hok g Hg) as [Hle|(line & -> & Hgt)].
    + by left.
    + right. simpl. split; [done|].
      assert (Hline : line ∈ Py.split Py.nl content).
      { rewrite <- Hcat. apply list_elem_of_In, in_concat. exists [line].
        split; [by apply list_elem_of_In | by left]. }
      split; [done|].
      pose proof (split_no_sep Py.nl content) as Hsep.
      rewrite Forall_forall in Hsep. by apply Hsep.
Qed.

(** A report of 33005 characters whose first line has 33000. *)
Lemma split_chunks_within_limit_witness :
  MAX_CHARS_PER_FILE < Py.len oversized_line_report
  ∧ strip_markers "src" 1 (write_chunked_index oversized_line_report "src")
      = split_chunks oversized_line_report
  ∧ ∀ chunk, chunk ∈ split_chunks oversized_line_report →
      Py.len chunk <= MAX_CHARS_PER_FILE
      ∨ (MAX_CHARS_PER_FILE < Py.len chunk
         ∧ chunk ∈ Py.split Py.nl oversized_line_report
         ∧ Py.contains_char Py.nl chunk = false).
Proof.
  split; [vm_compute; reflexivity|].
  apply (split_chunks_within_limit oversized_line_report "src").
  vm_compute; reflexivity.
Defined.

End ChunkWriter.

(** ** The matcher *)

Section Regex.

Import Re.

Implicit Types (r : regex) (st : mstate) (k : mstate → option mstate)
  (n : nat) (w : string).

Lemma star_loop_sound body (greedy : bool) r k :
  (∀ k' st res, body k' st = Some res →
                ∃ st', matches r st st' ∧ k' st' = Some res) →
  ∀ (fuel : nat) st res,
    star_loop body greedy k fuel st = Some res →
    ∃ st', matches (Star greedy r) st st' ∧ k st' = Some res.
Proof.
  intros Hbody. induction fuel as [|fuel IH]; intros st res H; simpl in H.
  - exists st. split; [constructor | done].
  - assert (Hmore : ∀ res',
              body (λ st', if (String.length (rest st')
                               <? String.length (rest st))%nat
                           then star_loop body greedy k fuel st' else None) st
              = Some res' →
              ∃ st', matches (Star greedy r) st st' ∧ k st' = Some res').
    { intros res' Hb. apply Hbody in Hb as (st1 & Hm1 & Hagain).
      destruct (String.length (rest st1) <? String.length (rest st))%nat;
        [|discriminate].
      apply IH in Hagain as (st2 & Hm2 & Hk). exists st2.
      split; [by eapply matches_Star_more | done]. }
    destruct greedy.
    + destruct (body _ st) as [res'|] eqn:Hb.
      * injection H as <-. by apply Hmore.
      * exists st. split; [constructor | done].
    + destruct (k st) as [res'|] eqn:Hk.
      * injection H as <-. exists st. split; [constructor | done].
      * by apply Hmore.
Qed.

(** The matcher only reports what the pattern can match. *)
Lemma rmatch_sound r : ∀ k st res,
  rmatch r k st = Some res → ∃ st', matches r st st' ∧ k st' = Some res.
Proof.
  induction r as [|p|s| | |r1 IH1 r2 IH2|r1 IH1 r2 IH2|g r1 IH1|n r1 IH1];
    intros k st res H; [simpl in H ..| |simpl in H].
  - exists st. split; [constructor | done].
  - destruct (rest st) as [|c s'] eqn:Hrest; [discriminate|].
    destruct (p c) eqn:Hp; [|discriminate].
    eexists. split; [by eapply matches_Chr | done].
  - destruct (Py.strip_prefix s (rest st)) as [s'|] eqn:Hs; [|discriminate].
    eexists. split; [by eapply matches_Lit | done].
  - destruct (prev st) eqn:Hprev; [discriminate|].
    exists st. split; [by constructor | done].
  - destruct (prev st) as [c|] eqn:Hprev.
    + destruct (Ascii.eqb c Py.nl) eqn:Hc; [|discriminate].
      apply Ascii.eqb_eq in Hc as ->.
      exists st. split; [constructor; by right | done].
    + exists st. split; [constructor; by left | done].
  - apply IH1 in H as (st1 & Hm1 & H). apply IH2 in H as (st2 & Hm2 & H).
    exists st2. split; [by eapply matches_Seq | done].
  - destruct (rmatch r1 k st) as [res'|] eqn:H1.
    + injection H as <-. apply IH1 in H1 as (st' & Hm & Hk).
      exists st'. split; [by apply matches_Alt_l | done].
    + apply IH2 in H as (st' & Hm & Hk).
      exists st'. split; [by apply matches_Alt_r | done].
  - change (star_loop (rmatch r1) g k (S (String.length (rest st))) st
            = Some res) in H.
    exact (star_loop_sound (rmatch r1) g r1 k IH1 _ _ _ H).
  - apply IH1 in H as (st' & Hm & Hk).
    eexists. split; [by apply matches_Group | done].
Qed.

(** A match consumes a prefix of the text left. *)
Lemma matches_rest r st st' :
  matches r st st' → ∃ w, rest st = w +:+ rest st'.
Proof.
  induction 1 as [st|p c s' st Hrest Hp|s s' st Hs|st|st|
                  r1 r2 st st1 st2 _ [w1 IH1] _ [w2 IH2]|
                  r1 r2 st st' _ IH|r1 r2 st st' _ IH|g r st|
                  g r st st1 st2 _ [w1 IH1] _ [w2 IH2]|n r st st' _ IH];
    simpl; try (by exists ""); try done.
  - exists (String c ""). by rewrite Hrest.
  - exists s. by apply strip_prefix_Some.
  - exists (w1 +:+ w2). by rewrite IH1, IH2, append_assoc.
  - exists (w1 +:+ w2). by rewrite IH1, IH2, append_assoc.
Qed.

Lemma substring_prefix w s : substring 0 (String.length w) (w +:+ s) = w.
Proof.
  induction w as [|c w IH].
  - rewrite append_nil_l. by destruct s.
  - rewrite append_cons. simpl. by rewrite IH.
Qed.

Lemma consumed_prefix st st' w :
  rest st = w +:+ rest st' → consumed st st' = w.
Proof.
  intros H. unfold consumed. rewrite H, length_append.
  replace (String.length w + String.length (rest st') -
           String.length (rest st'))%nat with (String.length w) by lia.
  apply substring_prefix.
Qed.

(** A captured group stays captured. *)
Lemma matches_caps_keep r st st' n :
  matches r st st' → is_Some (caps st n) → is_Some (caps st' n).
Proof.
  induction 1; simpl; auto.
  intros Hn. unfold set_cap. destruct (Nat.eqb n n0); [by eexists | auto].
Qed.

(** A group outside every optional part is captured by every match. *)
Lemma matches_mandatory r st st' n :
  matches r st st' → mandatory n r = true → is_Some (caps st' n).
Proof.
  induction 1 as [| | | | |r1 r2 st st1 st2 H1 IH1 H2 IH2|
                  r1 r2 st st' _ IH|r1 r2 st st' _ IH| | |m r st st' _ IH];
    simpl; try discriminate.
  - intros [Hm|Hm]%orb_true_iff; [|by apply IH2].
    eapply matches_caps_keep; [exact H2 | by apply IH1].
  - intros [Hm _]%andb_true_iff. by apply IH.
  - intros [_ Hm]%andb_true_iff. by apply IH.
  - unfold set_cap. destruct (Nat.eqb n m) eqn:Hnm; [by eexists|].
    intros [Hm|Hm]%orb_true_iff; [|by apply IH].
    rewrite Nat.eqb_sym in Hm. congruence.
Qed.

(** A pattern leaves the groups it does not have as they are. *)
Lemma matches_no_group r st st' n :
  matches r st st' → no_group n r = true → caps st' n = caps st n.
Proof.
  induction 1 as [| | | | |r1 r2 st st1 st2 _ IH1 _ IH2|
                  r1 r2 st st' _ IH|r1 r2 st st' _ IH| |
                  g r st st1 st2 _ IH1 _ IH2|m r st st' _ IH];
    simpl; try done.
  - intros [H1 H2]%andb_true_iff. by rewrite IH2, IH1.
  - intros [H1 _]%andb_true_iff. by apply IH.
  - intros [_ H2]%andb_true_iff. by apply IH.
  - intros Hr. rewrite IH2 by done. by apply IH1.
  - intros [Hm Hr]%andb_true_iff. unfold set_cap.
    apply negb_true_iff in Hm. rewrite Nat.eqb_sym in Hm. rewrite Hm.
    by apply IH.
Qed.

Lemma all_chars_append (p : ascii → bool) w1 w2 :
  all_chars p (w1 +:+ w2) = all_chars p w1 && all_chars p w2.
Proof.
  induction w1 as [|c w1 IH]; [done|]. rewrite append_cons. simpl.
  by rewrite IH, andb_assoc.
Qed.

(** A repeated class consumes characters of the class only. *)
Lemma matches_class_star (g : bool) (p : ascii → bool) st st' :
  matches (Star g (Chr p)) st st' →
  ∃ w, rest st = w +:+ rest st' ∧ all_chars p w = true.
Proof.
  intros H. remember (Star g (Chr p)) as r eqn:Hr.
  induction H as [| | | | | | | |g' r' st|g' r' st st1 st2 H1 _ H2 IH2|];
    try discriminate.
  - by exists "".
  - injection Hr as -> ->. destruct (IH2 eq_refl) as (w2 & Hw2 & Hall).
    inversion H1 as [|p' c s' st0 Hrest Hp| | | | | | | | |]; subst.
    exists (String c w2). simpl in Hw2. rewrite Hrest, Hw2. split; [done|].
    simpl. by rewrite Hp, Hall.
Qed.

Lemma matches_class_plus (p : ascii → bool) st st' :
  matches (Plus (Chr p)) st st' →
  ∃ w, rest st = w +:+ rest st' ∧ w ≠ "" ∧ all_chars p w = true.
Proof.
  unfold Plus. intros H.
  inversion H as [| | | | |r1 r2 st0 st1 st2 H1 H2| | | | |]; subst.
  apply matches_class_star in H2 as (w2 & Hw2 & Hall).
  inversion H1 as [|p' c s' st0 Hrest Hp| | | | | | | | |]; subst.
  exists (String c w2). simpl in Hw2. rewrite Hrest, Hw2.
  split; [done|]. split; [done|]. simpl. by rewrite Hp, Hall.
Qed.

(** A group around a repeated class captures a non-empty string of
    characters of the class. *)
Lemma matches_group_class_plus n (p : ascii → bool) st st' :
  matches (Group n (Plus (Chr p))) st st' →
  ∃ w, caps st' n = Some w ∧ w ≠ "" ∧ all_chars p w = true.
Proof.
  intros H. inversion H as [| | | | | | | | | |n' r' st0 st1 H1]; subst.
  destruct (matches_class_plus _ _ _ H1) as (w & Hw & Hne & Hall).
  exists w. simpl. unfold set_cap. rewrite Nat.eqb_refl.
  by rewrite (consumed_prefix _ _ _ Hw).
Qed.

Lemma match_at_sound r (pos : nat) (p : option ascii) (s : string)
  (m : match_obj) :
  match_at r pos p s = Some m →
  ∃ st', matches r (mk_mstate p s (λ _, None)) st'
         ∧ m_groups m = caps st' ∧ m_start m = pos.
Proof.
  unfold match_at. intros H.
  destruct (rmatch r Some _) as [st'|] eqn:Hr; [|discriminate].
  injection H as <-. apply rmatch_sound in Hr as (st1 & Hm & [= ->]).
  by exists st'.
Qed.

(** Every match of a scan is the result of an attempt, at an offset that
    is not before the start of the scan. *)
Lemma scan_elem r (s : string) : ∀ (skip pos : nat) (p : option ascii)
  (m : match_obj),
  m ∈ scan r skip pos p s →
  ∃ pos' p' s', match_at r pos' p' s' = Some m ∧ (pos <= pos')%nat.
Proof.
  induction s as [|c s IH]; intros skip pos p m Hin; simpl in Hin.
  - destruct skip; [|by apply elem_of_nil in Hin].
    destruct (match_at r pos p "") as [m'|] eqn:Hm;
      [|by apply elem_of_nil in Hin].
    apply list_elem_of_singleton in Hin as ->. by exists pos, p, "".
  - destruct skip.
    + destruct (match_at r pos p (String c s)) as [m'|] eqn:Hm.
      * apply elem_of_cons in Hin as [->|Hin]; [by exists pos, p, (String c s)|].
        apply IH in Hin as (pos' & p' & s' & H & Hle).
        exists pos', p', s'. split; [done | lia].
      * apply IH in Hin as (pos' & p' & s' & H & Hle).
        exists pos', p', s'. split; [done | lia].
    + apply IH in Hin as (pos' & p' & s' & H & Hle).
      exists pos', p', s'. split; [done | lia].
Qed.

Lemma finditer_elem r (s : string) (m : match_obj) :
  m ∈ finditer r s → ∃ pos p s', match_at r pos p s' = Some m.
Proof.
  intros Hin. apply scan_elem in Hin as (pos & p & s' & H & _). eauto.
Qed.

(** The matches of a scan come at increasing offsets. *)
Lemma scan_sorted r (s : string) : ∀ (skip pos : nat) (p : option ascii),
  StronglySorted lt (map m_start (scan r skip pos p s)).
Proof.
  induction s as [|c s IH]; intros skip pos p; simpl.
  - destruct skip; [|constructor].
    destruct (match_at r pos p ""); repeat constructor.
  - destruct skip; [|apply IH].
    destruct (match_at r pos p (String c s)) as [m|] eqn:Hm; [|apply IH].
    simpl. constructor; [apply IH|].
    apply Forall_forall. intros x Hx.
    apply list_elem_of_fmap in Hx as (m' & -> & Hin).
    apply scan_elem in Hin as (pos' & p' & s' & Hm' & Hle).
    apply match_at_sound in Hm as (_ & _ & _ & ->).
    apply match_at_sound in Hm' as (_ & _ & _ & ->). lia.
Qed.

End Regex.

(** ** The parsers *)

Section Parsers.

Import Re.

Implicit Types (content line module : string) (m : match_obj).

Lemma matches_class_group (r : regex) (st st' : mstate) (n : nat)
  (p : ascii → bool) :
  matches r st st' → class_group n p r →
  ∃ w, caps st' n = Some w ∧ w ≠ "" ∧ all_chars p w = true.
Proof.
  induction 1 as [| | | | |r1 r2 st st1 st2 H1 IH1 H2 IH2| | | | |
                  k r st st' H IH]; simpl; try done.
  - intros [[Hg Hno]|Hg]; [|by apply IH2].
    rewrite (matches_no_group _ _ _ _ H2 Hno). by apply IH1.
  - intros [-> ->].
    exact (matches_group_class_plus _ _ _ _ (matches_Group _ _ _ _ H)).
Qed.

Lemma match_at_class_group (r : regex) (pos : nat) (prev : option ascii)
  (s : string) m (n : nat) (p : ascii → bool) :
  match_at r pos prev s = Some m → class_group n p r →
  ∃ w, group m n = Some w ∧ w ≠ "" ∧ all_chars p w = true.
Proof.
  intros Hm Hg. apply match_at_sound in Hm as (st' & Hm & Hcaps & _).
  unfold group. rewrite Hcaps. by eapply matches_class_group.
Qed.

Lemma match_at_mandatory (r : regex) (pos : nat) (prev : option ascii)
  (s : string) m (n : nat) :
  match_at r pos prev s = Some m → mandatory n r = true →
  is_Some (group m n).
Proof.
  intros Hm Hg. apply match_at_sound in Hm as (st' & Hm & Hcaps & _).
  unfold group. rewrite Hcaps. by eapply matches_mandatory.
Qed.








Lemma str_groups_mandatory :
  forallb (λ rn : regex * list nat,
             forallb (λ n, mandatory n (fst rn)) (snd rn))
          (python_str_groups ++ typescript_str_groups) = true.
Proof. reflexivity. Qed.

(** C5, as the code has it: [parse] of both parsers is a total function
    that returns a [FileSignature] for every text; every group that the
    parsers read as a string is captured by every match of its pattern, so
    no use of a group can fail; and the description of the result is never
    set: there is no failure path and no sentinel. *)
Theorem parse_total_without_sentinel content :
  (∃ python_exports python_imports,
     PythonParser.parse content =
       mk_FileSignature python_exports python_imports None)
  ∧ (∃ typescript_exports typescript_imports,
       TypeScriptParser.parse content =
         mk_FileSignature typescript_exports typescript_imports None)
  ∧ (∀ (r : regex) (ns : list nat),
       (r, ns) ∈ python_str_groups ++ typescript_str_groups →
       ∀ (pos : nat) (prev : option ascii) (s : string) m (n : nat),
         match_at r pos prev s = Some m → n ∈ ns → is_Some (group m n)).
Proof.
  split; [by eexists _, _|]. split; [by eexists _, _|].
  intros r ns Hin pos prev s m n Hm Hn.
  apply (match_at_mandatory r pos prev s m n Hm).
  pose proof str_groups_mandatory as Hall.
  rewrite forallb_forall in Hall.
  specialize (Hall (r, ns) (proj1 (list_elem_of_In _ _) Hin)). simpl in Hall.
  rewrite forallb_forall in Hall. apply Hall. by apply list_elem_of_In.
Qed.

(** C5 as stated fails: these texts are malformed (a parenthesis is never
    closed), yet the exports are not empty and the description is [None],
    not a sentinel. *)
Lemma parse_malformed_counterexample :
  PythonParser.parse unbalanced_python_source =
    mk_FileSignature ["def ok(a, b)"] [] None
  ∧ TypeScriptParser.parse unbalanced_typescript_source =
      mk_FileSignature ["function ok(a)"] [] None.
Proof. split; vm_compute; reflexivity. Qed.

Lemma defs_step_appends (st : PythonParser.defs_state) line :
  ∃ new, PythonParser.d_exports (PythonParser.defs_step st line)
         = PythonParser.d_exports st ++ new
         ∧ (length new <= 1)%nat.
Proof.
  unfold PythonParser.defs_step.
  repeat case_match; simpl;
    first [ by (exists []; rewrite app_nil_r; split; [done | simpl; lia])
          | by (eexists [_]; split; [done | simpl; lia]) ].
Qed.

Lemma defs_loop_prefix (lines : list string) (st : PythonParser.defs_state) :
  PythonParser.d_exports st
    `prefix_of` PythonParser.d_exports (fold_left PythonParser.defs_step lines st).
Proof.
  revert st. induction lines as [|line lines IH]; intros st; simpl; [done|].
  etrans; [|apply IH].
  destruct (defs_step_appends st line) as (new & -> & _).
  by apply prefix_app_r.
Qed.

Lemma defs_step_origin (st : PythonParser.defs_state) line :
  Forall python_entry_origin (PythonParser.d_exports st) →
  Forall python_entry_origin
         (PythonParser.d_exports (PythonParser.defs_step st line)).
Proof.
  intros Hst. unfold PythonParser.defs_step.
  repeat case_match; simpl; try done;
    apply Forall_app; (split; [done|]); (constructor; [|done]);
    first [ by (left; eexists)
          | right; eexists line, _; split; [eassumption|];
            split; [done|]; by auto ].
Qed.

Lemma defs_loop_origin (lines : list string) (st : PythonParser.defs_state) :
  Forall python_entry_origin (PythonParser.d_exports st) →
  Forall python_entry_origin
         (PythonParser.d_exports (fold_left PythonParser.defs_step lines st)).
Proof.
  revert st. induction lines as [|line lines IH]; intros st Hst; simpl;
    [done|]. by apply IH, defs_step_origin.
Qed.

Lemma python_exports_origin content (e : string) :
  e ∈ exports (PythonParser.parse content) → python_entry_origin e.
Proof.
  simpl. unfold PythonParser._extract_definitions. intros Hin.
  pose proof (defs_loop_origin (Py.split Py.nl content) PythonParser.defs_init
                (Forall_nil_2 _)) as Hall.
  rewrite Forall_forall in Hall. by apply Hall.
Qed.

(** C6, as the code has it: the Python exports are appended line after
    line, at most one entry for a line, so the entries found in the first
    [i] lines are the first entries of the result; the TypeScript exports
    are the functions, then the classes, the interfaces, the type aliases,
    the variables, the enums and the default export, each kind in the order
    of the offsets at which its pattern matches. *)
Theorem exports_order content :
  (∀ i : nat,
     PythonParser.d_exports
       (fold_left PythonParser.defs_step (take i (Py.split Py.nl content))
                  PythonParser.defs_init)
     `prefix_of` exports (PythonParser.parse content))
  ∧ (∀ (st : PythonParser.defs_state) line,
       ∃ new, PythonParser.d_exports (PythonParser.defs_step st line)
              = PythonParser.d_exports st ++ new
              ∧ (length new <= 1)%nat)
  ∧ exports (TypeScriptParser.parse content) =
      map TypeScriptParser.format_func
          (finditer TypeScriptParser.func_pattern content)
      ++ map TypeScriptParser.format_class
             (finditer TypeScriptParser.class_pattern content)
      ++ map TypeScriptParser.format_interface
             (finditer TypeScriptParser.interface_pattern content)
      ++ map TypeScriptParser.format_type
             (finditer TypeScriptParser.type_pattern content)
      ++ map TypeScriptParser.format_var
             (finditer TypeScriptParser.var_pattern content)
      ++ map TypeScriptParser.format_enum
             (finditer TypeScriptParser.enum_pattern content)
      ++ TypeScriptParser.default_export content
  ∧ (∀ r : regex, StronglySorted lt (map m_start (finditer r content))).
Proof.
  split; [|split; [|split]].
  - intros i. simpl. unfold PythonParser._extract_definitions.
    rewrite <- (take_drop i (Py.split Py.nl content)) at 2.
    rewrite fold_left_app. apply defs_loop_prefix.
  - apply defs_step_appends.
  - simpl. unfold TypeScriptParser._extract_exports. simpl.
    by rewrite <- !app_assoc.
  - intros r. apply scan_sorted.
Qed.

(** C6 as stated fails: the class is declared at offset 0 and the function
    at offset 18, and the exports list the function first. *)
Lemma exports_order_counterexample :
  exports (TypeScriptParser.parse class_then_function_source)
    = ["function f()"; "class A"]
  ∧ map m_start (finditer TypeScriptParser.class_pattern
                          class_then_function_source) = [0%nat]
  ∧ map m_start (finditer TypeScriptParser.func_pattern
                          class_then_function_source) = [18%nat].
Proof. split; [|split]; vm_compute; reflexivity. Qed.

(** Bring the first characters of an appended text to the front. *)
Ltac expose_head H := repeat (rewrite ?append_nil_l, ?append_cons in H).

Lemma format_def_shape m :
  ∃ pre tail,
    PythonParser.format_def m
      = pre +:+ "def " +:+ group_str m 3 +:+ String "("%char tail
    ∧ (pre = "" ∨ pre = "async ").
Proof.
  unfold PythonParser.format_def.
  repeat case_match; eexists _, _; (split; [reflexivity|]); auto.
Qed.

(** The name of a matched [def] is a word. *)
Lemma func_pattern_name line m :
  re_match PythonParser.func_pattern line = Some m →
  all_chars Py.is_word (group_str m 3) = true.
Proof.
  intros Hm.
  destruct (match_at_class_group _ _ _ _ _ 3%nat Py.is_word Hm)
    as (w & Hw & _ & Hall).
  - simpl. right. right. right. right. right. left. done.
  - unfold group_str. by rewrite Hw.
Qed.

(** Two words followed by characters that are not word characters are the
    same word when the texts are the same. *)
Lemma word_prefix_unique (n1 n2 : string) (c1 c2 : ascii) (t1 t2 : string) :
  all_chars Py.is_word n1 = true → all_chars Py.is_word n2 = true →
  Py.is_word c1 = false → Py.is_word c2 = false →
  n1 +:+ String c1 t1 = n2 +:+ String c2 t2 → n1 = n2.
Proof.
  intros H1 H2 Hc1 Hc2. revert n2 H2.
  induction n1 as [|a n1 IH]; intros [|b n2] H2 Heq; [done| | |].
  - rewrite append_nil_l, append_cons in Heq. injection Heq as -> _.
    simpl in H2. apply andb_true_iff in H2 as [H2 _]. congruence.
  - rewrite append_nil_l, append_cons in Heq. injection Heq as -> _.
    simpl in H1. apply andb_true_iff in H1 as [H1 _]. congruence.
  - rewrite !append_cons in Heq. injection Heq as -> Heq.
    simpl in H1, H2. apply andb_true_iff in H1 as [_ H1].
    apply andb_true_iff in H2 as [_ H2]. f_equal. by apply IH.
Qed.

(** Two matched [def]s with the same signature text have the same name. *)
Lemma format_def_name line1 line2 m1 m2 :
  re_match PythonParser.func_pattern line1 = Some m1 →
  re_match PythonParser.func_pattern line2 = Some m2 →
  PythonParser.format_def m1 = PythonParser.format_def m2 →
  group_str m1 3 = group_str m2 3.
Proof.
  intros Hm1 Hm2 Heq.
  apply func_pattern_name in Hm1. apply func_pattern_name in Hm2.
  destruct (format_def_shape m1) as (pre1 & tail1 & E1 & Hpre1).
  destruct (format_def_shape m2) as (pre2 & tail2 & E2 & Hpre2).
  rewrite E1, E2 in Heq.
  destruct Hpre1 as [-> | ->], Hpre2 as [-> | ->];
    expose_head Heq;
    try discriminate; injection Heq as Heq;
    (apply (word_prefix_unique _ _ "("%char "("%char tail1 tail2);
       [done | done | reflexivity | reflexivity | done]).
Qed.

(** C2, as the code has it: the signature of a [def] that the Python
    pattern matches and whose name starts with one underscore (and not
    with two) is in the exports of no text, neither as a function nor,
    indented, as a method.  (The rule covers neither the names that start
    with two underscores nor the names of classes.) *)
Theorem private_def_absent content line m :
  re_match PythonParser.func_pattern line = Some m →
  PythonParser.is_private (group_str m 3) = true →
  (PythonParser.format_def m ∉ exports (PythonParser.parse content))
  ∧ (("  " +:+ PythonParser.format_def m)
       ∉ exports (PythonParser.parse content)).
Proof.
  intros Hm Hprivate.
  assert (Hother : ∀ line' m',
            re_match PythonParser.func_pattern line' = Some m' →
            PythonParser.is_private (group_str m' 3) = false →
            PythonParser.format_def m ≠ PythonParser.format_def m').
  { intros line' m' Hm' Hpublic Heq.
    rewrite (format_def_name _ _ _ _ Hm Hm' Heq) in Hprivate. congruence. }
  destruct (format_def_shape m) as (pre & tail & E & Hpre).
  split; intros Hin; apply python_exports_origin in Hin;
    destruct Hin as [[tail' Hclass] | (line' & m' & Hm' & Hpublic & He)].
  - rewrite E in Hclass.
    destruct Hpre as [-> | ->];
      expose_head Hclass; discriminate.
  - destruct He as [He|He]; [by eapply Hother|].
    rewrite E in He.
    destruct Hpre as [-> | ->];
      expose_head He; discriminate.
  - expose_head Hclass. discriminate.
  - destruct He as [He|He].
    + destruct (format_def_shape m') as (pre' & tail'' & E' & Hpre').
      rewrite E' in He.
      destruct Hpre' as [-> | ->];
        expose_head He; discriminate.
    + apply (inj (String.app "  ")) in He. by eapply Hother.
Qed.

(** The method [_helper] of a class: its signature is not exported. *)
Lemma private_def_absent_witness :
  re_match PythonParser.func_pattern private_def_line = Some private_def_match
  ∧ PythonParser.is_private (group_str private_def_match 3) = true
  ∧ PythonParser.format_def private_def_match = "def _helper(self, x)"
  ∧ (PythonParser.format_def private_def_match
       ∉ exports (PythonParser.parse private_def_source))
  ∧ (("  " +:+ PythonParser.format_def private_def_match)
       ∉ exports (PythonParser.parse private_def_source)).
Proof.
  split; [vm_compute; reflexivity|]. split; [vm_compute; reflexivity|].
  split; [vm_compute; reflexivity|].
  apply (private_def_absent private_def_source private_def_line
           private_def_match); vm_compute; reflexivity.
Defined.

(** C2 as stated fails: the class [_Hidden] starts with an underscore and
    is exported; its method [__getitem__] is none of the special methods
    of the allow-list and is exported; the TypeScript parser exports the
    function [_hidden]. *)
Lemma private_names_exported_counterexample :
  exports (PythonParser.parse private_class_source)
    = ["class _Hidden"; "  def __getitem__(self, key)"]
  ∧ exports (TypeScriptParser.parse "export function _hidden() {}")
      = ["function _hidden()"].
Proof. split; vm_compute; reflexivity. Qed.

End Parsers.

(** ** The properties at work on small inputs *)

Section Examples.

(** C3 at work: a path that is not on disk is not re-indexed, and a file
    on disk without a record is. *)
Lemma should_reindex_iff_witness :
  example_fs !! "src/gone.py" = None
  ∧ MetaManager.should_reindex example_fs example_data "src/gone.py" = false
  ∧ MetaManager.should_reindex example_fs example_data "src/a.py" = true.
Proof.
  split; [reflexivity|]. split.
  - apply (proj2 (should_reindex_iff example_fs example_data "src/gone.py")).
    reflexivity.
  - apply (proj1 (should_reindex_iff example_fs example_data "src/a.py")).
    exists example_stat. split; [reflexivity | left; reflexivity].
Defined.

(** C8 at work: [src/old.py] is recorded and no longer current, so it is
    reported deleted and its record is gone after the cleanup. *)
Lemma deleted_files_cleanup_witness :
  "src/old.py" ∈ MetaManager.get_deleted_files example_store example_current
  ∧ files (MetaManager.cleanup_deleted example_store
             (MetaManager.get_deleted_files example_store example_current))
      !! "src/old.py" = None.
Proof.
  destruct (deleted_files_cleanup example_store example_current)
    as (Hin & _ & Hgone & _).
  assert (Hold : "src/old.py"
                 ∈ MetaManager.get_deleted_files example_store example_current).
  { apply Hin. split; [by eexists|].
    unfold example_current. rewrite elem_of_singleton. discriminate. }
  split; [exact Hold | exact (Hgone _ Hold)].
Defined.

(** C9 at work: a [.ts] file goes to the parser registered first. *)
Lemma get_parser_first_registered_witness :
  ParserRegistry.get_parser ParserRegistry.registered "src/app.ts"
    = Some TypeScriptParser_instance.
Proof.
  apply (proj1 (get_parser_first_registered ParserRegistry.registered
                  "src/app.ts")).
  exists [], [PythonParser_instance]. split; [reflexivity|].
  split; [vm_compute; by left|].
  intros q Hq. by apply elem_of_nil in Hq.
Defined.


(** C5 at work: the name group of the [def] pattern is captured by the
    match on the sample line. *)
Lemma parse_total_without_sentinel_witness :
  is_Some (Re.group private_def_match 3).
Proof.
  destruct (parse_total_without_sentinel "") as (_ & _ & H).
  apply (H PythonParser.func_pattern [1%nat; 3%nat; 4%nat]) with
    (pos := 0%nat) (prev := None) (s := private_def_line).
  - apply list_elem_of_In. simpl. right. right. right. by left.
  - vm_compute. reflexivity.
  - apply list_elem_of_In. simpl. right. by left.
Defined.

End Examples.

(** ** More on the chunk writer *)

Section ChunkWriterMore.

Implicit Types (st : split_state) (line content base_name : string)
  (lines processed : list string) (groups : list (list string)).

Lemma append_inj_r (s t u : string) : s +:+ u = t +:+ u → s = t.
Proof.
  intros H.
  assert (Hlen : String.length s = String.length t).
  { apply (f_equal String.length) in H. rewrite !length_append in H. lia. }
  revert t H Hlen. induction s as [|a s IH]; intros [|b t] H Hlen;
    simpl in Hlen; try done; try lia.
  rewrite !append_cons in H. injection H as -> H. f_equal. apply IH; [done|lia].
Qed.

Lemma part_name_inj base_name (i j : Z) :
  part_name base_name i = part_name base_name j → i = j.
Proof.
  unfold part_name. intros H.
  apply (inj (String.app base_name)) in H.
  apply (inj (String.app "_part")) in H.
  apply append_inj_r in H. by apply (inj pretty) in H.
Qed.

Lemma write_parts_names base_name (cs : list string) (i : Z) :
  map w_name (write_parts base_name i cs)
  = map (part_name base_name) (seqZ i (Z.of_nat (length cs))).
Proof.
  revert i. induction cs as [|c cs IH]; intros i; [done|].
  cbn [write_parts map length]. rewrite IH.
  rewrite (seqZ_cons i) by lia. cbn [map]. unfold part_name at 2.
  do 3 f_equal; lia.
Qed.

Lemma split_chunks_not_nil content : split_chunks content ≠ [].
Proof.
  destruct (split_chunks_groups content) as (groups & Hch & _ & Hcat & _).
  rewrite Hch. destruct groups as [|g groups]; [|done].
  simpl in Hcat. symmetry in Hcat. by apply split_not_nil in Hcat.
Qed.

End ChunkWriterMore.

Section ChunkWriterNames.

Implicit Types (content base_name : string).

Lemma write_chunked_index_name_list content base_name :
  map w_name (write_chunked_index content base_name)
  = if Py.len content <=? MAX_CHARS_PER_FILE
    then [base_name +:+ ".md"]
    else map (part_name base_name)
             (seqZ 1 (Z.of_nat (length (split_chunks content)))).
Proof.
  unfold write_chunked_index.
  destruct (Py.len content <=? MAX_CHARS_PER_FILE); [done|].
  apply write_parts_names.
Qed.

(** X1: [write_chunked_index] always writes at least one file, and no two
    of the files it writes have the same name: the single file is
    [base_name.md], and the parts are numbered from 1 without a gap. *)
Theorem write_chunked_index_names content base_name :
  write_chunked_index content base_name ≠ []
  ∧ NoDup (map w_name (write_chunked_index content base_name))
  ∧ map w_name (write_chunked_index content base_name)
    = if Py.len content <=? MAX_CHARS_PER_FILE
      then [base_name +:+ ".md"]
      else map (part_name base_name)
               (seqZ 1 (Z.of_nat (length (split_chunks content)))).
Proof.
  unfold write_chunked_index.
  destruct (Py.len content <=? MAX_CHARS_PER_FILE).
  - split; [done|]. split; [|done]. simpl. apply NoDup_singleton.
  - rewrite write_parts_names. split; [|split; [|done]].
    + pose proof (split_chunks_not_nil content) as Hne.
      destruct (split_chunks content); [done|]. discriminate.
    + apply NoDup_fmap_2_strong; [|apply NoDup_seqZ].
      intros i j _ _. apply part_name_inj.
Qed.

End ChunkWriterNames.

Section ChunkWriterGreedy.

Implicit Types (st : split_state) (line content base_name : string)
  (lines processed : list string) (groups : list (list string)).

Lemma boundaries_forced_close groups (g : list string) line :
  boundaries_forced (groups ++ [g]) →
  MAX_CHARS_PER_FILE < lines_size g + (Py.len line + 1) →
  boundaries_forced ((groups ++ [g]) ++ [[line]]).
Proof.
  intros Hb Hfull. induction groups as [|g0 groups IH].
  - simpl. done.
  - destruct Hb as [Hhead Hb]. specialize (IH Hb).
    change ((g0 :: groups) ++ [g]) with (g0 :: (groups ++ [g])) in *.
    change ((g0 :: groups ++ [g]) ++ [[line]])
      with (g0 :: ((groups ++ [g]) ++ [[line]])).
    split; [|done]. by destruct groups.
Qed.

Lemma boundaries_forced_extend groups (g : list string) line :
  (g = [] → groups = []) →
  boundaries_forced (groups ++ [g]) →
  boundaries_forced (groups ++ [g ++ [line]]).
Proof.
  intros Hg Hb. induction groups as [|g0 groups IH].
  - simpl. done.
  - assert (Hne : g ≠ []) by (intros ->; by specialize (Hg eq_refl)).
    destruct Hb as [Hhead Hb].
    change ((g0 :: groups) ++ [g ++ [line]])
      with (g0 :: (groups ++ [g ++ [line]])).
    split.
    + destruct groups as [|g1 groups]; [|done]. simpl in *.
      by destruct g.
    + destruct groups as [|g1 groups]; [done|]. apply IH; [done | done].
Qed.

Lemma split_init_inv_forced : split_inv_forced [] split_init [].
Proof. split; [apply split_init_inv|]. simpl. done. Qed.

Lemma split_step_inv_forced processed st groups line :
  split_inv_forced processed st groups →
  ∃ groups',
    split_inv_forced (processed ++ [line]) (split_step st line) groups'.
Proof.
  intros ([Hch Hne Hcat Hsz Hok Hcur] & Hb & Hnil). unfold split_step.
  destruct ((current_size st + (Py.len line + 1) >? MAX_CHARS_PER_FILE)
            && Py.nonempty (current_chunk st)) eqn:Hflush.
  - apply andb_true_iff in Hflush as [Hbig Hcurne].
    assert (Hcne : current_chunk st ≠ [])
      by (intros Heq; by rewrite Heq in Hcurne).
    exists (groups ++ [current_chunk st]). split; [split|]; simpl.
    + by rewrite Hch, map_app.
    + apply Forall_app. split; [done | by constructor].
    + rewrite concat_app. simpl. rewrite app_nil_r. by rewrite Hcat.
    + lia.
    + apply Forall_app. split; [done|]. constructor; [|done].
      by apply current_group_ok.
    + right. lia.
    + split; [|done]. apply boundaries_forced_close; [done|]. lia.
  - exists groups. split; [split|]; simpl; try done.
    + by rewrite app_assoc, Hcat.
    + rewrite lines_size_app. simpl. lia.
    + apply andb_false_iff in Hflush as [Hsmall|Hempty].
      * left. rewrite lines_size_app. simpl. lia.
      * right. destruct (current_chunk st); [simpl; lia | discriminate].
    + split; [by apply boundaries_forced_extend|].
      intros Happ. by destruct (current_chunk st).
Qed.

Lemma split_loop_inv_forced lines processed st groups :
  split_inv_forced processed st groups →
  ∃ groups', split_inv_forced (processed ++ lines)
                              (fold_left split_step lines st) groups'.
Proof.
  revert processed st groups.
  induction lines as [|line lines IH]; intros processed st groups Hinv; simpl.
  - exists groups. by rewrite app_nil_r.
  - destruct (split_step_inv_forced _ _ _ line Hinv) as [groups1 Hinv1].
    destruct (IH _ _ _ Hinv1) as [groups2 Hinv2].
    exists groups2. by rewrite <- app_assoc in Hinv2.
Qed.

(** The chunks are the joined groups of a partition of the lines whose
    boundaries were all forced. *)
Lemma split_chunks_groups_forced content :
  ∃ groups,
    split_chunks content = map (Py.join (String Py.nl "")) groups
    ∧ Forall (λ g, g ≠ []) groups
    ∧ concat groups = Py.split Py.nl content
    ∧ Forall group_ok groups
    ∧ boundaries_forced groups.
Proof.
  unfold split_chunks.
  destruct (split_loop_inv_forced (Py.split Py.nl content) [] split_init []
              split_init_inv_forced)
    as (groups & [Hch Hne Hcat Hsz Hok Hcur] & Hb & Hnil).
  simpl in Hcat.
  destruct (current_chunk _) as [|x cur] eqn:Hc; simpl.
  - exists groups. rewrite app_nil_r in Hcat.
    rewrite (Hnil eq_refl) in *. done.
  - exists (groups ++ [x :: cur]). split; [|split; [|split; [|split]]].
    + by rewrite Hch, map_app.
    + apply Forall_app. split; [done | by constructor].
    + rewrite concat_app. simpl. by rewrite app_nil_r.
    + apply Forall_app. split; [done|]. constructor; [|done].
      by apply current_group_ok.
    + done.
Qed.

Lemma boundaries_forced_lookup groups (i : nat) (g1 t : list string) line :
  boundaries_forced groups →
  groups !! i = Some g1 → groups !! S i = Some (line :: t) →
  MAX_CHARS_PER_FILE < lines_size g1 + (Py.len line + 1).
Proof.
  revert i. induction groups as [|g groups IH]; intros i Hb H1 H2; [done|].
  destruct Hb as [Hhead Hb]. destruct i as [|i].
  - simpl in H1, H2. injection H1 as ->.
    destruct groups as [|g2 groups]; [done|]. simpl in H2.
    injection H2 as ->. done.
  - simpl in H1. by apply (IH i).
Qed.

Lemma split_no_sep_single (c : ascii) (s : string) :
  Py.contains_char c s = false → Py.split c s = [s].
Proof.
  induction s as [|a s IH]; [done|]. simpl.
  intros [Hac Hs]%orb_false_iff. rewrite Hac, (IH Hs). done.
Qed.

Lemma split_append_sep (c : ascii) (s rest : string) :
  Py.contains_char c s = false →
  Py.split c (s +:+ String c rest) = s :: Py.split c rest.
Proof.
  induction s as [|a s IH].
  - intros _. rewrite append_nil_l. simpl. by rewrite Ascii.eqb_refl.
  - simpl. intros [Hac Hs]%orb_false_iff. by rewrite Hac, (IH Hs).
Qed.

(** The first line of a joined group is the first line of the group. *)
Lemma hd_split_join line (t : list string) :
  Py.contains_char Py.nl line = false →
  hd "" (Py.split Py.nl (Py.join (String Py.nl "") (line :: t))) = line.
Proof.
  intros Hline. destruct t as [|l2 t].
  - simpl. by rewrite split_no_sep_single.
  - rewrite join_cons, append_cons, append_nil_l.
    by rewrite split_append_sep.
Qed.

(** X2: the packing is greedy.  For two consecutive chunks of the
    splitting loop, the first line of the second chunk did not fit into
    the first: the first chunk and its line break, then that line and its
    line break, are more than the limit. *)
Theorem split_chunks_greedy content (i : nat) (c1 c2 : string) :
  split_chunks content !! i = Some c1 →
  split_chunks content !! S i = Some c2 →
  MAX_CHARS_PER_FILE
  < (Py.len c1 + 1) + (Py.len (hd "" (Py.split Py.nl c2)) + 1).
Proof.
  intros H1 H2.
  destruct (split_chunks_groups_forced content)
    as (groups & Hch & Hne & Hcat & _ & Hb).
  rewrite Hch in H1, H2. rewrite list_lookup_fmap in H1, H2.
  destruct (groups !! i) as [g1|] eqn:Hg1; [|discriminate].
  destruct (groups !! S i) as [g2|] eqn:Hg2; [|discriminate].
  injection H1 as <-. injection H2 as <-.
  rewrite Forall_forall in Hne.
  assert (Hg1ne : g1 ≠ []) by (apply Hne; by eapply list_elem_of_lookup_2).
  assert (Hg2ne : g2 ≠ []) by (apply Hne; by eapply list_elem_of_lookup_2).
  destruct g2 as [|line t]; [done|].
  assert (Hline : Py.contains_char Py.nl line = false).
  { pose proof (split_no_sep Py.nl content) as Hsep.
    rewrite Forall_forall in Hsep. apply Hsep. rewrite <- Hcat.
    apply list_elem_of_In, in_concat. exists (line :: t).
    split; [apply list_elem_of_In; by eapply list_elem_of_lookup_2 | by left]. }
  rewrite hd_split_join by done. rewrite len_join_lines by done.
  pose proof (boundaries_forced_lookup _ _ _ _ _ Hb Hg1 Hg2). lia.
Qed.

(** The two chunks of the report of two sections. *)
Lemma split_chunks_greedy_witness :
  MAX_CHARS_PER_FILE
  < (Py.len (Py.replicate_char (Z.to_nat 20000) "a"%char +:+ String Py.nl ""
               +:+ SECTION_SEPARATOR +:+ String Py.nl ""
               +:+ Py.replicate_char (Z.to_nat 10000) "b"%char) + 1)
    + (Py.len (hd "" (Py.split Py.nl
                        (Py.replicate_char (Z.to_nat 10000) "c"%char))) + 1).
Proof.
  apply (split_chunks_greedy two_section_report 0);
    apply (bool_decide_unpack _); vm_compute; exact I.
Defined.

(** X3: a content longer than the limit is written as one part exactly
    when it is a single line (it holds no line break); with a line break
    it is written as two parts or more. *)
Theorem one_part_iff_one_line content base_name :
  MAX_CHARS_PER_FILE < Py.len content →
  (length (write_chunked_index content base_name) = 1%nat
   ↔ Py.contains_char Py.nl content = false)
  ∧ (Py.contains_char Py.nl content = true →
     (2 <= length (write_chunked_index content base_name))%nat).
Proof.
  intros Hlong.
  assert (Hlen : length (write_chunked_index content base_name)
                 = length (split_chunks content)).
  { rewrite <- (length_map w_name), write_chunked_index_name_list.
    destruct (Py.len content <=? MAX_CHARS_PER_FILE) eqn:Hle; [lia|].
    rewrite length_map, length_seqZ. lia. }
  rewrite Hlen.
  destruct (split_chunks_groups content) as (groups & Hch & Hne & Hcat & Hok).
  rewrite Hch, length_map.
  assert (Hone : length groups = 1%nat
                 ↔ Py.contains_char Py.nl content = false).
  { split.
    - intros Hl. destruct groups as [|g [|g' groups]]; simpl in Hl; try lia.
      simpl in Hcat. rewrite app_nil_r in Hcat. subst g.
      inversion Hok as [|? ? [Hle | (line & Hg & _)] _]; subst.
      + rewrite join_split in Hle. lia.
      + pose proof (join_split Py.nl content) as Hjoin. rewrite Hg in Hjoin.
        simpl in Hjoin. subst line.
        pose proof (split_no_sep Py.nl content) as Hsep. rewrite Hg in Hsep.
        by inversion Hsep.
    - intros Hnl. rewrite (split_no_sep_single _ _ Hnl) in Hcat.
      destruct groups as [|g groups]; [done|].
      inversion Hne as [|? ? Hg Hgs]; subst.
      destruct g as [|l g]; [done|]. simpl in Hcat.
      injection Hcat as -> Hrest.
      apply app_eq_nil in Hrest as [-> Hrest].
      destruct groups as [|g' groups]; [done|].
      inversion Hgs as [|? ? Hg' _]; subst. simpl in Hrest.
      apply app_eq_nil in Hrest as [-> _]. done. }
  split; [done|]. intros Hnl.
  destruct groups as [|g [|g' groups]]; simpl; try lia.
  - simpl in Hcat. symmetry in Hcat. by apply split_not_nil in Hcat.
  - assert (Hfalse : Py.contains_char Py.nl content = false)
      by (by apply Hone). congruence.
Qed.

(** The report with an oversized first line has a line break and is
    written in two parts. *)
Lemma one_part_iff_one_line_witness :
  MAX_CHARS_PER_FILE < Py.len oversized_line_report
  ∧ (2 <= length (write_chunked_index oversized_line_report "src"))%nat.
Proof.
  split; [vm_compute; reflexivity|].
  apply (one_part_iff_one_line oversized_line_report "src");
    vm_compute; reflexivity.
Defined.

End ChunkWriterGreedy.

(** ** More on the metadata manager *)

Section MetaMore.

Implicit Types (fs : filesystem) (data : IndexMetadata) (path : string).

Lemma update_file_record_exists fs data path (artifact : string)
  (checksum : option string) (stat : stat_result) :
  fs !! path = Some stat →
  MetaManager.update_file_record fs data path artifact checksum
  = MetaManager.set_files data
      (<[path := new_record stat artifact checksum]> (files data)).
Proof. intros H. unfold MetaManager.update_file_record. by rewrite H. Qed.

Lemma update_file_record_missing fs data path (artifact : string)
  (checksum : option string) :
  fs !! path = None →
  MetaManager.update_file_record fs data path artifact checksum = data.
Proof. intros H. unfold MetaManager.update_file_record. by rewrite H. Qed.

Lemma new_record_not_empty (stat : stat_result) (artifact : string)
  (checksum : option string) : new_record stat artifact checksum ≠ ∅.
Proof.
  intros H. apply (f_equal (λ m, m !! "mtime")) in H.
  unfold new_record in H. by rewrite lookup_insert_eq in H.
Qed.

Lemma new_record_fingerprint (stat : stat_result) (artifact : string)
  (checksum : option string) :
  stored_fingerprint (new_record stat artifact checksum)
  = current_fingerprint stat.
Proof. reflexivity. Qed.

Lemma files_update_other fs data path (artifact : string)
  (checksum : option string) (other : string) :
  other ≠ path →
  files (MetaManager.update_file_record fs data path artifact checksum)
    !! other = files data !! other.
Proof.
  intros Hne. unfold MetaManager.update_file_record.
  destruct (fs !! path); [|done]. simpl. by rewrite lookup_insert_ne.
Qed.

(** X4: [update_file_record] does nothing for a path that is not on disk,
    and for a file on disk it changes the record of that path only: the
    records of the other paths, what [should_reindex] answers for them,
    and the other fields of the metadata stay as they were. *)
Theorem update_file_record_frame fs data path (artifact : string)
  (checksum : option string) :
  (fs !! path = None →
   MetaManager.update_file_record fs data path artifact checksum = data)
  ∧ (∀ other, other ≠ path →
       files (MetaManager.update_file_record fs data path artifact checksum)
         !! other = files data !! other)
  ∧ (∀ fs' other, other ≠ path →
       MetaManager.should_reindex fs'
         (MetaManager.update_file_record fs data path artifact checksum) other
       = MetaManager.should_reindex fs' data other)
  ∧ version (MetaManager.update_file_record fs data path artifact checksum)
    = version data
  ∧ project_type (MetaManager.update_file_record fs data path artifact checksum)
    = project_type data.
Proof.
  split; [apply update_file_record_missing|].
  split; [intros other Hne; by apply files_update_other|]. split.
  - intros fs' other Hne. unfold MetaManager.should_reindex.
    by rewrite files_update_other.
  - unfold MetaManager.update_file_record. by destruct (fs !! path).
Qed.

(** X5: of two calls of [update_file_record] for the same path the second
    wins: the record is the one the second call alone would store. *)
Theorem update_file_record_last_wins fs data path (artifact1 artifact2 : string)
  (checksum1 checksum2 : option string) :
  MetaManager.update_file_record fs
    (MetaManager.update_file_record fs data path artifact1 checksum1)
    path artifact2 checksum2
  = MetaManager.update_file_record fs data path artifact2 checksum2.
Proof.
  unfold MetaManager.update_file_record.
  destruct (fs !! path) as [stat|]; [|done].
  unfold MetaManager.set_files. simpl. by rewrite insert_insert_eq.
Qed.

Lemma elem_of_get_affected data (l : list string) (v : value) :
  v ∈ MetaQueries.get_affected_index_files data l ↔
  ∃ path record, path ∈ l ∧ files data !! path = Some record
    ∧ MetaManager.record_get record "indexed_in" = v
    ∧ value_truthy v = true.
Proof.
  unfold MetaQueries.get_affected_index_files.
  assert (Hgen : ∀ acc,
    v ∈ fold_left (MetaQueries.affected_step data) l acc ↔
    v ∈ acc ∨ ∃ path record, path ∈ l ∧ files data !! path = Some record
      ∧ MetaManager.record_get record "indexed_in" = v
      ∧ value_truthy v = true).
  { induction l as [|p l IH]; intros acc; simpl.
    - split; [by left|]. intros [H|(? & ? & H & _)]; [done|].
      by apply elem_of_nil in H.
    - rewrite IH. unfold MetaQueries.affected_step.
      destruct (files data !! p) as [record|] eqn:Hp.
      + destruct (negb (bool_decide (record = ∅))
                  && value_truthy (MetaManager.record_get record "indexed_in"))
          eqn:Hc.
        * apply andb_true_iff in Hc as [_ Ht]. split.
          -- intros [[H|H]%elem_of_union|(q & r & Hq & Hr)].
             ++ by left.
             ++ apply elem_of_singleton in H as ->. right.
                exists p, record. split; [left | done].
             ++ right. exists q, r. split; [by right | done].
          -- intros [H|(q & r & [->|Hq]%elem_of_cons & Hr & Hv & Ht')].
             ++ left. apply elem_of_union. by left.
             ++ left. rewrite Hp in Hr. injection Hr as <-.
                apply elem_of_union. right. by apply elem_of_singleton.
             ++ right. by exists q, r.
        * split.
          -- intros [H|(q & r & Hq & Hr)]; [by left|].
             right. exists q, r. split; [by right | done].
          -- intros [H|(q & r & [->|Hq]%elem_of_cons & Hr & Hv & Ht')].
             ++ by left.
             ++ rewrite Hp in Hr. injection Hr as <-. subst v.
                rewrite Ht' in Hc. rewrite andb_true_r in Hc.
                apply negb_false_iff, bool_decide_eq_true in Hc. subst record.
                discriminate.
             ++ right. by exists q, r.
      + split.
        * intros [H|(q & r & Hq & Hr)]; [by left|].
          right. exists q, r. split; [by right | done].
        * intros [H|(q & r & [->|Hq]%elem_of_cons & Hr & Hv & Ht')].
          -- by left.
          -- congruence.
          -- right. by exists q, r. }
  rewrite Hgen. split; [|by right]. intros [H|H]; [|done].
  by apply not_elem_of_empty in H.
Qed.

(** X6: after [update_file_record] has recorded an existing file in an
    index file with a non-empty name, [get_affected_index_files] for that
    path is exactly that index file; with an empty name it is the empty
    set. *)
Theorem affected_after_update fs data path (artifact : string)
  (checksum : option string) (stat : stat_result) :
  fs !! path = Some stat →
  MetaQueries.get_affected_index_files
    (MetaManager.update_file_record fs data path artifact checksum) [path]
  = if Py.truthy artifact then {[ VStr artifact ]} else ∅.
Proof.
  intros Hfs. rewrite (update_file_record_exists _ _ _ _ _ _ Hfs).
  apply set_eq. intros v. rewrite elem_of_get_affected. simpl. split.
  - intros (p & r & Hp & Hr & Hv & Ht).
    apply list_elem_of_singleton in Hp as ->.
    rewrite lookup_insert_eq in Hr. injection Hr as <-.
    change (MetaManager.record_get (new_record stat artifact checksum)
              "indexed_in") with (VStr artifact) in Hv. subst v.
    simpl in Ht. rewrite Ht. by apply elem_of_singleton.
  - destruct (Py.truthy artifact) eqn:Ht.
    + intros ->%elem_of_singleton. exists path, (new_record stat artifact checksum).
      split; [by apply list_elem_of_singleton|].
      rewrite lookup_insert_eq. done.
    + intros H. by apply not_elem_of_empty in H.
Qed.

(** The sample file, recorded in [directories/src.md]. *)
Lemma affected_after_update_witness :
  MetaQueries.get_affected_index_files
    (MetaManager.update_file_record example_fs example_data "src/a.py"
       "directories/src.md" None) ["src/a.py"]
  = {[ VStr "directories/src.md" ]}.
Proof.
  exact (affected_after_update example_fs example_data "src/a.py"
           "directories/src.md" None example_stat eq_refl).
Defined.

End MetaMore.

Section MetaQueriesFacts.

Implicit Types (fs : filesystem) (data : IndexMetadata)
  (path directory : string).

Lemma startswith_iff (s p : string) :
  Py.startswith s p = true ↔ ∃ rest, s = p +:+ rest.
Proof.
  unfold Py.startswith. revert s. induction p as [|a p IH]; intros s.
  - split; [intros _; by exists s|]. intros _. by destruct s.
  - destruct s as [|b s]; simpl.
    + split; [discriminate|]. intros [rest H]. by rewrite append_cons in H.
    + destruct (ascii_dec a b) as [->|Hne].
      * rewrite IH. split; intros [rest H]; exists rest.
        -- by rewrite append_cons, H.
        -- rewrite append_cons in H. by injection H.
      * split; [discriminate|]. intros [rest H].
        rewrite append_cons in H. injection H as H _. congruence.
Qed.

Lemma endswith_char_append (s : string) (c : ascii) :
  endswith_char (s +:+ String c "") c = true.
Proof.
  induction s as [|a s IH].
  - simpl. apply Ascii.eqb_refl.
  - rewrite append_cons. simpl.
    destruct (s +:+ String c "") eqn:Hs; [|done].
    by destruct s.
Qed.

Lemma with_sep_idempotent directory :
  MetaQueries.with_sep (MetaQueries.with_sep directory)
  = MetaQueries.with_sep directory.
Proof.
  unfold MetaQueries.with_sep at 2.
  destruct (endswith_char directory "/") eqn:He.
  - unfold MetaQueries.with_sep. by rewrite He.
  - unfold MetaQueries.with_sep, os_sep.
    by rewrite endswith_char_append, He.
Qed.

(** X7: [get_files_in_directory] returns exactly the recorded paths that
    are the directory, a separator, and anything after it, each once.  The
    separator is part of the prefix, so [src] does not catch a path of
    [src2], and a directory given with its final separator gives the same
    list as without it. *)
Theorem get_files_in_directory_spec data directory :
  (∀ path, path ∈ MetaQueries.get_files_in_directory data directory ↔
     is_Some (files data !! path)
     ∧ ∃ rest, path = MetaQueries.with_sep directory +:+ rest)
  ∧ NoDup (MetaQueries.get_files_in_directory data directory)
  ∧ (endswith_char directory "/"%char = false →
     MetaQueries.get_files_in_directory data (directory +:+ "/")
     = MetaQueries.get_files_in_directory data directory
     ∧ ∀ path, path ∈ MetaQueries.get_files_in_directory data directory →
         ∃ rest, path = directory +:+ "/" +:+ rest).
Proof.
  assert (Hin : ∀ path,
    path ∈ MetaQueries.get_files_in_directory data directory ↔
    is_Some (files data !! path)
    ∧ ∃ rest, path = MetaQueries.with_sep directory +:+ rest).
  { intros path. unfold MetaQueries.get_files_in_directory.
    rewrite list_elem_of_filter, list_elem_of_fmap, startswith_iff. split.
    - intros [Hp [[k v] [-> Hkv]]]. apply elem_of_map_to_list in Hkv.
      simpl in *. eauto.
    - intros [[v Hv] Hp]. split; [done|]. exists (path, v).
      split; [done | by apply elem_of_map_to_list]. }
  split; [done|]. split.
  { unfold MetaQueries.get_files_in_directory.
    apply NoDup_filter, NoDup_fst_map_to_list. }
  intros He. split.
  - unfold MetaQueries.get_files_in_directory.
    replace (MetaQueries.with_sep (directory +:+ "/"))
      with (MetaQueries.with_sep directory); [done|].
    rewrite <- (with_sep_idempotent directory).
    unfold MetaQueries.with_sep at 2 3. by rewrite He.
  - intros path [_ [rest Hrest]]%Hin. exists rest.
    unfold MetaQueries.with_sep, os_sep in Hrest. rewrite He in Hrest.
    by rewrite Hrest, append_assoc.
Qed.

(** The directory [src] of the sample store. *)
Lemma get_files_in_directory_spec_witness :
  endswith_char "src" "/"%char = false
  ∧ MetaQueries.get_files_in_directory example_store "src/"
    = MetaQueries.get_files_in_directory example_store "src".
Proof.
  split; [reflexivity|].
  apply (proj2 (proj2 (get_files_in_directory_spec example_store "src"))).
  reflexivity.
Defined.

(** X8: [remove_record] forgets a path and nothing else: the records are
    the stored ones without that path, so the file is due for indexing
    again exactly when it is on disk; a second removal changes nothing,
    and so does the removal of a path that has no record. *)
Theorem remove_record_forgets fs data path :
  files (MetaManager.remove_record data path) = delete path (files data)
  ∧ MetaManager.should_reindex fs (MetaManager.remove_record data path) path
    = bool_decide (is_Some (fs !! path))
  ∧ MetaManager.remove_record (MetaManager.remove_record data path) path
    = MetaManager.remove_record data path
  ∧ (files data !! path = None → MetaManager.remove_record data path = data)
  ∧ (∀ (artifact : string) (checksum : option string),
       files data !! path = None →
       files (MetaManager.remove_record
                (MetaManager.update_file_record fs data path artifact checksum)
                path) = files data).
Proof.
  assert (Hnone : ∀ d, files d !! path = None →
                       MetaManager.remove_record d path = d).
  { intros d Hd. unfold MetaManager.remove_record.
    rewrite bool_decide_eq_false_2; [done|]. by apply not_elem_of_dom. }
  split; [apply files_remove_record|]. split; [|split; [|split]].
  - unfold MetaManager.should_reindex. rewrite files_remove_record.
    rewrite lookup_delete_eq. destruct (fs !! path) as [stat|].
    + by rewrite bool_decide_eq_true_2.
    + rewrite bool_decide_eq_false_2; [done|]. by intros [? ?].
  - apply Hnone. rewrite files_remove_record. apply lookup_delete_eq.
  - apply Hnone.
  - intros artifact checksum Hd. rewrite files_remove_record.
    unfold MetaManager.update_file_record.
    destruct (fs !! path); simpl.
    + rewrite delete_insert_eq. by apply delete_id.
    + by apply delete_id.
Qed.

End MetaQueriesFacts.

Section RecordDirectory.

Implicit Types (fs : filesystem) (data : IndexMetadata)
  (path : string) (written files_of_dir : list string).

Lemma record_file_loop fs data path written :
  fold_left (λ data written_file,
               MetaManager.update_file_record fs data path written_file None)
            written data
  = match last written with
    | Some artifact => MetaManager.update_file_record fs data path artifact None
    | None => data
    end.
Proof.
  revert data. induction written as [|w ws IH]; intros data; [done|].
  simpl. rewrite IH. destruct ws as [|w' ws]; [done|].
  change (last (w :: w' :: ws)) with (last (w' :: ws)).
  destruct (proj2 (last_is_Some (w' :: ws))) as [artifact ->]; [done|].
  unfold MetaManager.update_file_record.
  destruct (fs !! path) as [stat|]; [|done].
  unfold MetaManager.set_files. simpl. by rewrite insert_insert_eq.
Qed.

Lemma files_record_directory fs files_of_dir written (artifact : string) :
  last written = Some artifact →
  ∀ data path,
    files (record_directory fs data files_of_dir written) !! path
    = match fs !! path with
      | Some stat =>
          if bool_decide (path ∈ files_of_dir)
          then Some (new_record stat artifact None)
          else files data !! path
      | None => files data !! path
      end.
Proof.
  intros Hlast. unfold record_directory.
  induction files_of_dir as [|f l IH]; intros data path; simpl.
  - by destruct (fs !! path).
  - rewrite IH, record_file_loop, Hlast.
    destruct (decide (path = f)) as [->|Hne].
    + destruct (fs !! f) as [stat|] eqn:Hf.
      * rewrite (update_file_record_exists _ _ _ _ _ _ Hf). simpl.
        rewrite lookup_insert_eq.
        rewrite (bool_decide_eq_true_2 (f ∈ f :: l)) by left.
        by case_bool_decide.
      * by rewrite (update_file_record_missing _ _ _ _ _ Hf).
    + rewrite files_update_other by done.
      destruct (fs !! path); [|done].
      destruct (decide (path ∈ l)) as [Hl|Hl].
      * rewrite !bool_decide_eq_true_2; [done | by right | done].
      * rewrite !bool_decide_eq_false_2; [done | | done].
        intros [?|?]%elem_of_cons; done.
Qed.

Lemma should_reindex_recorded fs data path (stat : stat_result)
  (artifact : string) (checksum : option string) :
  fs !! path = Some stat →
  files data !! path = Some (new_record stat artifact checksum) →
  MetaManager.should_reindex fs data path = false.
Proof.
  intros Hfs Hrec.
  destruct (MetaManager.should_reindex fs data path) eqn:Hs; [|done].
  apply should_reindex_true in Hs
    as (stat' & Hst & [Hnone | (record & Hsome & Hdiff)]); [congruence|].
  rewrite Hfs in Hst. injection Hst as <-.
  rewrite Hrec in Hsome. injection Hsome as <-.
  by rewrite new_record_fingerprint in Hdiff.
Qed.

(** X9: after the loops of [main] have recorded the files of a directory
    with the files written for it, every file of the directory that is on
    disk is recorded with its current fingerprint and with the last of the
    written files only; the records of the other paths are unchanged. *)
Theorem record_directory_last_written fs data files_of_dir written
  (artifact : string) :
  last written = Some artifact →
  (∀ path stat, path ∈ files_of_dir → fs !! path = Some stat →
     files (record_directory fs data files_of_dir written) !! path
     = Some (new_record stat artifact None))
  ∧ (∀ path, path ∉ files_of_dir →
       files (record_directory fs data files_of_dir written) !! path
       = files data !! path)
  ∧ (∀ path, fs !! path = None →
       files (record_directory fs data files_of_dir written) !! path
       = files data !! path).
Proof.
  intros Hlast. split; [|split].
  - intros path stat Hin Hfs.
    rewrite (files_record_directory _ _ _ _ Hlast), Hfs.
    by rewrite bool_decide_eq_true_2.
  - intros path Hin. rewrite (files_record_directory _ _ _ _ Hlast).
    destruct (fs !! path); [|done]. by rewrite bool_decide_eq_false_2.
  - intros path Hfs. by rewrite (files_record_directory _ _ _ _ Hlast), Hfs.
Qed.

(** The sample file recorded with two parts: the second is kept. *)
Lemma record_directory_last_written_witness :
  files (record_directory example_fs example_data ["src/a.py"]
           ["directories/src_part1.md"; "directories/src_part2.md"])
    !! "src/a.py"
  = Some (new_record example_stat "directories/src_part2.md" None).
Proof.
  apply (proj1 (record_directory_last_written example_fs example_data
                  ["src/a.py"]
                  ["directories/src_part1.md"; "directories/src_part2.md"]
                  "directories/src_part2.md" eq_refl)).
  - by apply list_elem_of_singleton.
  - reflexivity.
Defined.

Lemma written_files_last (output_dir_name content base_name : string) :
  ∃ artifact,
    last (written_files output_dir_name
            (write_chunked_index content base_name)) = Some artifact
    ∧ artifact
      = output_dir_name +:+ "/"
        +:+ (if Py.len content <=? MAX_CHARS_PER_FILE
             then base_name +:+ ".md"
             else part_name base_name
                    (Z.of_nat (length (split_chunks content)))).
Proof.
  unfold written_files.
  rewrite <- (map_map w_name (λ name, output_dir_name +:+ "/" +:+ name)).
  rewrite write_chunked_index_name_list.
  destruct (Py.len content <=? MAX_CHARS_PER_FILE); [by eexists|].
  pose proof (split_chunks_not_nil content) as Hne.
  destruct (length (split_chunks content)) as [|n] eqn:Hn.
  { by destruct (split_chunks content). }
  rewrite seqZ_S, !map_app. simpl. rewrite last_snoc.
  eexists. split; [done|]. do 3 f_equal. lia.
Qed.

(** X10: once a directory has been indexed and recorded, an incremental
    run on the same disk skips it: no file of the directory needs an
    update.  The files are associated with one index file only, the last
    one written: the single file, or the last part of a chunked index. *)
Theorem indexed_directory_is_skipped fs data files_of_dir
  (output_dir_name content base_name : string) :
  let written :=
    written_files output_dir_name (write_chunked_index content base_name) in
  let data' := record_directory fs data files_of_dir written in
  needs_update fs data' files_of_dir = false
  ∧ directory_skipped true false fs data' files_of_dir = true
  ∧ ∀ path, path ∈ files_of_dir → is_Some (fs !! path) →
      MetaQueries.get_affected_index_files data' [path]
      = {[ VStr (output_dir_name +:+ "/"
                 +:+ (if Py.len content <=? MAX_CHARS_PER_FILE
                      then base_name +:+ ".md"
                      else part_name base_name
                             (Z.of_nat (length (split_chunks content))))) ]}.
Proof.
  intros written data'.
  destruct (written_files_last output_dir_name content base_name)
    as (artifact & Hlast & Hart).
  fold written in Hlast.
  assert (Hrec : ∀ path stat, path ∈ files_of_dir → fs !! path = Some stat →
            files data' !! path = Some (new_record stat artifact None)).
  { intros path stat Hin Hfs. unfold data'.
    rewrite (files_record_directory _ _ _ _ Hlast), Hfs.
    by rewrite bool_decide_eq_true_2. }
  assert (Hno : needs_update fs data' files_of_dir = false).
  { unfold needs_update. apply not_true_is_false. intros Hex.
    apply existsb_exists in Hex as (path & Hin & Hs).
    apply list_elem_of_In in Hin.
    destruct (fs !! path) as [stat|] eqn:Hfs.
    - rewrite (should_reindex_recorded fs data' path stat artifact None) in Hs;
        [done | done | by apply Hrec].
    - unfold MetaManager.should_reindex in Hs. by rewrite Hfs in Hs. }
  split; [done|]. split; [unfold directory_skipped; by rewrite Hno|].
  intros path Hin [stat Hfs]. rewrite <- Hart.
  apply set_eq. intros v. rewrite elem_of_get_affected, elem_of_singleton.
  split.
  - intros (p & r & ->%list_elem_of_singleton & Hr & Hv & _).
    rewrite (Hrec _ _ Hin Hfs) in Hr. injection Hr as <-. by subst v.
  - intros ->. exists path, (new_record stat artifact None).
    split; [by apply list_elem_of_singleton|]. split; [by apply Hrec|].
    split; [done|]. rewrite Hart. simpl.
    destruct output_dir_name; done.
Qed.

End RecordDirectory.

(** ** More on the parser registry *)

Section RegistryMore.

Implicit Types (parsers : list BaseParser) (path : string).

(** X11: registering a parser never changes the parser of a path that
    already has one; the new parser is returned only for the paths that no
    earlier parser handles and that it handles itself. *)
Theorem register_keeps_resolution parsers (parser : BaseParser) path :
  ParserRegistry.get_parser (ParserRegistry.register parsers parser) path
  = match ParserRegistry.get_parser parsers path with
    | Some earlier => Some earlier
    | None => if can_parse parser path then Some parser else None
    end.
Proof.
  unfold ParserRegistry.register.
  induction parsers as [|q parsers IH]; simpl; [done|].
  by destruct (can_parse q path).
Qed.

Lemma get_parser_is_Some parsers path :
  is_Some (ParserRegistry.get_parser parsers path)
  ↔ ∃ q, q ∈ parsers ∧ can_parse q path = true.
Proof.
  induction parsers as [|q parsers IH]; simpl.
  - split; [by intros [? ?]|]. intros (q & Hq & _). by apply elem_of_nil in Hq.
  - destruct (can_parse q path) eqn:Hq.
    + split; [|by eexists]. intros _. exists q. split; [left | done].
    + rewrite IH. split.
      * intros (q' & Hin & Hc). exists q'. split; [by right | done].
      * intros (q' & [->|Hin]%elem_of_cons & Hc); [congruence|].
        by exists q'.
Qed.

(** X12: [supported_extensions] lists exactly the extensions of the
    registered parsers, each once, and a path has a parser exactly when
    its lower-cased suffix is one of them; after [clear] there is none. *)
Theorem supported_extensions_spec parsers :
  NoDup (supported_extensions parsers)
  ∧ (∀ ext, ext ∈ supported_extensions parsers
            ↔ ∃ q, q ∈ parsers ∧ ext ∈ extensions q)
  ∧ (∀ path, is_Some (ParserRegistry.get_parser parsers path)
             ↔ Py.lower (Pathlib.suffix path) ∈ supported_extensions parsers)
  ∧ supported_extensions ParserRegistry.clear = [].
Proof.
  assert (Hin : ∀ ext, ext ∈ supported_extensions parsers
                       ↔ ∃ q, q ∈ parsers ∧ ext ∈ extensions q).
  { intros ext. unfold supported_extensions.
    rewrite elem_of_remove_dups, list_elem_of_In, in_flat_map.
    split; intros (q & Hq & He); exists q.
    - split; by apply list_elem_of_In.
    - split; by apply list_elem_of_In. }
  split; [apply NoDup_remove_dups|]. split; [done|]. split; [|done].
  intros path. rewrite get_parser_is_Some, Hin.
  split; intros (q & Hq & Hc); exists q; (split; [done|]);
    by apply can_parse_iff.
Qed.

End RegistryMore.

(** ** More on the Python parser *)

Section PythonParams.

Import Re.

Implicit Types (s param params name : string) (c : ascii).

Lemma contains_char_append c (s t : string) :
  Py.contains_char c (s +:+ t)
  = Py.contains_char c s || Py.contains_char c t.
Proof.
  induction s as [|a s IH]; [done|]. rewrite append_cons. simpl.
  by rewrite IH, orb_assoc.
Qed.

Lemma contains_char_lstrip c s :
  Py.contains_char c s = false → Py.contains_char c (Py.lstrip s) = false.
Proof.
  induction s as [|a s IH]; [done|]. simpl.
  intros [Ha Hs]%orb_false_iff. destruct (Py.is_space a); [by apply IH|].
  simpl. by rewrite Ha, Hs.
Qed.

Lemma contains_char_rstrip c s :
  Py.contains_char c s = false → Py.contains_char c (Py.rstrip s) = false.
Proof.
  induction s as [|a s IH]; [done|]. simpl.
  intros [Ha Hs]%orb_false_iff. specialize (IH Hs).
  destruct (Py.rstrip s) as [|b r].
  - destruct (Py.is_space a); [done|]. simpl. by rewrite Ha.
  - simpl in *. by rewrite Ha, IH.
Qed.

Lemma contains_char_strip c s :
  Py.contains_char c s = false → Py.contains_char c (Py.strip s) = false.
Proof. intros H. by apply contains_char_rstrip, contains_char_lstrip. Qed.

(** A text whose first character is not white space keeps it when it is
    stripped. *)
Lemma strip_keeps_head (a : ascii) s :
  Py.is_space a = false → ∃ r, Py.strip (String a s) = String a r.
Proof.
  intros Ha. unfold Py.strip. simpl. rewrite Ha. simpl.
  destruct (Py.rstrip s); [rewrite Ha|]; by eexists.
Qed.

Lemma hd_split_cons c (a : ascii) s :
  Ascii.eqb a c = false →
  hd "" (Py.split c (String a s)) = String a (hd "" (Py.split c s)).
Proof.
  intros Hac. simpl. rewrite Hac.
  destruct (Py.split c s) eqn:Hs; [by apply split_not_nil in Hs | done].
Qed.

Lemma strip_not_empty_head s :
  Py.strip s ≠ "" → ∃ a r, Py.strip s = String a r ∧ Py.is_space a = false.
Proof.
  unfold Py.strip. induction s as [|a s IH]; [done|]. simpl.
  destruct (Py.is_space a) eqn:Ha; [done|]. intros _. simpl.
  destruct (Py.rstrip s); [rewrite Ha|]; by eexists _, _.
Qed.

(** What [_extract_param_name] returns: nothing, or an item of the
    simplified list. *)
Lemma extract_param_name_ok param :
  PythonParser._extract_param_name param = ""
  ∨ param_name_ok (PythonParser._extract_param_name param).
Proof.
  unfold PythonParser._extract_param_name.
  destruct (Py.truthy (Py.strip param)) eqn:Ht; [|by left]. simpl.
  destruct (Py.startswith (Py.strip param) "*") eqn:Hstar.
  - right.
    destruct (strip_not_empty_head param) as (a & r & Hs & Ha).
    { intros H. by rewrite H in Ht. }
    rewrite Hs in *.
    assert (a = "*"%char) as ->.
    { apply startswith_iff in Hstar as [rest Hrest].
      rewrite append_cons in Hrest. by injection Hrest. }
    rewrite hd_split_cons by done.
    destruct (strip_keeps_head "*" (hd "" (Py.split ":" r)) eq_refl)
      as [r' Hr'].
    assert (Hcolon : Py.contains_char ":" (Py.strip
              (String "*" (hd "" (Py.split ":" r)))) = false).
    { apply contains_char_strip. simpl.
      pose proof (split_no_sep ":" r) as Hsep.
      destruct (Py.split ":" r) eqn:Hsplit; [done|].
      by inversion Hsep. }
    rewrite Hr' in *. split; [done|]. right. split; [|done].
    apply startswith_iff. exists r'. by rewrite append_cons.
  - destruct (re_match PythonParser.word_pattern (Py.strip param))
      as [m|] eqn:Hm; [|by left].
    right.
    destruct (match_at_class_group _ _ _ _ _ 1%nat Py.is_word Hm)
      as (w & Hw & Hne & Hall); [by simpl|].
    unfold group_str. rewrite Hw. simpl. split; [done | by left].
Qed.

Lemma params_step_ok (st : PythonParser.params_state) c :
  Forall param_name_ok (PythonParser.simplified st) →
  Forall param_name_ok
         (PythonParser.simplified (PythonParser.params_step st c)).
Proof.
  intros Hst. unfold PythonParser.params_step.
  repeat case_match; simpl; try done.
  apply Forall_app. split; [done|]. constructor; [|done].
  destruct (extract_param_name_ok (PythonParser.current st)) as [He|Hok];
    [|done].
  match goal with H : Py.truthy _ = true |- _ => by rewrite He in H end.
Qed.

Lemma params_loop_ok (l : list ascii) (st : PythonParser.params_state) :
  Forall param_name_ok (PythonParser.simplified st) →
  Forall param_name_ok
         (PythonParser.simplified (fold_left PythonParser.params_step l st)).
Proof.
  revert st. induction l as [|c l IH]; intros st Hst; simpl; [done|].
  by apply IH, params_step_ok.
Qed.

(** X13: the simplified parameter list of the Python parser is a list of
    names joined by a comma and a space: every item is a non-empty word,
    or starts with a star and holds no colon, so that no annotation and
    no default value of a named parameter is kept. *)
Theorem simplify_params_names_only params :
  ∃ names,
    PythonParser._simplify_params params = Py.join ", " names
    ∧ Forall param_name_ok names.
Proof.
  unfold PythonParser._simplify_params.
  destruct (Py.truthy (Py.strip params)); simpl; [|by exists []].
  pose proof (params_loop_ok (list_ascii_of_string params)
                (PythonParser.mk_params_state [] "" 0) (Forall_nil_2 _))
    as Hloop.
  set (st := fold_left PythonParser.params_step
                       (list_ascii_of_string params) _) in *.
  eexists. split; [reflexivity|].
  destruct (Py.truthy (Py.strip (PythonParser.current st))); [|done].
  destruct (Py.truthy (PythonParser._extract_param_name
                         (PythonParser.current st))) eqn:Ht; [|done].
  apply Forall_app. split; [done|]. constructor; [|done].
  destruct (extract_param_name_ok (PythonParser.current st)) as [He|Hok];
    [|done].
  by rewrite He in Ht.
Qed.

End PythonParams.

Section PythonOneLine.

Import Re.

Implicit Types (s line content : string) (c : ascii) (m : match_obj).

Lemma one_line_append (s t : string) :
  one_line (s +:+ t) ↔ one_line s ∧ one_line t.
Proof.
  unfold one_line. rewrite contains_char_append. apply orb_false_iff.
Qed.

Lemma one_line_join (sep : string) (l : list string) :
  one_line sep → Forall one_line l → one_line (Py.join sep l).
Proof.
  intros Hsep Hl. induction Hl as [|x l Hx Hl IH]; [done|].
  destruct l as [|y l]; [done|].
  rewrite join_cons. apply one_line_append. split; [done|].
  apply one_line_append. done.
Qed.

Lemma contains_char_split_pieces (d c : ascii) (s : string) :
  Py.contains_char d s = false →
  Forall (λ piece, Py.contains_char d piece = false) (Py.split c s).
Proof.
  induction s as [|a s IH]; [by repeat constructor|]. simpl.
  intros [Ha Hs]%orb_false_iff. specialize (IH Hs).
  destruct (Ascii.eqb a c); [by constructor|].
  destruct (Py.split c s) as [|h t].
  - constructor; [simpl; by rewrite Ha | constructor].
  - inversion IH; subst. constructor; [simpl; by rewrite Ha | done].
Qed.

(** On a text of one line every group of a match is of one line. *)
Lemma matches_one_line (r : regex) (st st' : mstate) :
  matches r st st' →
  one_line (rest st) → (∀ n w, caps st n = Some w → one_line w) →
  one_line (rest st') ∧ (∀ n w, caps st' n = Some w → one_line w).
Proof.
  induction 1 as [st|p c s' st Hrest Hp|s s' st Hs|st|st|
                  r1 r2 st st1 st2 _ IH1 _ IH2|
                  r1 r2 st st' _ IH|r1 r2 st st' _ IH|g r st|
                  g r st st1 st2 _ IH1 _ IH2|k r st st' Hm IH];
    intros Hline Hcaps; simpl; try done; try (by apply IH).
  - split; [|done]. rewrite Hrest in Hline. unfold one_line in *.
    simpl in Hline. by apply orb_false_iff in Hline as [_ ?].
  - split; [|done]. apply strip_prefix_Some in Hs. rewrite Hs in Hline.
    by apply one_line_append in Hline as [_ ?].
  - destruct (IH1 Hline Hcaps) as [H1 H1']. by apply IH2.
  - destruct (IH1 Hline Hcaps) as [H1 H1']. by apply IH2.
  - destruct (IH Hline Hcaps) as [H1 H1']. split; [done|].
    intros n w. unfold set_cap. destruct (Nat.eqb n k); [|by apply H1'].
    intros [= <-]. destruct (matches_rest _ _ _ Hm) as [w Hw].
    rewrite (consumed_prefix _ _ _ Hw). rewrite Hw in Hline.
    by apply one_line_append in Hline as [? _].
Qed.

Lemma re_match_one_line (r : regex) (s : string) m (n : nat) :
  re_match r s = Some m → one_line s → one_line (group_str m n).
Proof.
  intros Hm Hs. apply match_at_sound in Hm as (st' & Hm & Hcaps & _).
  destruct (matches_one_line _ _ _ Hm Hs) as [_ Hgroups]; [done|].
  unfold group_str, group. rewrite Hcaps.
  destruct (caps st' n) as [w|] eqn:Hw; [by eapply Hgroups | done].
Qed.

Lemma re_match_group_one_line (r : regex) (s : string) m (n : nat) (w : string) :
  re_match r s = Some m → one_line s → group m n = Some w → one_line w.
Proof.
  intros Hm Hs Hw. pose proof (re_match_one_line r s m n Hm Hs) as H.
  unfold group_str in H. by rewrite Hw in H.
Qed.

Lemma one_line_strip (s : string) : one_line s → one_line (Py.strip s).
Proof. apply contains_char_strip. Qed.

Lemma extract_param_name_one_line (param : string) :
  one_line param → one_line (PythonParser._extract_param_name param).
Proof.
  intros Hp. unfold PythonParser._extract_param_name.
  pose proof (one_line_strip _ Hp) as Hs.
  destruct (Py.truthy (Py.strip param)); [|done]. simpl.
  destruct (Py.startswith (Py.strip param) "*").
  - apply one_line_strip.
    pose proof (contains_char_split_pieces Py.nl ":" _ Hs) as Hpieces.
    destruct (Py.split ":" (Py.strip param)); [done|]. by inversion Hpieces.
  - destruct (re_match PythonParser.word_pattern (Py.strip param))
      as [m|] eqn:Hm; [|done].
    by eapply re_match_one_line.
Qed.

Lemma params_step_one_line (st : PythonParser.params_state) c :
  Ascii.eqb c Py.nl = false →
  one_line (PythonParser.current st) →
  Forall one_line (PythonParser.simplified st) →
  one_line (PythonParser.current (PythonParser.params_step st c))
  ∧ Forall one_line (PythonParser.simplified (PythonParser.params_step st c)).
Proof.
  intros Hc Hcur Hsim.
  assert (Hpush : one_line (PythonParser.current st +:+ String c "")).
  { apply one_line_append. split; [done|]. unfold one_line. simpl.
    by rewrite Hc. }
  unfold PythonParser.params_step.
  repeat case_match; simpl; split; try done.
  apply Forall_app. split; [done|]. constructor; [|done].
  by apply extract_param_name_one_line.
Qed.

Lemma params_loop_one_line (l : list ascii) (st : PythonParser.params_state) :
  Forall (λ c, Ascii.eqb c Py.nl = false) l →
  one_line (PythonParser.current st) →
  Forall one_line (PythonParser.simplified st) →
  one_line (PythonParser.current (fold_left PythonParser.params_step l st))
  ∧ Forall one_line
           (PythonParser.simplified (fold_left PythonParser.params_step l st)).
Proof.
  revert st. induction l as [|c l IH]; intros st Hl Hcur Hsim; simpl; [done|].
  inversion Hl as [|? ? Hc Hl']; subst.
  destruct (params_step_one_line st c Hc Hcur Hsim) as [H1 H2].
  by apply IH.
Qed.

Lemma one_line_chars (s : string) :
  one_line s → Forall (λ c, Ascii.eqb c Py.nl = false) (list_ascii_of_string s).
Proof.
  unfold one_line. induction s as [|a s IH]; [constructor|]. simpl.
  intros [Ha Hs]%orb_false_iff. constructor; [done | by apply IH].
Qed.

Lemma simplify_params_one_line (params : string) :
  one_line params → one_line (PythonParser._simplify_params params).
Proof.
  intros Hp. unfold PythonParser._simplify_params.
  destruct (Py.truthy (Py.strip params)); simpl; [|done].
  destruct (params_loop_one_line (list_ascii_of_string params)
              (PythonParser.mk_params_state [] "" 0)
              (one_line_chars _ Hp) eq_refl (Forall_nil_2 _)) as [Hcur Hsim].
  apply one_line_join; [done|].
  repeat case_match; try done.
  apply Forall_app. split; [done|]. constructor; [|done].
  by apply extract_param_name_one_line.
Qed.

Lemma simplify_bases_one_line (bases : string) :
  one_line bases → one_line (PythonParser._simplify_bases bases).
Proof.
  intros Hb. unfold PythonParser._simplify_bases.
  apply one_line_join; [done|].
  apply Forall_forall. intros x Hx.
  apply list_elem_of_In, in_flat_map in Hx as (base & Hbase & Hx).
  pose proof (contains_char_split_pieces Py.nl "," _ Hb) as Hpieces.
  rewrite Forall_forall in Hpieces.
  specialize (Hpieces base (proj2 (list_elem_of_In _ _) Hbase)).
  destruct (re_match PythonParser.word_pattern (Py.strip base))
    as [m|] eqn:Hm; [|done].
  destruct Hx as [<-|[]]. eapply re_match_one_line; [done|].
  by apply one_line_strip.
Qed.

Lemma format_def_one_line line m :
  re_match PythonParser.func_pattern line = Some m → one_line line →
  one_line (PythonParser.format_def m).
Proof.
  intros Hm Hline.
  assert (Hname : one_line (group_str m 3)) by by eapply re_match_one_line.
  assert (Hparams : one_line (PythonParser._simplify_params (group_str m 4))).
  { apply simplify_params_one_line. by eapply re_match_one_line. }
  unfold PythonParser.format_def.
  destruct (group m 5) as [ret|] eqn:Hret.
  - assert (Hr : one_line (Py.strip ret)).
    { apply one_line_strip. by eapply re_match_group_one_line. }
    repeat case_match; repeat (apply one_line_append; split); done.
  - repeat case_match; repeat (apply one_line_append; split); done.
Qed.

Lemma defs_step_one_line (st : PythonParser.defs_state) line :
  one_line line →
  Forall one_line (PythonParser.d_exports st) →
  Forall one_line (PythonParser.d_exports (PythonParser.defs_step st line)).
Proof.
  intros Hline Hst. unfold PythonParser.defs_step.
  destruct (negb (Py.truthy (Py.lstrip line))
            || Py.startswith (Py.lstrip line) "#"); [done|].
  match goal with
  | |- context [if ?c then ?a else st] => set (st1 := if c then a else st)
  end.
  assert (Hst1 : Forall one_line (PythonParser.d_exports st1))
    by (unfold st1; by case_match).
  clearbody st1.
  destruct (re_match PythonParser.class_pattern line) as [cm|] eqn:Hcm.
  - destruct (Py.len (group_str cm 1) =? 0); [|done]. simpl.
    apply Forall_app. split; [done|]. constructor; [|done].
    assert (Hname : one_line (group_str cm 2)) by by eapply re_match_one_line.
    destruct (group cm 3) as [bases|] eqn:Hb.
    + assert (Hbases : one_line (PythonParser._simplify_bases bases)).
      { apply simplify_bases_one_line. by eapply re_match_group_one_line. }
      case_match; repeat (apply one_line_append; split); done.
    + by apply one_line_append.
  - destruct (re_match PythonParser.func_pattern line) as [fm|] eqn:Hfm;
      [|done].
    pose proof (format_def_one_line _ _ Hfm Hline) as Hsig.
    repeat case_match; simpl; try done;
      apply Forall_app; (split; [done|]); (constructor; [|done]); try done.
Qed.

(** X14: every entry of the Python exports is a text of one line: it holds
    no line break, whatever the source text is. *)
Theorem python_exports_one_line content (e : string) :
  e ∈ exports (PythonParser.parse content) → one_line e.
Proof.
  simpl. unfold PythonParser._extract_definitions.
  assert (Hloop : ∀ lines (st : PythonParser.defs_state),
            Forall one_line lines →
            Forall one_line (PythonParser.d_exports st) →
            Forall one_line
              (PythonParser.d_exports
                 (fold_left PythonParser.defs_step lines st))).
  { induction lines as [|line lines IH]; intros st Hlines Hst; simpl; [done|].
    inversion Hlines; subst. by apply IH, defs_step_one_line. }
  intros Hin.
  pose proof (Hloop (Py.split Py.nl content) PythonParser.defs_init
                (split_no_sep Py.nl content) (Forall_nil_2 _)) as Hall.
  rewrite Forall_forall in Hall. by apply Hall.
Qed.

(** The sample class: its two entries are of one line. *)
Lemma python_exports_one_line_witness : one_line "  def __getitem__(self, key)".
Proof.
  apply (python_exports_one_line private_class_source).
  apply list_elem_of_In. vm_compute. right. by left.
Defined.

End PythonOneLine.

Section PythonGrouping.

Import Re.

Implicit Types (s line content : string) (c : ascii) (m : match_obj)
  (st : PythonParser.defs_state).

Lemma lstrip_spaces (w s : string) (c : ascii) :
  all_chars Py.is_space w = true → Py.is_space c = false →
  Py.lstrip (w +:+ String c s) = String c s.
Proof.
  intros Hw Hc. induction w as [|a w IH].
  - rewrite append_nil_l. simpl. by rewrite Hc.
  - simpl in Hw. apply andb_true_iff in Hw as [Ha Hw].
    rewrite append_cons. simpl. rewrite Ha. by apply IH.
Qed.

Lemma matches_Lit_rest (s : string) (st st' : mstate) :
  matches (Lit s) st st' → rest st = s +:+ rest st'.
Proof.
  intros H. inversion H as [| |s0 s' st0 Hs| | | | | | | |]; subst. simpl.
  by apply strip_prefix_Some.
Qed.

(** The first group of the [def] pattern is the indentation of the line. *)
Lemma func_pattern_indent line m :
  re_match PythonParser.func_pattern line = Some m →
  Py.len (group_str m 1) = Py.len line - Py.len (Py.lstrip line).
Proof.
  intros Hm. apply match_at_sound in Hm as (st' & Hm & Hcaps & _).
  unfold PythonParser.func_pattern in Hm.
  inversion Hm as [| | | | |r1 r2 sa sb sc Hbos Hrest| | | | |]; subst.
  inversion Hbos; subst. clear Hbos Hm.
  inversion Hrest as [| | | | |r1 r2 sa sb sc Hg1 Htail| | | | |]; subst.
  clear Hrest.
  assert (Hno : caps st' 1%nat = caps sb 1%nat)
    by (by apply (matches_no_group _ _ _ _ Htail)).
  inversion Hg1 as [| | | | | | | | | |k r sa sx Hstar]; subst. clear Hg1.
  destruct (matches_class_star _ _ _ _ Hstar) as (w & Hw & Hspaces).
  simpl in Hno. unfold set_cap in Hno. simpl in Hno.
  rewrite (consumed_prefix _ _ w Hw) in Hno. simpl in Hw.
  assert (Hhead : ∃ c t, rest sx = String c t ∧ Py.is_space c = false).
  { inversion Htail as [| | | | |? ? ? s1 ? Hopt Hdef| | | | |]; subst.
    simpl in *.
    inversion Hopt as [| | | | | |? ? ? ? Hleft|? ? ? ? Hright| | |];
      subst.
    - inversion Hleft as [| | | | | | | | | |? ? ? s2 Hasync]; subst.
      inversion Hasync as [| | | | |? ? ? s3 ? Hlit _| | | | |]; subst.
      apply matches_Lit_rest in Hlit. simpl in Hlit.
      rewrite Hlit. by eexists _, _.
    - inversion Hright; subst.
      inversion Hdef as [| | | | |? ? ? s3 ? Hlit _| | | | |]; subst.
      apply matches_Lit_rest in Hlit. simpl in Hlit.
      rewrite Hlit. by eexists _, _. }
  destruct Hhead as (c & t & Hsx & Hc). rewrite Hsx in Hw.
  unfold group_str, group. rewrite Hcaps, Hno. simpl.
  rewrite Hw, (lstrip_spaces _ _ _ Hspaces Hc), len_append. lia.
Qed.

Lemma grouped_app (inside : bool) (l1 l2 : list string) :
  grouped inside (l1 ++ l2)
  = grouped inside l1 && grouped (inside_after inside l1) l2.
Proof.
  revert inside. induction l1 as [|e l1 IH]; intros inside; [done|]. simpl.
  repeat case_match; rewrite IH; try done. by rewrite andb_assoc.
Qed.

Lemma inside_after_app (inside : bool) (l1 l2 : list string) :
  inside_after inside (l1 ++ l2) = inside_after (inside_after inside l1) l2.
Proof.
  revert inside. induction l1 as [|e l1 IH]; intros inside; [done|]. simpl.
  by repeat case_match.
Qed.

(** The signature of a [def] starts neither like a class entry nor with
    the indentation of a method. *)
Lemma format_def_head m :
  Py.startswith (PythonParser.format_def m) "class " = false
  ∧ Py.startswith (PythonParser.format_def m) "  " = false.
Proof.
  destruct (format_def_shape m) as (pre & tail & -> & [-> | ->]);
    split; reflexivity.
Qed.

Lemma class_entry_head (tail : string) :
  Py.startswith ("class " +:+ tail) "class " = true.
Proof. apply startswith_iff. by exists tail. Qed.

Lemma method_entry_head (sig : string) :
  Py.startswith ("  " +:+ sig) "class " = false
  ∧ Py.startswith ("  " +:+ sig) "  " = true.
Proof.
  split; [reflexivity|]. apply startswith_iff. by exists sig.
Qed.

(** The invariant of the loop of [_extract_definitions]. *)
Lemma defs_step_grouped st line :
  grouped false (PythonParser.d_exports st) = true →
  (PythonParser.in_class (PythonParser.current_class st) = true →
   inside_after false (PythonParser.d_exports st) = true) →
  PythonParser.class_indent st = 0 →
  grouped false (PythonParser.d_exports (PythonParser.defs_step st line)) = true
  ∧ (PythonParser.in_class
       (PythonParser.current_class (PythonParser.defs_step st line)) = true →
     inside_after false
       (PythonParser.d_exports (PythonParser.defs_step st line)) = true)
  ∧ PythonParser.class_indent (PythonParser.defs_step st line) = 0.
Proof.
  intros Hg Hin Hci. unfold PythonParser.defs_step.
  destruct (negb (Py.truthy (Py.lstrip line))
            || Py.startswith (Py.lstrip line) "#"); [done|].
  destruct (PythonParser.in_class (PythonParser.current_class st)
            && (Py.len line - Py.len (Py.lstrip line)
                <=? PythonParser.class_indent st)) eqn:Hreset.
  - (* the class is left *)
    destruct (re_match PythonParser.class_pattern line) as [cm|] eqn:Hcm.
    + destruct (Py.len (group_str cm 1) =? 0) eqn:Hz; simpl; [|done].
      apply Z.eqb_eq in Hz.
      rewrite grouped_app, inside_after_app, Hg.
      destruct (group cm 3) as [bases|]; [destruct (Py.truthy bases)|];
        cbn [grouped inside_after andb]; rewrite !class_entry_head; done.
    + destruct (re_match PythonParser.func_pattern line) as [fm|] eqn:Hfm;
        [|done].
      destruct (PythonParser.is_private (group_str fm 3)); [done|]. simpl.
      destruct (Py.len (group_str fm 1) =? 0); simpl; [|done].
      destruct (format_def_head fm) as [H1 H2].
      rewrite grouped_app, Hg. simpl. rewrite H1, H2. done.
  - (* the state is kept *)
    destruct (re_match PythonParser.class_pattern line) as [cm|] eqn:Hcm.
    + destruct (Py.len (group_str cm 1) =? 0) eqn:Hz; simpl; [|done].
      apply Z.eqb_eq in Hz.
      rewrite grouped_app, inside_after_app, Hg.
      destruct (group cm 3) as [bases|]; [destruct (Py.truthy bases)|];
        cbn [grouped inside_after andb]; rewrite !class_entry_head; done.
    + destruct (re_match PythonParser.func_pattern line) as [fm|] eqn:Hfm;
        [|done].
      destruct (PythonParser.is_private (group_str fm 3)); [done|].
      destruct (format_def_head fm) as [H1 H2].
      destruct (PythonParser.in_class (PythonParser.current_class st)) eqn:Hc.
      * (* inside a class: the line is indented, so it is a method *)
        simpl in Hreset. apply Z.leb_gt in Hreset.
        rewrite <- (func_pattern_indent _ _ Hfm) in Hreset.
        rewrite (proj2 (Z.gtb_lt _ _)) by lia. simpl.
        rewrite grouped_app, inside_after_app, Hg, (Hin eq_refl).
        destruct (method_entry_head (PythonParser.format_def fm)) as [E1 E2].
        cbn [grouped inside_after andb]. by rewrite E1, E2.
      * simpl. destruct (Py.len (group_str fm 1) =? 0); simpl.
        -- rewrite grouped_app, Hg. cbn [grouped andb]. rewrite H1, H2.
           split; [done|]. split; [intros; congruence | done].
        -- split; [done|]. split; [intros; congruence | done].
Qed.

(** X15: in the Python exports an indented entry (a method) never comes
    first and never follows the entry of a top-level function: it always
    follows the entry of a class or another indented entry under it. *)
Theorem python_exports_grouped content :
  grouped false (exports (PythonParser.parse content)) = true.
Proof.
  simpl. unfold PythonParser._extract_definitions.
  assert (Hloop : ∀ lines st,
    grouped false (PythonParser.d_exports st) = true →
    (PythonParser.in_class (PythonParser.current_class st) = true →
     inside_after false (PythonParser.d_exports st) = true) →
    PythonParser.class_indent st = 0 →
    grouped false
      (PythonParser.d_exports (fold_left PythonParser.defs_step lines st))
    = true).
  { induction lines as [|line lines IH]; intros st Hg Hin Hci; simpl; [done|].
    destruct (defs_step_grouped st line Hg Hin Hci) as (H1 & H2 & H3).
    by apply IH. }
  by apply Hloop.
Qed.

End PythonGrouping.

(** ** The ignore patterns *)

Section Ignore.

Variable fnmatch : string → string → bool.

Implicit Types (patterns more : list string) (root path : pure_path)
  (pattern : string).

Lemma matches_any_existsb (rel : pure_path) (rel_str name : string) patterns :
  IgnorePatterns.matches_any fnmatch rel rel_str name patterns
  = existsb (IgnorePatterns.pattern_matches fnmatch rel rel_str name) patterns.
Proof.
  induction patterns as [|p patterns IH]; [done|]. simpl.
  by destruct (IgnorePatterns.pattern_matches fnmatch rel rel_str name p).
Qed.

Lemma should_ignore_app patterns more root path :
  IgnorePatterns.should_ignore fnmatch (patterns ++ more) root path
  = IgnorePatterns.should_ignore fnmatch patterns root path
    || IgnorePatterns.should_ignore fnmatch more root path.
Proof.
  unfold IgnorePatterns.should_ignore.
  by rewrite !matches_any_existsb, existsb_app.
Qed.

Lemma load_gitignore_extends patterns (text : string) :
  ∃ loaded,
    IgnorePatterns._load_gitignore patterns text = patterns ++ loaded
    ∧ Forall (λ p, p ≠ "" ∧ Py.startswith p "#" = false
                   ∧ Py.startswith p "!" = false) loaded.
Proof.
  unfold IgnorePatterns._load_gitignore. eexists. split; [done|].
  apply Forall_forall. intros p Hp.
  apply list_elem_of_In, in_flat_map in Hp as (line & _ & Hp).
  destruct (Py.truthy (Py.strip line)) eqn:Ht; [|done].
  destruct (Py.startswith (Py.strip line) "#") eqn:Hc; [done|].
  destruct (Py.startswith (Py.strip line) "!") eqn:Hn; [done|].
  destruct Hp as [<-|[]]. split; [|done]. intros H. by rewrite H in Ht.
Qed.

Lemma init_patterns_extends (gitignore indexignore : option string)
  (custom : option (list string)) :
  ∃ more, IgnorePatterns.init_patterns gitignore indexignore custom
          = IgnorePatterns.DEFAULT_PATTERNS ++ more.
Proof.
  unfold IgnorePatterns.init_patterns. cbv zeta.
  assert (H1 : ∃ m1, match gitignore with
                     | Some text => IgnorePatterns._load_gitignore
                                      IgnorePatterns.DEFAULT_PATTERNS text
                     | None => IgnorePatterns.DEFAULT_PATTERNS
                     end = IgnorePatterns.DEFAULT_PATTERNS ++ m1).
  { destruct gitignore as [text|]; [|by exists []; rewrite app_nil_r].
    destruct (load_gitignore_extends IgnorePatterns.DEFAULT_PATTERNS text)
      as (l & -> & _). by exists l. }
  destruct H1 as [m1 ->].
  assert (H2 : ∃ m2, match indexignore with
                     | Some text => IgnorePatterns._load_gitignore
                                      (IgnorePatterns.DEFAULT_PATTERNS ++ m1)
                                      text
                     | None => IgnorePatterns.DEFAULT_PATTERNS ++ m1
                     end = IgnorePatterns.DEFAULT_PATTERNS ++ m2).
  { destruct indexignore as [text|]; [|by exists m1].
    destruct (load_gitignore_extends
                (IgnorePatterns.DEFAULT_PATTERNS ++ m1) text) as (l & -> & _).
    exists (m1 ++ l). by rewrite app_assoc. }
  destruct H2 as [m2 ->].
  destruct custom as [c|]; [|by exists m2].
  destruct (Py.nonempty c); [|by exists m2].
  exists (m2 ++ c). by rewrite app_assoc.
Qed.

(** X16: patterns only add up.  A path that some patterns ignore is
    ignored with any patterns added after them; as the lines of the ignore
    files that start with an exclamation mark are skipped and everything
    else is appended to the default patterns, a path that the default
    patterns ignore is ignored whatever [.gitignore], [.indexignore] and
    the custom patterns hold. *)
Theorem should_ignore_monotone patterns more root path
  (gitignore indexignore : option string) (custom : option (list string)) :
  (IgnorePatterns.should_ignore fnmatch patterns root path = true →
   IgnorePatterns.should_ignore fnmatch (patterns ++ more) root path = true)
  ∧ (IgnorePatterns.should_ignore fnmatch IgnorePatterns.DEFAULT_PATTERNS
       root path = true →
     IgnorePatterns.should_ignore fnmatch
       (IgnorePatterns.init_patterns gitignore indexignore custom) root path
     = true)
  ∧ (∀ text, ∃ loaded,
       IgnorePatterns._load_gitignore patterns text = patterns ++ loaded
       ∧ Forall (λ p, p ≠ "" ∧ Py.startswith p "#" = false
                      ∧ Py.startswith p "!" = false) loaded).
Proof.
  split; [|split].
  - intros H. by rewrite should_ignore_app, H.
  - intros H.
    destruct (init_patterns_extends gitignore indexignore custom) as [m ->].
    by rewrite should_ignore_app, H.
  - intros text. apply load_gitignore_extends.
Qed.

Lemma strip_parts_app (prefix l more : list string) (rest : list string) :
  PurePath.strip_parts prefix l = Some rest →
  PurePath.strip_parts prefix (l ++ more) = Some (rest ++ more).
Proof.
  revert l. induction prefix as [|x prefix IH]; intros l; simpl.
  - by intros [= ->].
  - destruct l as [|y l]; [done|]. simpl.
    destruct (String.eqb x y); [apply IH | done].
Qed.

Lemma parent_names_rev_app (l1 l2 : list string) (x : string) :
  l1 ≠ [] → x ∈ PurePath.parent_names_rev (l1 ++ x :: l2).
Proof.
  induction l1 as [|a l1 IH]; [done|]. intros _. simpl.
  destruct l1 as [|b l1].
  - simpl. left.
  - right. by apply IH.
Qed.

(** The name of a directory is among the names of the parents of every
    path below it. *)
Lemma name_in_parent_names (d : list string) (more : list string) :
  d ≠ [] → more ≠ [] →
  default "" (last d)
  ∈ PurePath.parent_names (mk_path false (d ++ more)).
Proof.
  intros Hd Hmore. unfold PurePath.parent_names. simpl.
  destruct (exists_last Hd) as (d' & x & ->).
  rewrite last_snoc. simpl.
  rewrite !rev_app_distr. simpl.
  apply (parent_names_rev_app (rev more)).
  intros H. apply (f_equal (@rev string)) in H. rewrite rev_involutive in H.
  done.
Qed.

(** X17: ignoring is inherited.  When a pattern matches the name of a
    directory below the root, every path below that directory is ignored. *)
Theorem should_ignore_inherited patterns root (dir rel_dir : pure_path)
  (more : list string) pattern :
  PurePath.relative_to dir root = Some rel_dir →
  parts rel_dir ≠ [] →
  more ≠ [] →
  pattern ∈ patterns →
  fnmatch (PurePath.name dir) (IgnorePatterns.rstrip_slash pattern) = true →
  IgnorePatterns.should_ignore fnmatch patterns root
    (PurePath.joinpath dir more) = true.
Proof.
  intros Hrel Hne Hmore Hin Hmatch.
  unfold IgnorePatterns.should_ignore. rewrite matches_any_existsb.
  apply existsb_exists. exists pattern.
  split; [by apply list_elem_of_In|].
  unfold PurePath.relative_to in *. simpl.
  destruct (Bool.eqb (absolute dir) (absolute root)); [|done].
  destruct (PurePath.strip_parts (parts root) (parts dir)) as [rest|] eqn:Hs;
    [|done].
  injection Hrel as <-. simpl in Hne.
  rewrite (strip_parts_app _ _ more _ Hs).
  unfold IgnorePatterns.pattern_matches. apply orb_true_iff. right.
  apply existsb_exists. exists (PurePath.name dir).
  split; [|done]. apply list_elem_of_In.
  assert (Hname : PurePath.name dir = default "" (last rest)).
  { unfold PurePath.name. clear -Hs Hne. revert Hs.
    generalize (parts dir). generalize (parts root).
    induction l as [|x l IH]; intros l0 Hs; simpl in Hs.
    - by injection Hs as ->.
    - destruct l0 as [|y l0]; [done|].
      destruct (String.eqb x y); [|done].
      specialize (IH _ Hs). rewrite <- IH.
      destruct l0 as [|z l0]; [|done].
      destruct l; simpl in Hs; [by injection Hs as <- | done]. }
  rewrite Hname. by apply name_in_parent_names.
Qed.

End Ignore.

(** A file below [node_modules] in the sample project. *)
Lemma should_ignore_inherited_witness :
  IgnorePatterns.should_ignore example_fnmatch IgnorePatterns.DEFAULT_PATTERNS
    example_root
    (PurePath.joinpath (mk_path true ["home"; "project"; "node_modules"])
                       ["lodash"; "index.js"]) = true.
Proof.
  apply (should_ignore_inherited example_fnmatch
           IgnorePatterns.DEFAULT_PATTERNS example_root
           (mk_path true ["home"; "project"; "node_modules"])
           (mk_path false ["node_modules"]) ["lodash"; "index.js"]
           "node_modules");
    [reflexivity | done | done | | reflexivity].
  apply list_elem_of_In. simpl. right. right. by left.
Defined.

(** A path the default patterns ignore, with a [.gitignore] that tries to
    include it again. *)
Lemma should_ignore_monotone_witness :
  IgnorePatterns.should_ignore example_fnmatch
    (IgnorePatterns.init_patterns (Some "!node_modules") None None)
    example_root (mk_path true ["home"; "project"; "node_modules"]) = true.
Proof.
  apply (proj1 (proj2 (should_ignore_monotone example_fnmatch [] []
                         example_root
                         (mk_path true ["home"; "project"; "node_modules"])
                         (Some "!node_modules") None None))).
  reflexivity.
Defined.


(** ** The index file of a directory *)

Section SafeName.

Lemma replace_char_app (old new : ascii) (s t : string) :
  replace_char old new (s +:+ t)
  = replace_char old new s +:+ replace_char old new t.
Proof.
  induction s as [|c s IH]; [by rewrite !append_nil_l|].
  rewrite append_cons. simpl. by rewrite IH, append_cons.
Qed.

Lemma replace_char_absent (old new : ascii) (s : string) :
  old ≠ new → Py.contains_char old (replace_char old new s) = false.
Proof.
  intros Hne. induction s as [|c s IH]; [done|]. simpl.
  rewrite IH, orb_false_r.
  destruct (Ascii.eqb_spec c old) as [->|Hc].
  - by apply Ascii.eqb_neq.
  - by apply Ascii.eqb_neq.
Qed.

Lemma truthy_app_sep (a sep b : string) :
  sep ≠ "" → Py.truthy (a +:+ sep +:+ b) = true.
Proof.
  intros Hsep. destruct a as [|c a]; [|done]. rewrite append_nil_l.
  by destruct sep.
Qed.

(** X18: the name of the index file of a directory has no slash, and it
    does not tell a slash from an underscore: the directories [a/b] and
    [a_b] get the same name, and so do the root directory and a directory
    called [root].  Two such directories whose indexes fit in one file are
    written to the same file. *)
Theorem safe_name_collisions (a b rel_dir content1 content2 : string) :
  Py.len content1 <= MAX_CHARS_PER_FILE →
  Py.len content2 <= MAX_CHARS_PER_FILE →
  Py.contains_char "/" (safe_name rel_dir) = false
  ∧ safe_name (a +:+ "/" +:+ b) = safe_name (a +:+ "_" +:+ b)
  ∧ safe_name "" = safe_name "root"
  ∧ map w_name (write_chunked_index content1 (safe_name (a +:+ "/" +:+ b)))
    = map w_name (write_chunked_index content2 (safe_name (a +:+ "_" +:+ b))).
Proof.
  intros H1 H2.
  assert (Heq : safe_name (a +:+ "/" +:+ b) = safe_name (a +:+ "_" +:+ b)).
  { unfold safe_name. rewrite !truthy_app_sep by done.
    by rewrite !replace_char_app. }
  split; [|split; [done|split; [done|]]].
  - unfold safe_name. destruct (Py.truthy rel_dir); [|done].
    by apply replace_char_absent.
  - rewrite !write_chunked_index_name_list, Heq.
    by rewrite !(proj2 (Z.leb_le _ _)) by done.
Qed.

End SafeName.

(** The directories [src/utils] and [src_utils]. *)
Lemma safe_name_collisions_witness :
  map w_name (write_chunked_index "# Directory: src/utils"
                (safe_name ("src" +:+ "/" +:+ "utils")))
  = map w_name (write_chunked_index "# Directory: src_utils"
                  (safe_name ("src" +:+ "_" +:+ "utils"))).
Proof.
  apply (safe_name_collisions "src" "utils" "" "# Directory: src/utils"
           "# Directory: src_utils"); by vm_compute.
Defined.

(** ** The project type *)

Section ProjectTypeFacts.

Import ProjectType.

Implicit Types (file_exists : string → bool)
  (inds : list (string * (string * list string))).

(** The loop over the indicators in closed form. *)
Lemma indicator_loop file_exists inds (t0 : string) (s0 : list string) :
  fold_left (indicator_step file_exists) inds (t0, s0)
  = (from_option (λ indicator, indicator.2.1) t0
       (last (present file_exists inds)),
     s0 ++ concat (map (λ indicator, indicator.2.2) (present file_exists inds))).
Proof.
  revert t0 s0. induction inds as [|[f [t s]] inds IH]; intros t0 s0; simpl.
  - by rewrite app_nil_r.
  - destruct (file_exists f) eqn:Hf; simpl; rewrite IH; [|done].
    rewrite app_assoc. f_equal. rewrite last_cons.
    by destruct (last (present file_exists inds)).
Qed.

Lemma detect_project_type_result file_exists (package_json : option json)
  (t : string) (stack : gset string) :
  detect_project_type file_exists package_json = Some (t, stack) →
  t = from_option (λ indicator, indicator.2.1) "unknown"
        (last (present file_exists indicators))
  ∧ ∃ fw, stack
          = list_to_set
              (concat (map (λ indicator, indicator.2.2)
                           (present file_exists indicators)) ++ fw)
          ∧ (fw ≠ [] → file_exists "package.json" = true).
Proof.
  unfold detect_project_type. rewrite indicator_loop. simpl "++".
  destruct (file_exists "package.json") eqn:Hp.
  - destruct package_json as [pkg|].
    + destruct (dependencies pkg) as [deps|]; [|done].
      intros [= <- <-]. split; [done|]. by exists (frameworks deps).
    + intros [= <- <-]. split; [done|]. exists []. by rewrite app_nil_r.
  - intros [= <- <-]. split; [done|]. exists []. by rewrite app_nil_r.
Qed.


Lemma present_nil_iff file_exists inds :
  present file_exists inds = []
  ↔ ∀ indicator, indicator ∈ inds → file_exists indicator.1 = false.
Proof.
  unfold present. induction inds as [|i inds IH]; simpl.
  - split; [|done]. intros _ x Hx. by apply elem_of_nil in Hx.
  - destruct (file_exists i.1) eqn:Hi.
    + split; [done|]. intros H. specialize (H i (list_elem_of_here _ _)).
      congruence.
    + rewrite IH. split.
      * intros H x [->|Hx]%elem_of_cons; [done|by apply H].
      * intros H x Hx. apply H. by right.
Qed.

(** X20: the type is [unknown] exactly when no indicator file exists,
    and exactly when the list of technologies is empty. *)
Theorem detect_project_type_unknown_iff file_exists
  (package_json : option json) (t : string) (stack : gset string) :
  detect_project_type file_exists package_json = Some (t, stack) →
  (t = "unknown"
   ↔ ∀ indicator, indicator ∈ indicators → file_exists indicator.1 = false)
  ∧ (t = "unknown" ↔ stack = ∅).
Proof.
  intros (-> & fw & -> & Hfw)%detect_project_type_result.
  rewrite <- present_nil_iff.
  assert (Htypes : Forall (λ indicator, indicator.2.1 ≠ "unknown"
                                        ∧ indicator.2.2 ≠ []) indicators).
  { unfold indicators. repeat constructor; done. }
  assert (Hsub : ∀ indicator, indicator ∈ present file_exists indicators →
                 indicator.2.1 ≠ "unknown" ∧ indicator.2.2 ≠ []
                 ∧ file_exists indicator.1 = true).
  { intros i Hi. apply list_elem_of_In, filter_In in Hi as [Hi Hex].
    apply list_elem_of_In in Hi.
    destruct (proj1 (Forall_forall _ _) Htypes i Hi). done. }
  assert (Hfirst : present file_exists indicators = [] → fw = []).
  { intros Hnil. destruct fw as [|x fw]; [done|].
    assert (Hp : file_exists "package.json" = true) by by apply Hfw.
    assert (Hin : ("package.json", ("node", ["Node.js"]))
                  ∈ present file_exists indicators).
    { apply list_elem_of_In, filter_In. split; [|done]. by left. }
    rewrite Hnil in Hin. by apply elem_of_nil in Hin. }
  split.
  - split; [|by intros ->].
    destruct (last (present file_exists indicators)) as [i|] eqn:Hl.
    + simpl. intros Hu. apply last_Some_elem_of in Hl.
      by destruct (Hsub i Hl) as [? _].
    + intros _. by apply last_None in Hl.
  - split.
    + destruct (last (present file_exists indicators)) as [i|] eqn:Hl.
      * simpl. intros Hu. apply last_Some_elem_of in Hl.
        by destruct (Hsub i Hl) as [? _].
      * intros _. apply last_None in Hl. rewrite Hl, (Hfirst Hl). done.
    + intros Hempty.
      destruct (present file_exists indicators) as [|i l] eqn:Hpres; [done|].
      exfalso. destruct (Hsub i) as (_ & Hstack & _); [left|].
      destruct i as [f [ty [|x s]]]; [done|].
      assert (Hx : x ∈ (∅ : gset string)).
      { rewrite <- Hempty. apply elem_of_list_to_set. simpl. left. }
      by apply elem_of_empty in Hx.
Qed.

End ProjectTypeFacts.

(** The sample project is a Python project, though it has a
    [package.json]. *)
Lemma detect_project_type_unknown_iff_witness :
  ("python" = "unknown"
   ↔ ∀ indicator, indicator ∈ ProjectType.indicators →
                  example_exists indicator.1 = false)
  ∧ ("python" = "unknown"
     ↔ ({["Node.js"; "Python"; "React"; "Express"]} : gset string) = ∅).
Proof.
  apply (detect_project_type_unknown_iff example_exists (Some example_package)).
  vm_compute. reflexivity.
Defined.



(** ** The entries of the TypeScript exports *)

Section TypeScriptEntries.

Import Re.

Lemma matches_group_inv (r : regex) (st st' : mstate) (n : nat)
  (P : string → Prop) :
  matches r st st' → group_inv n P r →
  (∀ w, caps st n = Some w → P w) → ∀ w, caps st' n = Some w → P w.
Proof.
  induction 1 as [| | | | |r1 r2 st st1 st2 H1 IH1 H2 IH2|
                  r1 r2 st st' H IH|r1 r2 st st' H IH| |
                  g r st st1 st2 H1 IH1 H2 IH2|k r st st' H IH];
    simpl; try done.
  - intros [Hg1 Hg2] Hst. apply IH2; [done|]. by apply IH1.
  - intros [Hg1 _]. by apply IH.
  - intros [_ Hg2]. by apply IH.
  - intros Hg Hst. apply IH2; [done|]. by apply IH1.
  - intros [Hk Hg] Hst w. unfold set_cap.
    destruct (Nat.eqb_spec n k) as [->|Hne].
    + intros [= <-]. by apply Hk.
    + by apply IH.
Qed.

Lemma match_at_group_inv (r : regex) (pos : nat) (prev : option ascii)
  (s : string) m (n : nat) (P : string → Prop) (w : string) :
  match_at r pos prev s = Some m → group_inv n P r →
  group m n = Some w → P w.
Proof.
  intros Hm Hg. apply match_at_sound in Hm as (st' & Hm & Hcaps & _).
  unfold group. rewrite Hcaps.
  by apply (matches_group_inv _ _ _ _ _ Hm Hg).
Qed.

Lemma rstrip_spaces (w : string) :
  all_chars Py.is_space w = true → Py.rstrip w = "".
Proof.
  induction w as [|c w IH]; [done|]. simpl.
  intros [Hc Hw]%andb_true_iff. by rewrite (IH Hw), Hc.
Qed.

Lemma rstrip_keeps_prefix (k : string) (c : ascii) (t : string) :
  Py.is_space c = false →
  ∃ t', Py.rstrip (k +:+ String c t) = k +:+ String c t'.
Proof.
  intros Hc. induction k as [|a k [t' IH]].
  - rewrite append_nil_l. simpl.
    destruct (Py.rstrip t); [rewrite Hc|]; by eexists.
  - exists t'. rewrite !append_cons. simpl. rewrite IH.
    destruct k; [by rewrite append_nil_l | by rewrite append_cons].
Qed.

Lemma strip_keeps_prefix (a : ascii) (k : string) (c : ascii) (t : string) :
  Py.is_space a = false → Py.is_space c = false →
  ∃ t', Py.strip (String a k +:+ String c t) = String a k +:+ String c t'.
Proof.
  intros Ha Hc. unfold Py.strip. rewrite append_cons. simpl. rewrite Ha.
  rewrite <- append_cons. by apply rstrip_keeps_prefix.
Qed.

Lemma word_head (w : string) :
  w ≠ "" → all_chars Py.is_word w = true →
  ∃ c t, w = String c t ∧ Py.is_space c = false.
Proof.
  destruct w as [|c t]; [done|]. intros _ [Hc _]%andb_true_iff.
  exists c, t. split; [done|].
  destruct (Py.is_space c) eqn:Hs; [|done].
  exfalso. revert Hc Hs. unfold Py.is_word, Py.is_space, Py.is_lower,
    Py.is_upper, Py.is_digit.
  destruct (Ascii.eqb_spec c "_") as [->|_]; [done|].
  rewrite orb_false_r, !orb_true_iff, !andb_true_iff, !Nat.leb_le. lia.
Qed.

(** What the first group of the function pattern captures. *)
Lemma func_pattern_async (pos : nat) (prev : option ascii) (s : string) m :
  match_at TypeScriptParser.func_pattern pos prev s = Some m →
  Py.strip (Py.or_empty (group m 1)) = ""
  ∨ Py.strip (Py.or_empty (group m 1)) = "async".
Proof.
  intros Hm. destruct (group m 1) as [w|] eqn:Hw; [|by left]. right.
  assert (HP : ∃ sp, w = "async" +:+ sp ∧ all_chars Py.is_space sp = true).
  { apply (match_at_group_inv _ _ _ _ _ 1%nat
             (λ w, ∃ sp, w = "async" +:+ sp ∧ all_chars Py.is_space sp = true)
             w Hm); [|done].
    simpl. repeat split; try done.
    intros _ st st' H.
    inversion H as [| | | | |r1 r2 sa sb sc Hl Hp| | | | |]; subst.
    apply matches_Lit_rest in Hl.
    apply matches_class_plus in Hp as (sp & Hsp & _ & Hall).
    exists sp. split; [|done]. apply consumed_prefix.
    by rewrite Hl, Hsp, append_assoc. }
  destruct HP as (sp & -> & Hall). simpl. unfold Py.strip.
  rewrite !append_cons, append_nil_l. simpl.
  by rewrite (rstrip_spaces _ Hall).
Qed.

(** What the first group of the variable pattern captures. *)
Lemma var_pattern_kind (pos : nat) (prev : option ascii) (s : string) m :
  match_at TypeScriptParser.var_pattern pos prev s = Some m →
  group_str m 1 = "const" ∨ group_str m 1 = "let" ∨ group_str m 1 = "var".
Proof.
  intros Hm.
  destruct (match_at_mandatory _ _ _ _ _ 1%nat Hm) as [w Hw]; [done|].
  unfold group_str. rewrite Hw. simpl.
  apply (match_at_group_inv _ _ _ _ _ 1%nat
           (λ w, w = "const" ∨ w = "let" ∨ w = "var") w Hm); [|done].
  simpl. repeat split; try done.
  intros _ st st' H.
  inversion H as [| | | | | |r1 r2 sa sb H1|r1 r2 sa sb H2| | |]; subst.
  - left. apply consumed_prefix. by apply matches_Lit_rest.
  - right.
    inversion H2 as [| | | | | |r1 r2 sa sb H3|r1 r2 sa sb H4| | |]; subst.
    + left. apply consumed_prefix. by apply matches_Lit_rest.
    + right. apply consumed_prefix. by apply matches_Lit_rest.
Qed.

Lemma typescript_entry_form content entry :
  entry ∈ exports (TypeScriptParser.parse content) →
  ∃ keyword tail, keyword ∈ export_keywords ∧ entry = keyword +:+ tail.
Proof.
  unfold TypeScriptParser.parse, TypeScriptParser._extract_exports. simpl.
  rewrite !elem_of_app.
  intros [[[[[[Hin|Hin]|Hin]|Hin]|Hin]|Hin]|Hin].
  - apply list_elem_of_fmap in Hin as (m & -> & Hm).
    apply finditer_elem in Hm as (pos & p & s' & Hm).
    destruct (match_at_class_group _ _ _ _ _ 2%nat Py.is_word Hm)
      as (w & Hw & Hne & Hall).
    { simpl. right. right. right. right. right. left. done. }
    destruct (word_head w Hne Hall) as (c & t & -> & Hc).
    unfold TypeScriptParser.format_func, group_str. rewrite Hw. simpl.
    destruct (func_pattern_async _ _ _ _ Hm) as [-> | ->].
    + exists "function ".
      destruct (Py.truthy (Py.or_empty (group m 5)));
        rewrite append_nil_l;
        match goal with
        | |- context [Py.strip ("function " +:+ String c t +:+ ?R)] =>
            destruct (strip_keeps_prefix "f" "unction " c (t +:+ R))
              as [t' Ht']; [done|done|];
            exists (String c t'); (split; [set_solver|]);
            rewrite <- Ht'; by rewrite !append_cons
        end.
    + exists "asyncfunction ".
      destruct (Py.truthy (Py.or_empty (group m 5)));
        match goal with
        | |- context [Py.strip ("async" +:+ "function " +:+ String c t +:+ ?R)] =>
            destruct (strip_keeps_prefix "a" "syncfunction " c (t +:+ R))
              as [t' Ht']; [done|done|];
            exists (String c t'); (split; [set_solver|]);
            rewrite <- Ht'; by rewrite !append_cons
        end.
  - apply list_elem_of_fmap in Hin as (m & -> & Hm).
    exists "class ". unfold TypeScriptParser.format_class.
    repeat case_match; eexists; (split; [set_solver|reflexivity]).
  - apply list_elem_of_fmap in Hin as (m & -> & Hm).
    exists "interface ". eexists. split; [set_solver|reflexivity].
  - apply list_elem_of_fmap in Hin as (m & -> & Hm).
    exists "type ". eexists. split; [set_solver|reflexivity].
  - apply list_elem_of_fmap in Hin as (m & -> & Hm).
    apply finditer_elem in Hm as (pos & p & s' & Hm).
    unfold TypeScriptParser.format_var.
    destruct (var_pattern_kind _ _ _ _ Hm) as [-> | [-> | ->]];
      [exists "const " | exists "let " | exists "var "];
      repeat case_match; eexists; (split; [set_solver|reflexivity]).
  - apply list_elem_of_fmap in Hin as (m & -> & Hm).
    exists "enum ". eexists. split; [set_solver|reflexivity].
  - exists "default ". unfold TypeScriptParser.default_export in Hin.
    repeat case_match; try (by apply elem_of_nil in Hin);
      apply list_elem_of_singleton in Hin as ->;
      eexists; (split; [set_solver|reflexivity]).
Qed.

(** X21: every entry of the TypeScript exports starts with one of ten
    words, and none starts with [async] and a space: the entry of an
    exported asynchronous function starts with [asyncfunction], in one
    word. *)
Theorem typescript_exports_keywords content entry :
  entry ∈ exports (TypeScriptParser.parse content) →
  keyword_led entry = true ∧ Py.startswith entry "async " = false.
Proof.
  intros (keyword & tail & Hk & ->)%typescript_entry_form.
  split.
  - unfold keyword_led. apply existsb_exists. exists keyword.
    split; [by apply list_elem_of_In|]. apply startswith_iff. by exists tail.
  - unfold export_keywords in Hk.
    repeat (apply elem_of_cons in Hk as [->|Hk]; [reflexivity|]).
    by apply elem_of_nil in Hk.
Qed.

End TypeScriptEntries.

(** An exported asynchronous function. *)
Lemma typescript_exports_keywords_witness :
  keyword_led "asyncfunction load(id): Promise<Item>" = true
  ∧ Py.startswith "asyncfunction load(id): Promise<Item>" "async " = false.
Proof.
  apply (typescript_exports_keywords sample_async_ts).
  apply list_elem_of_In. vm_compute. left. reflexivity.
Defined.
